(** * BRIAN: row-wise fitting, cube assembly and aperture assignment

    A shallow embedding of [src/brian.py] (fpavogt/brian), the driver of the
    continuum and emission-line fits of an integral-field data cube, and the
    proofs of its specified properties.

    Conventions of the embedding.
    - A numpy [float64] is a primitive binary64 float ([PrimFloat.float]):
      [nan], signed zeros and infinities behave as in IEEE 754.
    - A numpy array read through in-range indices is a total function of its
      [nat] indices; the extents come from the FITS header ([NAXIS1] = x,
      [NAXIS2] = y, [NAXIS3] = wavelength), as in the source.  A cube is indexed
      [wavelength (or plane), y, x], an image [y, x].
    - Python lists (the per-row inputs, the pickled results, the aperture list)
      are lists; Python dicts of file names are [gmap string string]; the
      directory of pickle files is a [gmap string pickle].
    - An exception or [sys.exit] is a [result]; the driver threads a [world]
      (files on disk and the worker-pool calls made so far).
    - What numpy leaves open is a parameter: the order its sort gives equal
      keys in an array of more than 17, and the association in which its sum
      adds ([run_make_ap_cube_with]). *)

From Stdlib Require Import ZArith Floats Bool List Lia Ascii String DecimalString DecimalZ.
From Stdlib Require Import FunctionalExtensionality Sorted Permutation.
From stdpp Require Import base list strings gmap.

Local Open Scope Z_scope.

(** ** Python and numpy primitives *)

Module np.

(** [np.nan], [np.pi] (the double nearest to pi), [np.isnan]. *)
Definition nan : float := PrimFloat.nan.
Definition pi : float := 0x1.921fb54442d18p+1%float.
Definition isnan (x : float) : bool := PrimFloat.is_nan x.

(** [a < b], [a >= b] and [a <= b] on float64: false as soon as one side is nan. *)
Definition lt (a b : float) : bool := (a <? b)%float.
Definition ge (a b : float) : bool := (b <=? a)%float.
Definition le (a b : float) : bool := (a <=? b)%float.
Definition gt (a b : float) : bool := (b <? a)%float.

(** [x ** 2] on an array is [np.square]: one multiplication. *)
Definition square (x : float) : float := (x * x)%float.

(** [np.zeros_like(v) * np.nan] on a vector. *)
Definition nan_like (v : list float) : list float :=
  map (fun _ => (0 * nan)%float) v.

(** [np.nansum] along one axis: nan samples count as zero.  The samples are
    added from left to right here; numpy's own reduction adds a run of eight
    samples or more pairwise, in an association it does not fix, so that its
    sum may differ from this one in floating point ([integrate_with] below
    leaves the reduction to numpy). *)
Definition nan_to_zero (x : float) : float := if isnan x then 0%float else x.
Definition nansum (l : list float) : float :=
  fold_left (fun acc x => (acc + nan_to_zero x)%float) l 0%float.

(** [np.nanmax]: the largest sample that is not nan; nan when there is none. *)
Definition nanmax (l : list float) : float :=
  fold_left (fun acc x =>
               if isnan x then acc
               else if isnan acc then x
               else if (acc <? x)%float then x else acc) l nan.

(** The order numpy sorts float64 by: [<], with nan after every number. *)
Definition sort_lt (a b : float) : bool :=
  (a <? b)%float || (isnan b && negb (isnan a)).

(** [np.argsort(keys)] on at most 17 keys: the indices of [keys] in ascending
    order, equal keys in input order.  numpy's default kind sorts an array that
    short by insertion, which is this function; a longer array is partitioned
    first, and its equal keys need not stay in input order ([argsort_with]
    below). *)
Fixpoint insert_index (keys : list float) (i : nat) (sorted : list nat) : list nat :=
  match sorted with
  | [] => [i]
  | j :: rest =>
      if sort_lt (nth j keys nan) (nth i keys nan)
      then j :: insert_index keys i rest
      else i :: j :: rest
  end.
Definition argsort (keys : list float) : list nat :=
  fold_right (insert_index keys) [] (seq 0 (length keys)).

End np.

(** Truth value of a configuration entry: [None] and a zero are false, any other
    number (nan too) is true.  An integer entry is the float64 numpy compares
    the array with. *)
Inductive pyval : Type :=
| PyNone
| PyNum (v : float).

Definition truthy (p : pyval) : bool :=
  match p with
  | PyNone => false
  | PyNum v => negb (v =? 0)%float
  end.

Definition num_of (p : pyval) : float :=
  match p with
  | PyNone => np.nan
  | PyNum v => v
  end.

(** Exceptions the modelled code can raise, and the outcome of a call. *)
Inductive exn : Type :=
| IndexError
| ValueError
| TypeError
| KeyError (key : string)
| NameError (name : string).

Inductive result (A : Type) : Type :=
| Ok (a : A)
| Raise (e : exn)
| SysExit (msg : string).
Arguments Ok {A} a.
Arguments Raise {A} e.
Arguments SysExit {A} msg.

Definition bind {A B : Type} (r : result A) (k : A -> result B) : result B :=
  match r with
  | Ok a => k a
  | Raise e => Raise e
  | SysExit m => SysExit m
  end.

(** An index into an axis of extent [n]: negative indices count from the end. *)
Definition py_index (n : nat) (i : Z) : option nat :=
  if (0 <=? i) && (i <? Z.of_nat n) then Some (Z.to_nat i)
  else if (- Z.of_nat n <=? i) && (i <? 0) then Some (Z.to_nat (i + Z.of_nat n))
  else None.

(** [str(i)] for an integer, [s.zfill(width)] and [os.path.join(a, b)]. *)
Definition py_str (z : Z) : string := NilZero.string_of_int (Z.to_int z).

Fixpoint zeros (n : nat) (s : string) : string :=
  match n with
  | O => s
  | S n' => String "0"%char (zeros n' s)
  end.

Definition zfill (width : nat) (s : string) : string :=
  match s with
  | String c rest =>
      if (Ascii.eqb c "-"%char || Ascii.eqb c "+"%char)%bool
      then String c (zeros (width - String.length s) rest)
      else zeros (width - String.length s) s
  | EmptyString => zeros width EmptyString
  end.

Definition ends_with_slash (s : string) : bool :=
  match String.rev s with
  | String c _ => Ascii.eqb c "/"%char
  | EmptyString => false
  end.

Definition path_join (a b : string) : string :=
  match b with
  | String "/"%char _ => b
  | _ =>
      match a with
      | EmptyString => b
      | _ => if ends_with_slash a then a +:+ b else a +:+ "/" +:+ b
      end
  end.

(** [np.linspace(start, stop, stop - start + 1)] over integers: the rows
    [start, start + 1, ..., stop]; a negative count is refused by numpy. *)
Definition linspace_rows (start stop : Z) : result (list Z) :=
  let num := stop - start + 1 in
  if num <? 0 then Raise ValueError
  else Ok (map (fun i => start + Z.of_nat i) (seq 0 (Z.to_nat num))).

(** ** Data model *)

(** The extents read from the FITS header of the data cube. *)
Record header : Type := {
  NAXIS1 : nat;   (* x: the axis the drivers call rows *)
  NAXIS2 : nat;   (* y *)
  NAXIS3 : nat    (* wavelength *)
}.

Definition image : Type := nat -> nat -> float.
Definition cube : Type := nat -> nat -> nat -> float.

(** [data[:, i, row]]: the spectrum of one spaxel. *)
Definition spaxel (hdr : header) (data : cube) (i row : nat) : list float :=
  map (fun l => data l i row) (seq 0 (NAXIS3 hdr)).

(** [v * g] for a spectrum [v] and a scalar [g]. *)
Definition scale (v : list float) (g : float) : list float :=
  map (fun s => (s * g)%float) v.

(** [a[mask] = v] on a one-dimensional array. *)
Definition mask_set (mask : nat -> bool) (v : float) (a : list float) : list float :=
  imap (fun i x => if mask i then v else x) a.

(** What [brian_elf.els_mpfit] returns for one spaxel. *)
Record mpfit : Type := {
  mp_params : list float;
  mp_perror : list float;
  mp_status : Z
}.

(** The content of a pickle file. *)
Inductive pickle : Type :=
| PklConts (conts : list (list float))
| PklFits (els : list mpfit)
| PklApertures (aps : list (Z * Z * Z)).

(** The worker-pool calls and file writes a driver makes. *)
Inductive event : Type :=
| PoolCreate (processes : option Z)
| PoolMap (row : Z)
| PoolClose
| PoolJoin
| PickleDump (fn : string).

Record world : Type := {
  files : gmap string pickle;
  calls : list event
}.

Definition log (w : world) (es : list event) : world :=
  {| files := files w; calls := calls w ++ es |}.

Definition dump (w : world) (fn : string) (p : pickle) : world :=
  {| files := <[fn := p]> (files w); calls := calls w ++ [PickleDump fn] |}.

(** [params['multiprocessing']]: false, [True], or a number of processes. *)
Inductive mp_setting : Type :=
| MPOff
| MPAll
| MPProcs (n : Z).

Definition mp_on (s : mp_setting) : bool :=
  match s with
  | MPOff => false
  | MPAll => true
  | MPProcs n => negb (n =? 0)
  end.

Definition mp_processes (s : mp_setting) : option Z :=
  match s with
  | MPProcs n => Some n
  | _ => None
  end.

Inductive method : Type :=
| lowess
| ppxf.

Definition method_name (m : method) : string :=
  match m with
  | lowess => "lowess"
  | ppxf => "ppxf"
  end.

(** One entry of [params['which_cont_sub']]: the key ['llim->ulim'] (or
    ['llim->max']) already split at ['->'], and the continuum it names. *)
Inductive upper : Type :=
| UMax
| ULim (u : Z).

Record bracket : Type := {
  llim : Z;
  ulim : upper;
  source : string
}.

Record params : Type := {
  target : string;
  tmp_loc : string;
  multiprocessing : mp_setting;
  lowess_snr_min : pyval;
  lowess_snr_max : pyval;
  ppxf_snr_min : pyval;
  ppxf_snr_max : pyval;
  elines_snr_min : pyval;
  elines_snr_max : pyval;
  which_cont_sub : list bracket;
  nlines : nat                    (* len(params['elines'].keys()) *)
}.

Definition snr_min (p : params) (m : method) : pyval :=
  match m with
  | lowess => lowess_snr_min p
  | ppxf => ppxf_snr_min p
  end.

Definition snr_max (p : params) (m : method) : pyval :=
  match m with
  | lowess => lowess_snr_max p
  | ppxf => ppxf_snr_max p
  end.

(** The name of a row's pickle file: [prefix + str(np.int(row)).zfill(4) + '.pkl']
    under the directory [params['tmp_loc']]. *)
Definition row_file (p : params) (prefix : string) (row : Z) : string :=
  path_join (tmp_loc p) (prefix +:+ zfill 4 (py_str row) +:+ ".pkl").

Definition cont_prefix (p : params) (suffix : string) (m : method) : string :=
  suffix +:+ "_" +:+ target p +:+ "_" +:+ method_name m +:+ "_row_".

Definition elines_prefix (p : params) (suffix : string) : string :=
  suffix +:+ "_" +:+ target p +:+ "_row_".

(** ** The row loop shared by the two fitting stages *)

Section RowJobs.

(** [interrupted row]: a KeyboardInterrupt reaches the driver while it waits in
    [pool.map] for that row.  [cpu_count] is [multiprocessing.cpu_count()]. *)
Variable interrupted : Z -> bool.

(** The block both drivers repeat (lines 207-245 and 434-471): with
    multiprocessing a fresh pool maps the fit over the row's inputs and is closed
    and joined, also on KeyboardInterrupt, where the run ends in [sys.exit];
    without, the fit is mapped in the driver itself.  [fit] is [None] when the
    name [fit_func] was never bound. *)
Definition dispatch {A B : Type} (p : params) (fit : option (A -> B))
    (exit_msg : string) (row : Z) (inputs : list A) (w : world)
  : result (list B) * world :=
  if mp_on (multiprocessing p) then
    let w1 := log w [PoolCreate (mp_processes (multiprocessing p))] in
    match fit with
    | None => (Raise (NameError "fit_func"), w1)
    | Some f =>
        if interrupted row
        then (SysExit (exit_msg +:+ py_str row), log w1 [PoolMap row; PoolClose; PoolJoin])
        else (Ok (map f inputs), log w1 [PoolMap row; PoolClose; PoolJoin])
    end
  else
    match fit with
    | None => (Raise (NameError "fit_func"), w)
    | Some f => (Ok (map f inputs), w)
    end.

(** [for row in rows: body], stopping at the first row that does not return. *)
Fixpoint for_rows {S : Type} (body : Z -> S -> result unit * S) (rows : list Z)
    (w : S) : result unit * S :=
  match rows with
  | [] => (Ok tt, w)
  | row :: rest =>
      match body row w with
      | (Ok _, w') => for_rows body rest w'
      | stop => stop
      end
  end.

(** *** [run_fit_continuum] *)

(** [brian_cof.lowess_fit] with [lams], [frac] and [it] fixed by [partial]: the
    continuum fit of one spectrum. *)
Variable lowess_fit : list float -> list float.

Definition cont_fit_func (m : method) : option (list float -> list float) :=
  match m with
  | lowess => Some lowess_fit
  | ppxf => None              (* the branch only prints: fit_func stays unbound *)
  end.

(** Lines 197-201: the spaxels of one row outside the SNR range become nan. *)
Definition cont_good_spaxels (hdr : header) (snr_cont : image) (smin smax : pyval)
    (row : nat) : list float :=
  let good := replicate (NAXIS2 hdr) 1%float in
  let good :=
    if truthy smin
    then mask_set (fun i => np.lt (snr_cont i row) (num_of smin)) np.nan good
    else good in
  let good :=
    if truthy smax
    then mask_set (fun i => np.ge (snr_cont i row) (num_of smax)) np.nan good
    else good in
  good.

(** Line 204: the list of spectra to fit, one per spaxel of the row. *)
Definition cont_specs (hdr : header) (data : cube) (snr_cont : image)
    (smin smax : pyval) (row : nat) : list (list float) :=
  let good := cont_good_spaxels hdr snr_cont smin smax row in
  map (fun i => scale (spaxel hdr data i row) (nth i good np.nan))
      (seq 0 (NAXIS2 hdr)).

(** The row as an index of the x axis.  An index out of range raises as soon as
    an array is read with it: in the SNR mask, or in the first spectrum. *)
Definition cont_row_inputs (hdr : header) (data : cube) (snr_cont : image)
    (smin smax : pyval) (row : Z) : result (list (list float)) :=
  match py_index (NAXIS1 hdr) row with
  | Some r => Ok (cont_specs hdr data snr_cont smin smax r)
  | None =>
      if truthy smin || truthy smax || (0 <? NAXIS2 hdr)%nat
      then Raise IndexError
      else Ok []
  end.

Definition cont_exit_msg : string :=
  "Multiprocessing continuum fitting interrupted at row ".

(** Lines 195-255: the body of the row loop.  The rows of [np.linspace] are
    floats with integer values; [row] is that integer. *)
Definition cont_fit_row (hdr : header) (data : cube) (snr_cont : image)
    (p : params) (suffix : string) (m : method) (row : Z) (w : world)
  : result unit * world :=
  match cont_row_inputs hdr data snr_cont (snr_min p m) (snr_max p m) row with
  | Ok specs =>
      match dispatch p (cont_fit_func m) cont_exit_msg row specs w with
      | (Ok conts, w') =>
          (Ok tt, dump w' (row_file p (cont_prefix p suffix m) row) (PklConts conts))
      | (Raise e, w') => (Raise e, w')
      | (SysExit msg, w') => (SysExit msg, w')
      end
  | Raise e => (Raise e, w)
  | SysExit msg => (SysExit msg, w)
  end.

(** Lines 168-262.  The cube, its header and the continuum SNR map, which
    lines 152-166 read from the FITS files, are arguments; the messages printed
    on the way are left out. *)
Definition run_fit_continuum (hdr : header) (data : cube) (snr_cont : image)
    (fn_list : gmap string string) (p : params) (suffix : string)
    (start_row end_row : option Z) (m : method) (w : world)
  : result (gmap string string) * world :=
  let nrows := Z.of_nat (NAXIS1 hdr) in
  let start_row := default 0 start_row in
  let end_row := default (nrows - 1) end_row in
  match linspace_rows start_row end_row with
  | Ok rows =>
      match for_rows (cont_fit_row hdr data snr_cont p suffix m) rows w with
      | (Ok _, w') =>
          (Ok (<[method_name m +:+ "_pickle" := cont_prefix p suffix m]> fn_list), w')
      | (Raise e, w') => (Raise e, w')
      | (SysExit msg, w') => (SysExit msg, w')
      end
  | Raise e => (Raise e, w)
  | SysExit msg => (SysExit msg, w)
  end.

(** *** [run_fit_elines] *)

(** [brian_elf.els_mpfit] with [lams], [be] and [params] fixed by [partial]: the
    line fit of one spectrum and its error spectrum. *)
Variable els_mpfit : list float * list float -> mpfit.

(** The integer of a bracket key as the float64 the SNR map is compared with. *)
Definition float_of_Z (z : Z) : float :=
  SF2Prim (binary_normalize prec emax z 0 false).

(** All the values of an image, row after row. *)
Definition flat (hdr : header) (a : image) : list float :=
  flat_map (fun y => map (fun x => a y x) (seq 0 (NAXIS1 hdr))) (seq 0 (NAXIS2 hdr)).

(** [(snr_cont >= llim) * (snr_cont < ulim)] *)
Definition in_bracket (snr_cont : image) (lo hi : float) (y x : nat) : bool :=
  np.ge (snr_cont y x) lo && np.lt (snr_cont y x) hi.

Definition bracket_ulim (hdr : header) (snr_cont : image) (b : bracket) : float :=
  match ulim b with
  | UMax => (np.nanmax (flat hdr snr_cont) + 1)%float
  | ULim u => float_of_Z u
  end.

(** Lines 389-401, one key of [params['which_cont_sub']].  [cont_lowess] is
    [None] when lines 365-370 did not load the cube; the ['ppxf'] branch reads the
    name [cont_ppfx], which nothing binds. *)
Definition subtract_bracket (hdr : header) (snr_cont : image)
    (cont_lowess : option cube) (b : bracket) (data : cube) : result cube :=
  let lo := float_of_Z (llim b) in
  let hi := bracket_ulim hdr snr_cont b in
  if String.eqb (source b) "lowess" then
    match cont_lowess with
    | Some cont =>
        Ok (fun l y x =>
              if in_bracket snr_cont lo hi y x
              then (data l y x - cont l y x)%float
              else data l y x)
    | None => Raise (NameError "cont_lowess")
    end
  else if String.eqb (source b) "ppxf" then Raise (NameError "cont_ppfx")
  else Ok data.

Fixpoint subtract_continuum (hdr : header) (snr_cont : image)
    (cont_lowess : option cube) (table : list bracket) (data : cube) : result cube :=
  match table with
  | [] => Ok data
  | b :: rest =>
      bind (subtract_bracket hdr snr_cont cont_lowess b data)
           (subtract_continuum hdr snr_cont cont_lowess rest)
  end.

(** Lines 422-426: the line-SNR gate (the upper bound is strict here). *)
Definition elines_good_spaxels (hdr : header) (snr_elines : image) (smin smax : pyval)
    (row : nat) : list float :=
  let good := replicate (NAXIS2 hdr) 1%float in
  let good :=
    if truthy smin
    then mask_set (fun i => np.lt (snr_elines i row) (num_of smin)) np.nan good
    else good in
  let good :=
    if truthy smax
    then mask_set (fun i => np.gt (snr_elines i row) (num_of smax)) np.nan good
    else good in
  good.

(** Lines 430-431: spectrum and error spectrum of each spaxel of the row. *)
Definition elines_specerrs (hdr : header) (data error : cube) (snr_elines : image)
    (smin smax : pyval) (row : nat) : list (list float * list float) :=
  let good := elines_good_spaxels hdr snr_elines smin smax row in
  map (fun i => (scale (spaxel hdr data i row) (nth i good np.nan),
                 scale (spaxel hdr error i row) (nth i good np.nan)))
      (seq 0 (NAXIS2 hdr)).

Definition elines_row_inputs (hdr : header) (data error : cube) (snr_elines : image)
    (smin smax : pyval) (row : Z) : result (list (list float * list float)) :=
  match py_index (NAXIS1 hdr) row with
  | Some r => Ok (elines_specerrs hdr data error snr_elines smin smax r)
  | None =>
      if truthy smin || truthy smax || (0 <? NAXIS2 hdr)%nat
      then Raise IndexError
      else Ok []
  end.

Definition elines_exit_msg : string :=
  "Multiprocessing line fitting interrupted at row ".

(** The body of the row loop; its last statement (line 484, indented to the
    depth of the loop body) records the file-name prefix in [fn_list]. *)
Definition elines_fit_row (hdr : header) (data error : cube) (snr_elines : image)
    (p : params) (suffix : string) (row : Z) (st : gmap string string * world)
  : result unit * (gmap string string * world) :=
  let '(fn_list, w) := st in
  match elines_row_inputs hdr data error snr_elines
          (elines_snr_min p) (elines_snr_max p) row with
  | Ok specerrs =>
      match dispatch p (Some els_mpfit) elines_exit_msg row specerrs w with
      | (Ok els, w') =>
          (Ok tt,
           (<["elines_pickle" := elines_prefix p suffix]> fn_list,
            dump w' (row_file p (elines_prefix p suffix) row) (PklFits els)))
      | (Raise e, w') => (Raise e, (fn_list, w'))
      | (SysExit msg, w') => (SysExit msg, (fn_list, w'))
      end
  | Raise e => (Raise e, st)
  | SysExit msg => (SysExit msg, st)
  end.

(** Lines 382-488.  The cubes, the header, the two SNR maps and the LOWESS
    continuum are what lines 344-376 read from the FITS files. *)
Definition run_fit_elines (hdr : header) (data error : cube)
    (snr_cont snr_elines : image) (cont_lowess : option cube)
    (fn_list : gmap string string) (p : params) (suffix : string)
    (start_row end_row : option Z) (w : world)
  : result (gmap string string) * world :=
  match subtract_continuum hdr snr_cont cont_lowess (which_cont_sub p) data with
  | Ok data =>
      let nrows := Z.of_nat (NAXIS1 hdr) in
      let start_row := default 0 start_row in
      let end_row := default (nrows - 1) end_row in
      match linspace_rows start_row end_row with
      | Ok rows =>
          match for_rows (elines_fit_row hdr data error snr_elines p suffix)
                  rows (fn_list, w) with
          | (Ok _, (fn_list', w')) => (Ok fn_list', w')
          | (Raise e, (_, w')) => (Raise e, w')
          | (SysExit msg, (_, w')) => (SysExit msg, w')
          end
      | Raise e => (Raise e, w)
      | SysExit msg => (SysExit msg, w)
      end
  | Raise e => (Raise e, w)
  | SysExit msg => (SysExit msg, w)
  end.

End RowJobs.

(** ** Cube assembly *)

(** [for x in xs: s = body x s], stopping at the first exception. *)
Fixpoint for_each {S A : Type} (body : A -> S -> result S) (xs : list A) (s : S)
  : result S :=
  match xs with
  | [] => Ok s
  | x :: rest => bind (body x s) (for_each body rest)
  end.

(** [np.array(a)] has shape [(rows, cols)]. *)
Definition rectangular {A : Type} (rows cols : nat) (a : list (list A)) : bool :=
  (length a =? rows)%nat && forallb (fun r => (length r =? cols)%nat) a.

(** [c[:, :, row] = np.array(a).T] for [a] of shape [(NAXIS2, planes)]. *)
Definition set_column (c : cube) (row : nat) (a : list (list float)) : cube :=
  fun l y x => if (x =? row)%nat then nth l (nth y a []) np.nan else c l y x.

(** [m[:, row] = np.array(v).T] *)
Definition set_image_column (m : image) (row : nat) (v : list float) : image :=
  fun y x => if (x =? row)%nat then nth y v np.nan else m y x.

(** [np.zeros(shape) * np.nan] *)
Definition nan_cube : cube := fun _ _ _ => (0 * np.nan)%float.
Definition nan_image : image := fun _ _ => (0 * np.nan)%float.

(** *** [run_make_continuum_cube] *)

(** Lines 296-306, one row: a row without pickle file is left as it is.  The
    assignment needs [np.array(conts).T] of the shape of the slab (numpy would
    also stretch an axis of extent one; such a pickle is refused here). *)
Definition cont_assemble_row (hdr : header) (fn_list : gmap string string)
    (p : params) (m : method) (fs : gmap string pickle) (row : nat) (cont_cube : cube)
  : result cube :=
  match fn_list !! (method_name m +:+ "_pickle") with
  | None => Raise (KeyError (method_name m +:+ "_pickle"))
  | Some prefix =>
      match fs !! row_file p prefix (Z.of_nat row) with
      | None => Ok cont_cube
      | Some (PklConts conts) =>
          if rectangular (NAXIS2 hdr) (NAXIS3 hdr) conts
          then Ok (set_column cont_cube row conts)
          else Raise ValueError
      | Some _ => Raise ValueError
      end
  end.

(** Lines 284-306; the function goes on to write the cube to a FITS file. *)
Definition run_make_continuum_cube (hdr : header) (fn_list : gmap string string)
    (p : params) (m : method) (fs : gmap string pickle) : result cube :=
  for_each (cont_assemble_row hdr fn_list p m fs) (seq 0 (NAXIS1 hdr)) nan_cube.

(** *** [run_make_elines_cube] *)

Section ElinesCube.

(** [brian_elf.els_spec] (the model spectrum of a parameter vector) and
    [brian_elf.obs_sigma] (the observed line width and its variance, from the
    dispersion plane, the redshifted wavelength plane and the three input
    variances) with the instrument fixed; [c] is the speed of light of
    [brian_metadata]. *)
Variable els_spec : list float -> list float.
Variable obs_sigma : image -> image -> image * image * float -> image * image.
Variable c : float.

Definition converged (status : Z) : bool :=
  (status =? 1) || (status =? 2) || (status =? 3) || (status =? 4).

Record elines_cubes : Type := {
  elines_fullspec_cube : cube;
  elines_params_cube : cube;
  elines_params_err : cube;
  elines_fit_status : image
}.

(** Lines 556-557: the parameters of each fit of the row, nan where it failed. *)
Definition row_ps (ms : list mpfit) : list (list float) :=
  match ms with
  | [] => []
  | m0 :: _ =>
      map (fun item =>
             if negb (converged (mp_status item))
             then np.nan_like (mp_params m0)
             else mp_params item) ms
  end.

(** Lines 559-560: the variances, nan where the fit failed; [ps] is the list
    line 556 has just rebuilt. *)
Definition row_errs (ms : list mpfit) : list (list float) :=
  match row_ps ms with
  | [] => []
  | p0 :: _ =>
      map (fun item =>
             if negb (converged (mp_status item))
             then np.nan_like p0
             else map np.square (mp_perror item)) ms
  end.

Definition row_stats (ms : list mpfit) : list float :=
  map (fun item => float_of_Z (mp_status item)) ms.

(** Lines 540-574, one row.  Each assignment needs an array of the shape of the
    slab it fills (as for the continuum cube, a pickle numpy would stretch is
    refused). *)
Definition elines_assemble_row (hdr : header) (fn_list : gmap string string)
    (p : params) (fs : gmap string pickle) (row : nat) (cubes : elines_cubes)
  : result elines_cubes :=
  match fn_list !! "elines_pickle" with
  | None => Raise (KeyError "elines_pickle")
  | Some prefix =>
      match fs !! row_file p prefix (Z.of_nat row) with
      | None => Ok cubes
      | Some (PklFits ms) =>
          let ps := row_ps ms in
          let errs := row_errs ms in
          let stats := row_stats ms in
          if negb (rectangular (NAXIS2 hdr) (6 * nlines p) ps) then Raise ValueError
          else if negb (rectangular (NAXIS2 hdr) (6 * nlines p) errs) then Raise ValueError
          else if negb (length stats =? NAXIS2 hdr)%nat then Raise ValueError
          else
            let elines_specs := map els_spec ps in
            if negb (rectangular (NAXIS2 hdr) (NAXIS3 hdr) elines_specs)
            then Raise ValueError
            else Ok {| elines_fullspec_cube :=
                         set_column (elines_fullspec_cube cubes) row elines_specs;
                       elines_params_cube :=
                         set_column (elines_params_cube cubes) row ps;
                       elines_params_err :=
                         set_column (elines_params_err cubes) row errs;
                       elines_fit_status :=
                         set_image_column (elines_fit_status cubes) row stats |}
      | Some _ => Raise TypeError
      end
  end.

Definition set_plane (cb : cube) (k : nat) (a : image) : cube :=
  fun l y x => if (l =? k)%nat then a y x else cb l y x.

(** Lines 583-587: the observed width of line [k] and its variance. *)
Definition sigma_obs_A (P E : cube) (k : nat) : image * image :=
  let zlams : image :=
    fun y x => (P (6 * k)%nat y x * (1 + P (6 * k + 2)%nat y x / c))%float in
  let zlams_err : image :=
    fun y x =>
      (np.square (P (6 * k)%nat y x) * E (6 * k + 2)%nat y x / (c * c))%float in
  obs_sigma (P (6 * k + 3)%nat) zlams (E (6 * k + 2)%nat, zlams_err, 0%float).

(** Lines 590-594: the first plane of line [k] becomes the flux, in both cubes. *)
Definition derive_line (k : nat) (PE : cube * cube) : cube * cube :=
  let '(P, E) := PE in
  let sig := sigma_obs_A P E k in
  let P' :=
    set_plane P (6 * k)
      (fun y x =>
         (sqrt (2 * np.pi) * P (6 * k + 1)%nat y x * fst sig y x)%float) in
  let E' :=
    set_plane E (6 * k)
      (fun y x =>
         (2 * np.pi *
          (np.square (E (6 * k + 1)%nat y x) * fst sig y x +
           snd sig y x * np.square (P' (6 * k + 1)%nat y x)))%float) in
  (P', E').

Definition derive_fluxes (n : nat) (PE : cube * cube) : cube * cube :=
  fold_left (fun acc k => derive_line k acc) (seq 0 n) PE.

(** Lines 522-527, the cubes before any row is read: nan everywhere. *)
Definition empty_cubes (data : cube) : elines_cubes :=
  {| elines_fullspec_cube := fun l y x => (data l y x * np.nan)%float;
     elines_params_cube := nan_cube;
     elines_params_err := nan_cube;
     elines_fit_status := nan_image |}.

(** Lines 534-574: the row loop alone. *)
Definition elines_assemble (hdr : header) (data : cube)
    (fn_list : gmap string string) (p : params) (fs : gmap string pickle)
  : result elines_cubes :=
  for_each (elines_assemble_row hdr fn_list p fs) (seq 0 (NAXIS1 hdr))
           (empty_cubes data).

(** Lines 512-594; the function goes on to write the four cubes to FITS
    files. *)
Definition run_make_elines_cube (hdr : header) (data : cube)
    (fn_list : gmap string string) (p : params) (fs : gmap string pickle)
  : result elines_cubes :=
  bind (elines_assemble hdr data fn_list p fs)
       (fun cubes =>
          let '(P, E) :=
            derive_fluxes (nlines p)
              (elines_params_cube cubes, elines_params_err cubes) in
          Ok {| elines_fullspec_cube := elines_fullspec_cube cubes;
                elines_params_cube := P;
                elines_params_err := E;
                elines_fit_status := elines_fit_status cubes |}).

End ElinesCube.

(** ** Aperture assignment: [run_make_ap_cube] *)

(** An aperture [(x, y, r)] of the pickled list, with integer centre and radius. *)
Definition aperture : Type := (Z * Z * Z)%type.

(** Line 918: the spaxel [(py, px)] lies within the radius of the centre. *)
Definition in_ap (a : aperture) (py px : nat) : bool :=
  let '(x, y, r) := a in
  (Z.of_nat px - x) ^ 2 + (Z.of_nat py - y) ^ 2 <=? r ^ 2.

(** Line 892, [flux[ys, xs]]: the flux at each centre. *)
Fixpoint peak_fluxes (ny nx : nat) (flux : image) (aps : list aperture)
  : result (list float) :=
  match aps with
  | [] => Ok []
  | (x, y, _) :: rest =>
      match py_index ny y, py_index nx x with
      | Some iy, Some ix =>
          bind (peak_fluxes ny nx flux rest) (fun fs => Ok (flux iy ix :: fs))
      | _, _ => Raise IndexError
      end
  end.

(** Line 895: [np.argsort(fs)[::-1]] *)
Definition sort_index (fs : list float) : list nat := reverse (np.argsort fs).

(** [np.mgrid[0:ny, 0:nx]] read in the order of a boolean mask: row after row. *)
Definition grid (ny nx : nat) : list (nat * nat) :=
  flat_map (fun y => map (fun x => (y, x)) (seq 0 nx)) (seq 0 ny).

(** The aperture map holds the number of an aperture or nan ([None]). *)
Definition ap_image : Type := nat -> nat -> option nat.

Record ap_state : Type := {
  ap_map : ap_image;
  ap_spec_cube : cube;
  ap_spec_err : cube
}.

(** Line 922: [ap_map[in_ap * np.isnan(ap_map)] = i] *)
Definition claim_spaxels (a : aperture) (i : nat) (m : ap_image) : ap_image :=
  fun py px =>
    if in_ap a py px && (if m py px is None then true else false)
    then Some i else m py px.

(** [ap_map == i], as the list of the spaxels where it holds. *)
Definition members (ny nx : nat) (m : ap_image) (i : nat) : list (nat * nat) :=
  filter (fun yx => m yx.1 yx.2 = Some i) (grid ny nx).

(** Lines 929-930: [np.nansum(data[:, ys, xs], axis=1)] *)
Definition integrate (data : cube) (mem : list (nat * nat)) : nat -> float :=
  fun l => np.nansum (map (fun yx => data l yx.1 yx.2) mem).

(** [cb[:, yi, xi] = spec] *)
Definition set_spaxel (cb : cube) (yi xi : nat) (spec : nat -> float) : cube :=
  fun l y x => if (y =? yi)%nat && (x =? xi)%nat then spec l else cb l y x.

(** Lines 913-938: the body of the loop for the [i]-th brightest aperture. *)
Definition ap_step (ny nx : nat) (data error : cube) (aps : list aperture)
    (i ind : nat) (st : ap_state) : ap_state :=
  let a := nth ind aps (0, 0, 0) in
  let m := claim_spaxels a i (ap_map st) in
  let mem := members ny nx m i in
  let spec := integrate data mem in
  let err := integrate error mem in
  {| ap_map := m;
     ap_spec_cube :=
       fold_left (fun cb yx => set_spaxel cb yx.1 yx.2 spec) mem (ap_spec_cube st);
     ap_spec_err :=
       fold_left (fun cb yx => set_spaxel cb yx.1 yx.2 err) mem (ap_spec_err st) |}.

(** [for (i, ind) in enumerate(order): ...] from the [i0]-th iteration on. *)
Fixpoint ap_loop (ny nx : nat) (data error : cube) (aps : list aperture)
    (i0 : nat) (order : list nat) (st : ap_state) : ap_state :=
  match order with
  | [] => st
  | ind :: rest =>
      ap_loop ny nx data error aps (S i0) rest
        (ap_step ny nx data error aps i0 ind st)
  end.

Definition ap_init : ap_state :=
  {| ap_map := fun _ _ => None;
     ap_spec_cube := nan_cube;
     ap_spec_err := nan_cube |}.

(** Lines 891-938, with the peaks sorted by insertion and the spectra added
    from left to right.  [ny] and [nx] are the shape of the flux map, which is
    that of the cube. *)
Definition run_make_ap_cube (ny nx : nat) (flux : image) (data error : cube)
    (aps : list aperture) : result ap_state :=
  bind (peak_fluxes ny nx flux aps)
       (fun fs => Ok (ap_loop ny nx data error aps 0 (sort_index fs) ap_init)).

(** *** The loop over numpy's own sort and sum *)

Section NumpyRoutines.

(** [quicksort keys]: the indices that numpy's default sort returns for more
    than 17 keys.  [add_reduce l vs]: [np.sum] of the samples [vs] of the
    plane [l] along the axis of the spaxels, which [np.nansum] calls once it
    has replaced the nan samples by zero. *)
Variable quicksort : list float -> list nat.
Variable add_reduce : nat -> list float -> float.

(** Line 895, [np.argsort(fs)]. *)
Definition argsort_with (keys : list float) : list nat :=
  if (length keys <=? 17)%nat then np.argsort keys else quicksort keys.

Definition sort_index_with (fs : list float) : list nat :=
  reverse (argsort_with fs).

(** Lines 929-930: [np.nansum(data[:, ys, xs], axis=1)] *)
Definition integrate_with (data : cube) (mem : list (nat * nat)) : nat -> float :=
  fun l => add_reduce l (map (fun yx => np.nan_to_zero (data l yx.1 yx.2)) mem).

(** Lines 913-938: the body of the loop for the [i]-th brightest aperture. *)
Definition ap_step_with (ny nx : nat) (data error : cube) (aps : list aperture)
    (i ind : nat) (st : ap_state) : ap_state :=
  let a := nth ind aps (0, 0, 0) in
  let m := claim_spaxels a i (ap_map st) in
  let mem := members ny nx m i in
  let spec := integrate_with data mem in
  let err := integrate_with error mem in
  {| ap_map := m;
     ap_spec_cube :=
       fold_left (fun cb yx => set_spaxel cb yx.1 yx.2 spec) mem (ap_spec_cube st);
     ap_spec_err :=
       fold_left (fun cb yx => set_spaxel cb yx.1 yx.2 err) mem (ap_spec_err st) |}.

Fixpoint ap_loop_with (ny nx : nat) (data error : cube) (aps : list aperture)
    (i0 : nat) (order : list nat) (st : ap_state) : ap_state :=
  match order with
  | [] => st
  | ind :: rest =>
      ap_loop_with ny nx data error aps (S i0) rest
        (ap_step_with ny nx data error aps i0 ind st)
  end.

(** Lines 891-938. *)
Definition run_make_ap_cube_with (ny nx : nat) (flux : image) (data error : cube)
    (aps : list aperture) : result ap_state :=
  bind (peak_fluxes ny nx flux aps)
       (fun fs =>
          Ok (ap_loop_with ny nx data error aps 0 (sort_index_with fs) ap_init)).

End NumpyRoutines.

(** What numpy's sort is taken to return: the indices of the keys, each once,
    no key before one that sorts below it. *)
Definition sorts_ascending (order : list float -> list nat) : Prop :=
  forall keys,
    order keys ≡ₚ seq 0 (length keys) /\
    forall a b ia ib, (a < b)%nat ->
      order keys !! a = Some ia -> order keys !! b = Some ib ->
      np.sort_lt (nth ib keys np.nan) (nth ia keys np.nan) = false.

(** The sum that adds its samples one after the other. *)
Definition add_in_order (l : nat) (vs : list float) : float :=
  fold_left (fun acc v => (acc + v)%float) vs 0%float.

(** * Properties *)

(** ** float64 arithmetic *)

Section Float64.

Local Open Scope float_scope.

Lemma mul_nan_r (x : float) : x * np.nan = np.nan.
Proof.
  apply Prim2SF_inj. rewrite mul_spec.
  change (Prim2SF np.nan) with S754_nan.
  destruct (Prim2SF x); reflexivity.
Qed.

Lemma mul_nan_l (x : float) : np.nan * x = np.nan.
Proof.
  apply Prim2SF_inj. rewrite mul_spec.
  change (Prim2SF np.nan) with S754_nan. reflexivity.
Qed.

Lemma add_nan_l (x : float) : np.nan + x = np.nan.
Proof.
  apply Prim2SF_inj. rewrite add_spec.
  change (Prim2SF np.nan) with S754_nan. reflexivity.
Qed.

Lemma add_nan_r (x : float) : x + np.nan = np.nan.
Proof.
  apply Prim2SF_inj. rewrite add_spec.
  change (Prim2SF np.nan) with S754_nan.
  destruct (Prim2SF x); reflexivity.
Qed.

(** Multiplying a valid binary64 number by one shifts its mantissa by 52 bits and
    back: nothing is rounded away. *)
Lemma SFmul_1_r (x : spec_float) :
  valid_binary x = true ->
  SF64mul x (S754_finite false 4503599627370496 (-52)) = x.
Proof.
  destruct x as [s|s| |s m e]; intros Hv.
  1-3: try (destruct s); reflexivity.
  cbn [SpecFloat.valid_binary] in Hv.
  unfold SpecFloat.bounded, canonical_mantissa in Hv.
  apply andb_prop in Hv as [Hc He].
  apply Z.eqb_eq in Hc.
  unfold SF64mul, SFmul.
  rewrite xorb_false_r, Pos.mul_comm.
  unfold binary_round_aux, shr_fexp.
  change (Zdigits2 (Z.pos (4503599627370496 * m)))
    with (Z.pos (digits2_pos (4503599627370496 * m))).
  assert (Hd : Z.pos (digits2_pos (4503599627370496 * m))
               = (Z.pos (digits2_pos m) + 52)%Z).
  { cbv [Pos.mul digits2_pos]. lia. }
  rewrite Hd.
  replace (Z.pos (digits2_pos m) + 52 + (e + -52))%Z
    with (Z.pos (digits2_pos m) + e)%Z by lia.
  rewrite Hc.
  replace (e - (e + -52))%Z with 52%Z by lia.
  assert (Hs : shr {| shr_m := Z.pos (4503599627370496 * m);
                      shr_r := false; shr_s := false |} (e + -52) 52
               = ({| shr_m := Z.pos m; shr_r := false; shr_s := false |}, e)).
  { unfold shr. f_equal; try reflexivity; lia. }
  change (shr_record_of_loc (Z.pos (4503599627370496 * m)) loc_Exact)
    with {| shr_m := Z.pos (4503599627370496 * m); shr_r := false; shr_s := false |}.
  rewrite Hs.
  change (round_nearest_even
            (shr_m {| shr_m := Z.pos m; shr_r := false; shr_s := false |})
            (loc_of_shr_record
               {| shr_m := Z.pos m; shr_r := false; shr_s := false |}))
    with (Z.pos m).
  change (Zdigits2 (Z.pos m)) with (Z.pos (digits2_pos m)).
  rewrite Hc, Z.sub_diag.
  change (shr_record_of_loc (Z.pos m) loc_Exact)
    with {| shr_m := Z.pos m; shr_r := false; shr_s := false |}.
  unfold shr. cbv beta iota. unfold shr_m.
  rewrite He. reflexivity.
Qed.

Lemma mul_1_r (x : float) : x * 1 = x.
Proof.
  apply Prim2SF_inj. rewrite mul_spec.
  change (Prim2SF 1) with (S754_finite false 4503599627370496 (-52)).
  apply SFmul_1_r, Prim2SF_valid.
Qed.

Lemma ltb_nan_l (x : float) : (np.nan <? x) = false.
Proof. rewrite ltb_spec. reflexivity. Qed.

Lemma ltb_nan_r (x : float) : (x <? np.nan) = false.
Proof.
  rewrite ltb_spec. change (Prim2SF np.nan) with S754_nan.
  unfold SFltb, SFcompare. destruct (Prim2SF x); reflexivity.
Qed.

Lemma leb_nan_l (x : float) : (np.nan <=? x) = false.
Proof. rewrite leb_spec. reflexivity. Qed.

Lemma leb_nan_r (x : float) : (x <=? np.nan) = false.
Proof.
  rewrite leb_spec. change (Prim2SF np.nan) with S754_nan.
  unfold SFleb, SFcompare. destruct (Prim2SF x); reflexivity.
Qed.

(** PrimFloat has one nan: a float that differs from itself is [np.nan]. *)
Lemma isnan_eq (x : float) : np.isnan x = true -> x = np.nan.
Proof.
  unfold np.isnan, is_nan. intros H. apply negb_true_iff in H.
  rewrite FloatAxioms.eqb_spec in H. apply Prim2SF_inj.
  change (Prim2SF np.nan) with S754_nan.
  destruct (Prim2SF x) as [s|s| |s m e]; try reflexivity; exfalso.
  - destruct s; discriminate.
  - destruct s; discriminate.
  - unfold SFeqb, SFcompare in H.
    destruct s; rewrite Z.compare_refl, Pos.compare_cont_refl in H; discriminate.
Qed.

Lemma isnan_nan : np.isnan np.nan = true.
Proof. reflexivity. Qed.

Lemma isnan_iff (x : float) : np.isnan x = true <-> x = np.nan.
Proof. split; [apply isnan_eq | intros ->; reflexivity]. Qed.

End Float64.

(** ** The continuum SNR gate *)

Section ContinuumGate.

Variables (hdr : header) (data : cube) (snr_cont : image).

Lemma nth_mask_set (mask : nat -> bool) (v : float) (a : list float) (i : nat) :
  (i < length a)%nat ->
  nth i (mask_set mask v a) np.nan = if mask i then v else nth i a np.nan.
Proof.
  intros Hi. unfold mask_set. rewrite !nth_lookup, list_lookup_imap.
  destruct (lookup_lt_is_Some_2 a i Hi) as [x ->]. reflexivity.
Qed.

Lemma length_mask_set (mask : nat -> bool) (v : float) (a : list float) :
  length (mask_set mask v a) = length a.
Proof. unfold mask_set. apply length_imap. Qed.

(** The gate of lines 198-201, as one condition on the spaxel's SNR. *)
Definition cont_masked (smin smax : pyval) (row i : nat) : bool :=
  (truthy smin && np.lt (snr_cont i row) (num_of smin))
  || (truthy smax && np.ge (snr_cont i row) (num_of smax)).

Lemma length_cont_good_spaxels smin smax row :
  length (cont_good_spaxels hdr snr_cont smin smax row) = NAXIS2 hdr.
Proof.
  unfold cont_good_spaxels.
  destruct (truthy smin), (truthy smax);
    rewrite ?length_mask_set, length_replicate; reflexivity.
Qed.

Lemma nth_cont_good_spaxels smin smax row i :
  (i < NAXIS2 hdr)%nat ->
  nth i (cont_good_spaxels hdr snr_cont smin smax row) np.nan
  = if cont_masked smin smax row i then np.nan else 1%float.
Proof.
  intros Hi. unfold cont_good_spaxels, cont_masked.
  assert (Hone : nth i (replicate (NAXIS2 hdr) 1%float) np.nan = 1%float).
  { rewrite nth_lookup, lookup_replicate_2; [reflexivity | exact Hi]. }
  destruct (truthy smin), (truthy smax); simpl;
    rewrite ?nth_mask_set, ?Hone
      by (rewrite ?length_mask_set, length_replicate; exact Hi);
    destruct (np.lt (snr_cont i row) (num_of smin)),
             (np.ge (snr_cont i row) (num_of smax)); reflexivity.
Qed.

Lemma length_cont_specs smin smax row :
  length (cont_specs hdr data snr_cont smin smax row) = NAXIS2 hdr.
Proof. unfold cont_specs. rewrite length_map, length_seq. reflexivity. Qed.

Lemma lookup_cont_specs smin smax row i :
  (i < NAXIS2 hdr)%nat ->
  cont_specs hdr data snr_cont smin smax row !! i
  = Some (scale (spaxel hdr data i row)
            (nth i (cont_good_spaxels hdr snr_cont smin smax row) np.nan)).
Proof.
  intros Hi. unfold cont_specs.
  rewrite list_lookup_fmap, lookup_seq_lt by exact Hi. reflexivity.
Qed.

Lemma scale_nan (v : list float) : scale v np.nan = replicate (length v) np.nan.
Proof.
  induction v as [|x v IH]; [reflexivity|].
  simpl. rewrite mul_nan_r. f_equal. exact IH.
Qed.

Lemma scale_one (v : list float) : scale v 1%float = v.
Proof.
  induction v as [|x v IH]; [reflexivity|].
  simpl. rewrite mul_1_r. f_equal. exact IH.
Qed.

Lemma length_spaxel (c : cube) i row : length (spaxel hdr c i row) = NAXIS3 hdr.
Proof. unfold spaxel. rewrite length_map, length_seq. reflexivity. Qed.

End ContinuumGate.

(** A small cube for the closed instances below: two rows, two spaxels a row,
    three samples. *)
Definition ex_hdr : header := {| NAXIS1 := 2; NAXIS2 := 2; NAXIS3 := 3 |}.

Definition ex_data : cube :=
  fun l y x => float_of_Z (Z.of_nat (1 + l + 10 * y + 100 * x)).

Definition ex_error : cube := fun _ _ _ => 0.5%float.

Definition ex_snr : image :=
  fun y _ => match y with O => 1%float | _ => 10%float end.

Definition ex_params : params :=
  {| target := "NGC";
     tmp_loc := "tmp";
     multiprocessing := MPProcs 4;
     lowess_snr_min := PyNum 3;
     lowess_snr_max := PyNone;
     ppxf_snr_min := PyNone;
     ppxf_snr_max := PyNone;
     elines_snr_min := PyNum 3;
     elines_snr_max := PyNone;
     which_cont_sub := [];
     nlines := 1 |}.

(** C9: in the continuum stage a spaxel whose SNR the thresholds exclude (below a
    set minimum, or at or above a set maximum) is handed to the fit as a spectrum
    of nan samples, of full length, and is not skipped: the inputs of a row are
    one entry per spaxel, the entry of spaxel [j] at position [j]. *)
Theorem cont_masked_input_all_nan
    (hdr : header) (data : cube) (snr_cont : image) (smin smax : pyval)
    (row i : nat) :
  (row < NAXIS1 hdr)%nat ->
  (i < NAXIS2 hdr)%nat ->
  (truthy smin = true /\ np.lt (snr_cont i row) (num_of smin) = true) \/
  (truthy smax = true /\ np.ge (snr_cont i row) (num_of smax) = true) ->
  exists specs,
    cont_row_inputs hdr data snr_cont smin smax (Z.of_nat row) = Ok specs /\
    length specs = NAXIS2 hdr /\
    (forall j, (j < NAXIS2 hdr)%nat ->
       specs !! j
       = Some (scale (spaxel hdr data j row)
                 (nth j (cont_good_spaxels hdr snr_cont smin smax row) np.nan))) /\
    specs !! i = Some (replicate (NAXIS3 hdr) np.nan).
Proof.
  intros Hrow Hi Hgate.
  exists (cont_specs hdr data snr_cont smin smax row).
  split_and!.
  - unfold cont_row_inputs, py_index.
    replace ((0 <=? Z.of_nat row) && (Z.of_nat row <? Z.of_nat (NAXIS1 hdr)))
      with true by (symmetry; apply andb_true_intro; split; lia).
    rewrite Nat2Z.id. reflexivity.
  - apply length_cont_specs.
  - intros j Hj. apply lookup_cont_specs, Hj.
  - rewrite lookup_cont_specs, nth_cont_good_spaxels by exact Hi.
    assert (cont_masked snr_cont smin smax row i = true) as ->.
    { unfold cont_masked. destruct Hgate as [[-> ->] | [-> ->]];
        [reflexivity | apply orb_true_r]. }
    rewrite scale_nan, length_spaxel. reflexivity.
Qed.

Lemma cont_masked_input_all_nan_witness :
  exists specs,
    cont_row_inputs ex_hdr ex_data ex_snr (PyNum 3) PyNone 1 = Ok specs /\
    length specs = 2%nat /\
    (forall j, (j < 2)%nat ->
       specs !! j
       = Some (scale (spaxel ex_hdr ex_data j 1)
                 (nth j (cont_good_spaxels ex_hdr ex_snr (PyNum 3) PyNone 1) np.nan))) /\
    specs !! 0%nat = Some (replicate 3 np.nan).
Proof.
  apply (cont_masked_input_all_nan ex_hdr ex_data ex_snr (PyNum 3) PyNone 1 0).
  - simpl. lia.
  - simpl. lia.
  - left. split; reflexivity.
Defined.

(** C10: the continuum gate masks a spaxel exactly when a minimum is set (true in
    Python) and its SNR is below it, or a maximum is set and its SNR is at or
    above it.  An unmasked spaxel's spectrum reaches the fit unmodified; a spaxel
    whose SNR is nan is never masked; a threshold of zero switches its bound off
    as [None] does. *)
Theorem cont_gate_iff
    (hdr : header) (data : cube) (snr_cont : image) (smin smax : pyval)
    (row i : nat) :
  (i < NAXIS2 hdr)%nat ->
  let good := nth i (cont_good_spaxels hdr snr_cont smin smax row) np.nan in
  let masked :=
    (truthy smin && np.lt (snr_cont i row) (num_of smin))
    || (truthy smax && np.ge (snr_cont i row) (num_of smax)) in
  np.isnan good = masked /\
  cont_specs hdr data snr_cont smin smax row !! i
  = Some (if masked then replicate (NAXIS3 hdr) np.nan else spaxel hdr data i row) /\
  (np.isnan (snr_cont i row) = true ->
   cont_specs hdr data snr_cont smin smax row !! i = Some (spaxel hdr data i row)) /\
  cont_good_spaxels hdr snr_cont (PyNum 0) smax row
  = cont_good_spaxels hdr snr_cont PyNone smax row /\
  cont_good_spaxels hdr snr_cont smin (PyNum 0) row
  = cont_good_spaxels hdr snr_cont smin PyNone row.
Proof.
  intros Hi good masked.
  assert (Hgood : good = if masked then np.nan else 1%float)
    by apply nth_cont_good_spaxels, Hi.
  assert (Hspec : cont_specs hdr data snr_cont smin smax row !! i
                  = Some (if masked then replicate (NAXIS3 hdr) np.nan
                          else spaxel hdr data i row)).
  { rewrite lookup_cont_specs by exact Hi. fold good. rewrite Hgood.
    destruct masked.
    - rewrite scale_nan, length_spaxel. reflexivity.
    - rewrite scale_one. reflexivity. }
  split_and!.
  - rewrite Hgood. destruct masked; reflexivity.
  - exact Hspec.
  - intros Hnan. rewrite Hspec.
    assert (masked = false) as ->; [|reflexivity].
    apply isnan_eq in Hnan. subst masked. rewrite Hnan.
    unfold np.lt, np.ge. rewrite ltb_nan_l, leb_nan_r, !andb_false_r. reflexivity.
  - reflexivity.
  - reflexivity.
Qed.

Lemma cont_gate_iff_witness :
  np.isnan (nth 1 (cont_good_spaxels ex_hdr ex_snr (PyNum 3) (PyNum 10) 0) np.nan)
  = true /\
  cont_specs ex_hdr ex_data ex_snr (PyNum 3) (PyNum 10) 0 !! 1%nat
  = Some (replicate 3 np.nan).
Proof.
  pose proof (cont_gate_iff ex_hdr ex_data ex_snr (PyNum 3) (PyNum 10) 0 1) as H.
  simpl in H. destruct H as (H1 & H2 & _); [lia|].
  split; [exact H1 | exact H2].
Defined.

(** ** Loops over rows *)

Section ForEach.

Context {S A : Type} `{EqDecision A}.
Variable body : A -> S -> result S.

(** A property every iteration preserves holds at the end. *)
Lemma for_each_preserve (Q : S -> Prop) (xs : list A) (s s' : S) :
  for_each body xs s = Ok s' ->
  Q s ->
  (forall x s1 s2, x ∈ xs -> body x s1 = Ok s2 -> Q s1 -> Q s2) ->
  Q s'.
Proof.
  revert s. induction xs as [|x xs IH]; intros s Hrun Hs Hstep.
  - injection Hrun as <-. exact Hs.
  - simpl in Hrun. destruct (body x s) as [s1| |] eqn:Hb; try discriminate.
    simpl in Hrun. apply (IH s1 Hrun).
    + apply (Hstep x s s1); [left | exact Hb | exact Hs].
    + intros y s2 s3 Hy. apply Hstep. right. exact Hy.
Qed.

(** What the iteration of [r] establishes, and the others preserve, holds at the
    end. *)
Lemma for_each_establish (Q : S -> Prop) (r : A) (xs : list A) (s s' : S) :
  for_each body xs s = Ok s' ->
  r ∈ xs ->
  (forall s1 s2, body r s1 = Ok s2 -> Q s2) ->
  (forall x s1 s2, x <> r -> body x s1 = Ok s2 -> Q s1 -> Q s2) ->
  Q s'.
Proof.
  intros Hrun Hin Hr Hother.
  assert (Hgen : forall xs s, for_each body xs s = Ok s' ->
                   (Q s \/ r ∈ xs) -> Q s').
  { clear xs s Hrun Hin. induction xs as [|x xs IH]; intros s Hrun Hor.
    - injection Hrun as <-. destruct Hor as [Hs | Hin]; [exact Hs|].
      by apply elem_of_nil in Hin.
    - simpl in Hrun. destruct (body x s) as [s1| |] eqn:Hb; try discriminate.
      simpl in Hrun. apply (IH s1 Hrun).
      destruct (decide (x = r)) as [-> | Hne].
      + left. apply (Hr s s1 Hb).
      + destruct Hor as [Hs | Hin].
        * left. apply (Hother x s s1 Hne Hb Hs).
        * right. apply elem_of_cons in Hin as [-> | Hin]; [done | exact Hin]. }
  apply (Hgen xs s Hrun). right. exact Hin.
Qed.

(** A loop whose iterations all return, returns. *)
Lemma for_each_ok (xs : list A) (s : S) :
  (forall x s1, x ∈ xs -> exists s2, body x s1 = Ok s2) ->
  exists s', for_each body xs s = Ok s'.
Proof.
  revert s. induction xs as [|x xs IH]; intros s Hstep; [eauto|].
  simpl. destruct (Hstep x s ltac:(left)) as [s1 ->]. simpl.
  apply IH. intros y s2 Hy. apply Hstep. right. exact Hy.
Qed.

End ForEach.

(** ** Assembly of the emission-line cubes *)

Section ElinesAssembly.

Variables (els_spec : list float -> list float)
          (obs_sigma : image -> image -> image * image * float -> image * image)
          (c : float).
Variables (hdr : header) (data : cube) (fn_list : gmap string string)
          (p : params) (fs : gmap string pickle).

Lemma nth_nan_like (v : list float) (k : nat) : nth k (np.nan_like v) np.nan = np.nan.
Proof.
  unfold np.nan_like. rewrite nth_lookup, list_lookup_fmap.
  destruct (v !! k); reflexivity.
Qed.

Lemma lookup_row_ps (ms : list mpfit) (y : nat) (item : mpfit) :
  ms !! y = Some item ->
  exists m0 : mpfit,
    head ms = Some m0 /\
    row_ps ms !! y
    = Some (if converged (mp_status item) then mp_params item
            else np.nan_like (mp_params m0)).
Proof.
  intros Hy. destruct ms as [|m0 ms']; [discriminate|].
  exists m0. split; [reflexivity|].
  unfold row_ps. rewrite list_lookup_fmap, Hy. simpl.
  destruct (converged (mp_status item)); reflexivity.
Qed.

Lemma lookup_row_errs (ms : list mpfit) (y : nat) (item : mpfit) :
  ms !! y = Some item ->
  exists p0 : list float,
    row_errs ms !! y
    = Some (if converged (mp_status item) then map np.square (mp_perror item)
            else np.nan_like p0).
Proof.
  intros Hy. unfold row_errs.
  destruct (lookup_row_ps ms y item Hy) as (m0 & _ & Hps).
  destruct (row_ps ms) as [|p0 ps']; [discriminate|].
  exists p0. rewrite list_lookup_fmap, Hy. simpl.
  destruct (converged (mp_status item)); reflexivity.
Qed.

Lemma lookup_row_stats (ms : list mpfit) (y : nat) (item : mpfit) :
  ms !! y = Some item ->
  row_stats ms !! y = Some (float_of_Z (mp_status item)).
Proof. intros Hy. unfold row_stats. rewrite list_lookup_fmap, Hy. reflexivity. Qed.

(** The content of column [r] of the three cubes after the row loop, for a
    spaxel whose fit is [item]. *)
Definition column_of (item : mpfit) (cubes : elines_cubes) (y r : nat) : Prop :=
  elines_fit_status cubes y r = float_of_Z (mp_status item) /\
  (converged (mp_status item) = false ->
   forall k, elines_params_cube cubes k y r = np.nan /\
             elines_params_err cubes k y r = np.nan) /\
  (converged (mp_status item) = true ->
   forall k, elines_params_cube cubes k y r = nth k (mp_params item) np.nan /\
             elines_params_err cubes k y r
             = nth k (map np.square (mp_perror item)) np.nan).

Lemma elines_assemble_row_at (prefix : string) (ms : list mpfit)
    (r : nat) (s1 s2 : elines_cubes) (y : nat) (item : mpfit) :
  fn_list !! "elines_pickle" = Some prefix ->
  fs !! row_file p prefix (Z.of_nat r) = Some (PklFits ms) ->
  ms !! y = Some item ->
  elines_assemble_row els_spec hdr fn_list p fs r s1 = Ok s2 ->
  column_of item s2 y r.
Proof.
  intros Hfn Hfile Hy Hrun. unfold elines_assemble_row in Hrun.
  rewrite Hfn, Hfile in Hrun.
  repeat match type of Hrun with
         | (if ?b then _ else _) = _ => destruct b; [discriminate|]
         end.
  injection Hrun as <-.
  destruct (lookup_row_ps ms y item Hy) as (m0 & _ & Hps).
  destruct (lookup_row_errs ms y item Hy) as (p0 & Herrs).
  pose proof (lookup_row_stats ms y item Hy) as Hst.
  unfold column_of, set_column, set_image_column. simpl.
  rewrite Nat.eqb_refl.
  rewrite !(nth_lookup _ y), Hps, Herrs, Hst. simpl.
  split_and!; [reflexivity | |]; intros -> k; simpl.
  - rewrite !nth_nan_like. split; reflexivity.
  - split; reflexivity.
Qed.

Lemma elines_assemble_row_other (x r : nat) (s1 s2 : elines_cubes) :
  x <> r ->
  elines_assemble_row els_spec hdr fn_list p fs x s1 = Ok s2 ->
  forall k y,
    elines_params_cube s2 k y r = elines_params_cube s1 k y r /\
    elines_params_err s2 k y r = elines_params_err s1 k y r /\
    elines_fit_status s2 y r = elines_fit_status s1 y r.
Proof.
  intros Hne Hrun k y. unfold elines_assemble_row in Hrun.
  destruct (fn_list !! "elines_pickle") as [prefix|]; [|discriminate].
  destruct (fs !! row_file p prefix (Z.of_nat x)) as [[conts|ms|aps]|];
    try discriminate.
  - repeat match type of Hrun with
           | (if ?b then _ else _) = _ => destruct b; [discriminate|]
           end.
    injection Hrun as <-.
    unfold set_column, set_image_column. simpl.
    assert ((r =? x)%nat = false) as -> by (apply Nat.eqb_neq; congruence).
    split_and!; reflexivity.
  - injection Hrun as <-. split_and!; reflexivity.
Qed.

Lemma elines_assemble_column (prefix : string) (ms : list mpfit)
    (cubes : elines_cubes) (y r : nat) (item : mpfit) :
  elines_assemble els_spec hdr data fn_list p fs = Ok cubes ->
  (r < NAXIS1 hdr)%nat ->
  fn_list !! "elines_pickle" = Some prefix ->
  fs !! row_file p prefix (Z.of_nat r) = Some (PklFits ms) ->
  ms !! y = Some item ->
  column_of item cubes y r.
Proof.
  intros Hrun Hr Hfn Hfile Hy. unfold elines_assemble in Hrun.
  apply (for_each_establish _ (fun s => column_of item s y r) r _ _ _ Hrun).
  - apply elem_of_seq. lia.
  - intros s1 s2. apply (elines_assemble_row_at prefix ms); assumption.
  - intros x s1 s2 Hne Hb (Hs & Hbad & Hgood).
    pose proof (elines_assemble_row_other x r s1 s2 Hne Hb) as Hsame.
    unfold column_of. split_and!.
    + destruct (Hsame 0%nat y) as (_ & _ & ->). exact Hs.
    + intros Hc k. destruct (Hsame k y) as (-> & -> & _). apply Hbad, Hc.
    + intros Hc k. destruct (Hsame k y) as (-> & -> & _). apply Hgood, Hc.
Qed.

End ElinesAssembly.

(** ** Derivation of the line fluxes *)

Section FluxDerivation.

Variables (obs_sigma : image -> image -> image * image * float -> image * image)
          (c : float).
Variables (P E : cube).

Local Open Scope float_scope.

(** The flux of line [k] and its entry of the error cube, from the cubes the row
    loop built. *)
Definition line_flux (k : nat) : image :=
  fun y x =>
    sqrt (2 * np.pi) * P (6 * k + 1)%nat y x
    * fst (sigma_obs_A obs_sigma c P E k) y x.

Definition line_flux_err (k : nat) : image :=
  fun y x =>
    2 * np.pi *
    (np.square (E (6 * k + 1)%nat y x) * fst (sigma_obs_A obs_sigma c P E k) y x
     + snd (sigma_obs_A obs_sigma c P E k) y x * np.square (P (6 * k + 1)%nat y x)).

Lemma sigma_obs_A_ext (P1 E1 P2 E2 : cube) (k : nat) :
  (forall j y x, (j <= 3)%nat -> P1 (6 * k + j)%nat y x = P2 (6 * k + j)%nat y x) ->
  (forall y x, E1 (6 * k + 2)%nat y x = E2 (6 * k + 2)%nat y x) ->
  sigma_obs_A obs_sigma c P1 E1 k = sigma_obs_A obs_sigma c P2 E2 k.
Proof.
  intros HP HE. unfold sigma_obs_A.
  assert (H0 : forall y x, P1 (6 * k)%nat y x = P2 (6 * k)%nat y x).
  { intros y x. specialize (HP 0%nat y x). rewrite Nat.add_0_r in HP. apply HP. lia. }
  assert (Ha : P1 (6 * k + 3)%nat = P2 (6 * k + 3)%nat).
  { extensionality y. extensionality x. apply HP. lia. }
  assert (Hb : E1 (6 * k + 2)%nat = E2 (6 * k + 2)%nat).
  { extensionality y. extensionality x. apply HE. }
  rewrite Ha, Hb. f_equal; [|do 2 f_equal].
  - extensionality y. extensionality x. rewrite H0, (HP 2%nat) by lia. reflexivity.
  - extensionality y. extensionality x. rewrite H0. reflexivity.
Qed.

(** After [n] lines: the first plane of each is its flux, every other plane is
    as the row loop left it. *)
Definition derived (n : nat) (PE : cube * cube) : Prop :=
  (forall k y x, (k < n)%nat ->
     fst PE (6 * k)%nat y x = line_flux k y x /\
     snd PE (6 * k)%nat y x = line_flux_err k y x) /\
  (forall l y x, (forall k, (k < n)%nat -> l <> (6 * k)%nat) ->
     fst PE l y x = P l y x /\ snd PE l y x = E l y x).

Lemma derive_fluxes_S (n : nat) (PE : cube * cube) :
  derive_fluxes obs_sigma c (S n) PE
  = derive_line obs_sigma c n (derive_fluxes obs_sigma c n PE).
Proof. unfold derive_fluxes. rewrite seq_S, fold_left_app. reflexivity. Qed.

Lemma derive_fluxes_derived (n : nat) :
  derived n (derive_fluxes obs_sigma c n (P, E)).
Proof.
  induction n as [|n IH].
  - split; [intros k y x Hk; lia | intros l y x _; split; reflexivity].
  - rewrite derive_fluxes_S.
    destruct (derive_fluxes obs_sigma c n (P, E)) as [Pn En].
    destruct IH as [IHflux IHrest]. cbn [fst snd] in IHflux, IHrest.
    assert (Hsig : sigma_obs_A obs_sigma c Pn En n = sigma_obs_A obs_sigma c P E n).
    { apply sigma_obs_A_ext.
      - intros j y x Hj. apply IHrest. intros k Hk. lia.
      - intros y x. apply IHrest. intros k Hk. lia. }
    assert (Hamp : forall y x, Pn (6 * n + 1)%nat y x = P (6 * n + 1)%nat y x
                               /\ En (6 * n + 1)%nat y x = E (6 * n + 1)%nat y x).
    { intros y x. apply IHrest. intros k Hk. lia. }
    unfold derive_line. rewrite Hsig. split; cbn [fst snd].
    + intros k y x Hk. unfold set_plane.
      destruct (decide (k = n)) as [-> | Hne].
      * rewrite Nat.eqb_refl.
        assert ((6 * n + 1 =? 6 * n)%nat = false) as -> by (apply Nat.eqb_neq; lia).
        destruct (Hamp y x) as [-> ->]. split; reflexivity.
      * assert ((6 * k =? 6 * n)%nat = false) as -> by (apply Nat.eqb_neq; lia).
        apply IHflux. lia.
    + intros l y x Hl. unfold set_plane.
      assert ((l =? 6 * n)%nat = false) as ->.
      { apply Nat.eqb_neq. apply Hl. lia. }
      apply IHrest. intros k Hk. apply Hl. lia.
Qed.

End FluxDerivation.

(** ** The emission-line cubes: closed example *)

(** Row 0 of [ex_hdr] with one line: a converged fit of amplitude 10 whose
    amplitude error is 2, and a failed fit (status 5). *)
Definition ex_fits : list mpfit :=
  [ {| mp_params := [6563; 10; 0; 1; 0; 0]%float;
       mp_perror := [0; 2; 0; 0; 0; 0]%float;
       mp_status := 1 |};
    {| mp_params := [6563; 3; 0; 1; 0; 0]%float;
       mp_perror := [0; 0; 0; 0; 0; 0]%float;
       mp_status := 5 |} ].

Definition ex_fn_list : gmap string string :=
  {[ "elines_pickle" := "run_NGC_row_" ]}.

Definition ex_files : gmap string pickle :=
  {[ row_file ex_params "run_NGC_row_" 0 := PklFits ex_fits ]}.

Definition ex_els_spec : list float -> list float :=
  fun _ => [0; 0; 0]%float.

(** An observed width of 2 with no variance, whatever the planes. *)
Definition ex_obs_sigma : image -> image -> image * image * float -> image * image :=
  fun _ _ _ => (fun _ _ => 2%float, fun _ _ => 0%float).

Definition ex_c : float := 299792.5%float.

(** ** Properties of the emission-line cubes *)

Section ElinesClaims.

Variables (els_spec : list float -> list float)
          (obs_sigma : image -> image -> image * image * float -> image * image)
          (c : float).
Variables (hdr : header) (data : cube) (fn_list : gmap string string)
          (p : params) (fs : gmap string pickle).

Lemma run_make_elines_cube_inv (out : elines_cubes) :
  run_make_elines_cube els_spec obs_sigma c hdr data fn_list p fs = Ok out ->
  exists cubes,
    elines_assemble els_spec hdr data fn_list p fs = Ok cubes /\
    elines_fit_status out = elines_fit_status cubes /\
    derived obs_sigma c (elines_params_cube cubes) (elines_params_err cubes)
      (nlines p) (elines_params_cube out, elines_params_err out).
Proof.
  unfold run_make_elines_cube. intros Hrun.
  destruct (elines_assemble els_spec hdr data fn_list p fs) as [cubes| |];
    try discriminate.
  exists cubes. split; [reflexivity|].
  pose proof (derive_fluxes_derived obs_sigma c (elines_params_cube cubes)
                (elines_params_err cubes) (nlines p)) as Hd.
  simpl in Hrun.
  destruct (derive_fluxes obs_sigma c (nlines p) _) as [P' E'].
  injection Hrun as <-. split; [reflexivity | exact Hd].
Qed.

Lemma run_make_elines_cube_ok (cubes : elines_cubes) :
  elines_assemble els_spec hdr data fn_list p fs = Ok cubes ->
  exists out, run_make_elines_cube els_spec obs_sigma c hdr data fn_list p fs = Ok out.
Proof.
  intros Hasm. unfold run_make_elines_cube. rewrite Hasm. simpl.
  destruct (derive_fluxes obs_sigma c (nlines p) _) as [P' E']. eauto.
Qed.

(** The row loop succeeds when every row is either without pickle file or has
    the fits of its [NAXIS2] spaxels, each with [6 * nlines] parameters and
    errors and a model spectrum of [NAXIS3] samples. *)
Definition row_well_formed (ms : list mpfit) : Prop :=
  rectangular (NAXIS2 hdr) (6 * nlines p) (row_ps ms) = true /\
  rectangular (NAXIS2 hdr) (6 * nlines p) (row_errs ms) = true /\
  length ms = NAXIS2 hdr /\
  rectangular (NAXIS2 hdr) (NAXIS3 hdr) (map els_spec (row_ps ms)) = true.

Lemma elines_assemble_ok (prefix : string) :
  fn_list !! "elines_pickle" = Some prefix ->
  (forall r, (r < NAXIS1 hdr)%nat ->
     fs !! row_file p prefix (Z.of_nat r) = None \/
     exists ms, fs !! row_file p prefix (Z.of_nat r) = Some (PklFits ms) /\
                row_well_formed ms) ->
  exists cubes, elines_assemble els_spec hdr data fn_list p fs = Ok cubes.
Proof.
  intros Hfn Hrows. unfold elines_assemble.
  apply for_each_ok. intros r s1 Hr. apply elem_of_seq in Hr.
  unfold elines_assemble_row. rewrite Hfn.
  destruct (Hrows r ltac:(lia)) as [-> | (ms & -> & H1 & H2 & H3 & H4)];
    [eauto|].
  rewrite H1, H2, H4. unfold row_stats. rewrite length_map, H3, Nat.eqb_refl.
  simpl. eauto.
Qed.

End ElinesClaims.

Lemma ex_row_file_1 :
  ex_files !! row_file ex_params "run_NGC_row_" 1 = None.
Proof. reflexivity. Qed.

Lemma ex_elines_assemble_ok :
  exists cubes,
    elines_assemble ex_els_spec ex_hdr ex_data ex_fn_list ex_params ex_files
    = Ok cubes.
Proof.
  apply (elines_assemble_ok ex_els_spec ex_hdr ex_data ex_fn_list ex_params
           ex_files "run_NGC_row_"); [reflexivity|].
  intros [|[|r]] Hr; [right | left | simpl in Hr; lia].
  - exists ex_fits. split; [reflexivity|]. repeat split.
  - exact ex_row_file_1.
Qed.

Lemma ex_run_make_elines_cube_ok :
  exists out,
    run_make_elines_cube ex_els_spec ex_obs_sigma ex_c ex_hdr ex_data
      ex_fn_list ex_params ex_files = Ok out.
Proof.
  destruct ex_elines_assemble_ok as [cubes Hasm].
  apply (run_make_elines_cube_ok _ _ _ _ _ _ _ _ cubes Hasm).
Qed.

(** The first fit of [ex_fits] fills, in column 0, the slots of spaxel 0. *)
Lemma ex_assembled_amplitude (cubes : elines_cubes) :
  elines_assemble ex_els_spec ex_hdr ex_data ex_fn_list ex_params ex_files
  = Ok cubes ->
  elines_params_cube cubes 1%nat 0%nat 0%nat = 10%float /\
  elines_params_err cubes 1%nat 0%nat 0%nat = 4%float.
Proof.
  intros Hasm.
  destruct (elines_assemble_column ex_els_spec ex_hdr ex_data ex_fn_list
              ex_params ex_files "run_NGC_row_" ex_fits cubes 0 0
              {| mp_params := [6563; 10; 0; 1; 0; 0]%float;
                 mp_perror := [0; 2; 0; 0; 0; 0]%float;
                 mp_status := 1 |} Hasm) as (_ & _ & Hgood);
    [simpl; lia | reflexivity | reflexivity | reflexivity |].
  destruct (Hgood eq_refl 1%nat) as [-> ->]. split; reflexivity.
Qed.

Lemma multiple_of_six_dec (n k : nat) :
  (exists j, (j < n)%nat /\ k = (6 * j)%nat)
  \/ (forall j, (j < n)%nat -> k <> (6 * j)%nat).
Proof.
  destruct (Nat.eq_dec (k mod 6)%nat 0%nat) as [Hm | Hm];
    [destruct (le_lt_dec n (k / 6)%nat) as [Hd | Hd] |].
  - right. intros j Hj ->.
    rewrite (Nat.mul_comm 6 j), Nat.div_mul in Hd by lia. lia.
  - left. exists (k / 6)%nat. split; [exact Hd|].
    pose proof (Nat.div_mod k 6%nat ltac:(lia)). lia.
  - right. intros j Hj ->. apply Hm.
    rewrite (Nat.mul_comm 6 j). apply Nat.Div0.mod_mul.
Qed.

(** C3: in the row loop of the assembly a spaxel whose fit status is not 1, 2,
    3 or 4 gets nan (and so not zero) in every slot of the parameter cube and of
    the error cube, and its status goes to the status map; a converged spaxel
    gets its fitted parameters and the squares of their errors.  The cubes the
    function ends with keep the nan of a failed spaxel in every slot, the flux
    slots too, and the stored values of a converged spaxel in the slots the
    flux derivation does not overwrite. *)
Theorem failed_fit_slots_are_nan
    (els_spec : list float -> list float)
    (obs_sigma : image -> image -> image * image * float -> image * image)
    (c : float) (hdr : header) (data : cube) (fn_list : gmap string string)
    (p : params) (fs : gmap string pickle)
    (out : elines_cubes) (prefix : string) (ms : list mpfit)
    (r y : nat) (item : mpfit) :
  run_make_elines_cube els_spec obs_sigma c hdr data fn_list p fs = Ok out ->
  (r < NAXIS1 hdr)%nat ->
  fn_list !! "elines_pickle" = Some prefix ->
  fs !! row_file p prefix (Z.of_nat r) = Some (PklFits ms) ->
  ms !! y = Some item ->
  exists cubes,
    elines_assemble els_spec hdr data fn_list p fs = Ok cubes /\
    elines_fit_status cubes y r = float_of_Z (mp_status item) /\
    (converged (mp_status item) = false ->
     forall k, elines_params_cube cubes k y r = np.nan /\
               elines_params_err cubes k y r = np.nan) /\
    (converged (mp_status item) = true ->
     forall k, elines_params_cube cubes k y r = nth k (mp_params item) np.nan /\
               elines_params_err cubes k y r
               = nth k (map np.square (mp_perror item)) np.nan) /\
    elines_fit_status out y r = float_of_Z (mp_status item) /\
    (converged (mp_status item) = false ->
     forall k, elines_params_cube out k y r = np.nan /\
               elines_params_err out k y r = np.nan) /\
    (converged (mp_status item) = true ->
     forall k, (forall j, (j < nlines p)%nat -> k <> (6 * j)%nat) ->
       elines_params_cube out k y r = nth k (mp_params item) np.nan /\
       elines_params_err out k y r
       = nth k (map np.square (mp_perror item)) np.nan) /\
    (np.nan =? 0)%float = false.
Proof.
  intros Hrun Hr Hfn Hfile Hy.
  destruct (run_make_elines_cube_inv _ _ _ _ _ _ _ _ _ Hrun)
    as (cubes & Hasm & Hst & Hflux & Hrest).
  destruct (elines_assemble_column els_spec hdr data fn_list p fs prefix ms
              cubes y r item Hasm Hr Hfn Hfile Hy) as (Hs & Hbad & Hgood).
  cbn [fst snd] in Hflux, Hrest.
  exists cubes. split_and!; try assumption.
  - rewrite Hst. exact Hs.
  - intros Hc k.
    assert (Hnan : forall l, elines_params_cube cubes l y r = np.nan
                             /\ elines_params_err cubes l y r = np.nan)
      by (intros l; apply Hbad, Hc).
    destruct (multiple_of_six_dec (nlines p) k) as [(j & Hj & ->) | Hno].
    + destruct (Hflux j y r Hj) as [-> ->].
      unfold line_flux, line_flux_err.
      destruct (Hnan (6 * j + 1)%nat) as [-> ->].
      split.
      * rewrite mul_nan_r, mul_nan_l. reflexivity.
      * unfold np.square. rewrite !mul_nan_l, mul_nan_r, add_nan_l, mul_nan_r.
        reflexivity.
    + destruct (Hrest k y r Hno) as [-> ->]. apply Hnan.
  - intros Hc k Hk. destruct (Hrest k y r Hk) as [-> ->]. apply Hgood, Hc.
  - reflexivity.
Qed.

Lemma failed_fit_slots_are_nan_witness :
  exists out,
    run_make_elines_cube ex_els_spec ex_obs_sigma ex_c ex_hdr ex_data
      ex_fn_list ex_params ex_files = Ok out /\
    elines_fit_status out 1%nat 0%nat = 5%float /\
    forall k, elines_params_cube out k 1%nat 0%nat = np.nan /\
              elines_params_err out k 1%nat 0%nat = np.nan.
Proof.
  destruct ex_run_make_elines_cube_ok as [out Hrun].
  exists out. split; [exact Hrun|].
  destruct (failed_fit_slots_are_nan ex_els_spec ex_obs_sigma ex_c ex_hdr ex_data
              ex_fn_list ex_params ex_files out "run_NGC_row_" ex_fits 0 1
              {| mp_params := [6563; 3; 0; 1; 0; 0]%float;
                 mp_perror := [0; 0; 0; 0; 0; 0]%float;
                 mp_status := 5 |} Hrun)
    as (cubes & _ & _ & _ & _ & Hs & Hbad & _).
  - simpl. lia.
  - reflexivity.
  - reflexivity.
  - reflexivity.
  - split; [exact Hs | apply Hbad; reflexivity].
Defined.

(** C4: after the derivation the first slot of every line [k] holds
    [sqrt(2 pi) * amplitude * sigma_observed], at every spaxel, where the
    amplitude is slot [6k+1] and [sigma_observed] is what [obs_sigma] returns
    for the line; the five other slots of the line are as the row loop stored
    them.  With amplitude 10 and width 2 the flux is 50.13256549262
    (0x1.910f7e7f3b0c6p+5), between 50.132 and 50.133. *)
Theorem flux_slot_derivation
    (els_spec : list float -> list float)
    (obs_sigma : image -> image -> image * image * float -> image * image)
    (c : float) (hdr : header) (data : cube) (fn_list : gmap string string)
    (p : params) (fs : gmap string pickle) (cubes : elines_cubes) (k : nat) :
  elines_assemble els_spec hdr data fn_list p fs = Ok cubes ->
  (k < nlines p)%nat ->
  exists out,
    run_make_elines_cube els_spec obs_sigma c hdr data fn_list p fs = Ok out /\
    let sigma_observed :=
      fst (sigma_obs_A obs_sigma c (elines_params_cube cubes)
             (elines_params_err cubes) k) in
    let amplitude := elines_params_cube cubes (6 * k + 1)%nat in
    (forall y x,
       elines_params_cube out (6 * k)%nat y x
       = (sqrt (2 * np.pi) * amplitude y x * sigma_observed y x)%float) /\
    (forall j y x, (1 <= j <= 5)%nat ->
       elines_params_cube out (6 * k + j)%nat y x
       = elines_params_cube cubes (6 * k + j)%nat y x) /\
    (forall y x, amplitude y x = 10%float -> sigma_observed y x = 2%float ->
       elines_params_cube out (6 * k)%nat y x = 0x1.910f7e7f3b0c6p+5%float /\
       (50132 <? elines_params_cube out (6 * k)%nat y x * 1000)%float = true /\
       (elines_params_cube out (6 * k)%nat y x * 1000 <? 50133)%float = true).
Proof.
  intros Hasm Hk.
  destruct (run_make_elines_cube_ok els_spec obs_sigma c hdr data fn_list p fs
              cubes Hasm) as [out Hrun].
  exists out. split; [exact Hrun|].
  destruct (run_make_elines_cube_inv _ _ _ _ _ _ _ _ _ Hrun)
    as (cubes' & Hasm' & _ & Hflux & Hrest).
  rewrite Hasm in Hasm'. injection Hasm' as <-.
  cbn [fst snd] in Hflux, Hrest. cbv zeta.
  assert (Hslot : forall y x,
            elines_params_cube out (6 * k)%nat y x
            = (sqrt (2 * np.pi) * elines_params_cube cubes (6 * k + 1)%nat y x
               * fst (sigma_obs_A obs_sigma c (elines_params_cube cubes)
                        (elines_params_err cubes) k) y x)%float).
  { intros y x. destruct (Hflux k y x Hk) as [-> _]. reflexivity. }
  split_and!.
  - exact Hslot.
  - intros j y x Hj. apply Hrest. intros k' _. lia.
  - intros y x Ha Hs. rewrite Hslot, Ha, Hs. split_and!; reflexivity.
Qed.

Lemma flux_slot_derivation_witness :
  exists out,
    run_make_elines_cube ex_els_spec ex_obs_sigma ex_c ex_hdr ex_data
      ex_fn_list ex_params ex_files = Ok out /\
    elines_params_cube out 0%nat 0%nat 0%nat = 0x1.910f7e7f3b0c6p+5%float /\
    elines_params_cube out 1%nat 0%nat 0%nat = 10%float.
Proof.
  destruct ex_elines_assemble_ok as [cubes Hasm].
  destruct (flux_slot_derivation ex_els_spec ex_obs_sigma ex_c ex_hdr ex_data
              ex_fn_list ex_params ex_files cubes 0 Hasm)
    as (out & Hrun & Hslot & Hkeep & Hten).
  - simpl. lia.
  - exists out. split; [exact Hrun|].
    destruct (ex_assembled_amplitude cubes Hasm) as [Hamp _].
    split.
    + apply (Hten 0%nat 0%nat); [exact Hamp | reflexivity].
    + rewrite <- Hamp. apply (Hkeep 1%nat 0%nat 0%nat). lia.
Defined.

(** C5, what the code computes: the entry of the derived flux in the error cube
    is [2 pi] times the sum of the stored amplitude variance, squared once
    more, times the width, and of the width's variance times the squared
    amplitude. *)
Lemma flux_err_slot_derivation
    (els_spec : list float -> list float)
    (obs_sigma : image -> image -> image * image * float -> image * image)
    (c : float) (hdr : header) (data : cube) (fn_list : gmap string string)
    (p : params) (fs : gmap string pickle) (cubes out : elines_cubes)
    (k y x : nat) :
  elines_assemble els_spec hdr data fn_list p fs = Ok cubes ->
  run_make_elines_cube els_spec obs_sigma c hdr data fn_list p fs = Ok out ->
  (k < nlines p)%nat ->
  let sig := sigma_obs_A obs_sigma c (elines_params_cube cubes)
               (elines_params_err cubes) k in
  let amplitude := elines_params_cube cubes (6 * k + 1)%nat y x in
  let amplitude_variance := elines_params_err cubes (6 * k + 1)%nat y x in
  elines_params_err out (6 * k)%nat y x
  = (2 * np.pi *
     (amplitude_variance * amplitude_variance * fst sig y x
      + snd sig y x * (amplitude * amplitude)))%float.
Proof.
  intros Hasm Hrun Hk.
  destruct (run_make_elines_cube_inv _ _ _ _ _ _ _ _ _ Hrun)
    as (cubes' & Hasm' & _ & Hflux & _).
  rewrite Hasm in Hasm'. injection Hasm' as <-.
  cbn [fst snd] in Hflux.
  destruct (Hflux k y x Hk) as [_ ->]. reflexivity.
Qed.

(** C5 at a concrete input: a converged fit with amplitude 10 and amplitude
    error 2 (variance 4), an observed width of 2 with variance 0.  The claim's
    value is [2 pi (4 * 2 + 0 * 100)]; the error cube holds
    [2 pi (16 * 2 + 0 * 100)]. *)
Lemma flux_variance_squares_the_variance :
  exists cubes out,
    elines_assemble ex_els_spec ex_hdr ex_data ex_fn_list ex_params ex_files
    = Ok cubes /\
    run_make_elines_cube ex_els_spec ex_obs_sigma ex_c ex_hdr ex_data
      ex_fn_list ex_params ex_files = Ok out /\
    elines_params_cube cubes 1%nat 0%nat 0%nat = 10%float /\
    elines_params_err cubes 1%nat 0%nat 0%nat = 4%float /\
    elines_params_err out 0%nat 0%nat 0%nat
    = (2 * np.pi * (16 * 2 + 0 * 100))%float /\
    elines_params_err out 0%nat 0%nat 0%nat
    <> (2 * np.pi * (4 * 2 + 0 * 100))%float.
Proof.
  destruct ex_elines_assemble_ok as [cubes Hasm].
  destruct ex_run_make_elines_cube_ok as [out Hrun].
  exists cubes, out.
  pose proof (flux_err_slot_derivation _ _ _ _ _ _ _ _ cubes out 0 0 0
                Hasm Hrun ltac:(simpl; lia)) as Herr.
  cbv zeta in Herr.
  destruct (ex_assembled_amplitude cubes Hasm) as [Ha Hv].
  change (6 * 0 + 1)%nat with 1%nat in Herr.
  change (6 * 0)%nat with 0%nat in Herr. rewrite Ha, Hv in Herr.
  split_and!; [exact Hasm | exact Hrun | exact Ha | exact Hv | |].
  - rewrite Herr. reflexivity.
  - rewrite Herr. intros Heq. vm_compute in Heq. discriminate Heq.
Qed.

(** ** Continuum subtraction of the emission-line stage *)

Section ContinuumSubtraction.

Variables (hdr : header) (snr_cont : image) (cont_lowess : option cube).

(** A bracket that names the LOWESS continuum subtracts it, sample by sample,
    from the spaxels whose continuum SNR lies in [llim, ulim), and from no
    other. *)
Lemma subtract_bracket_lowess (b : bracket) (data cont : cube) :
  source b = "lowess" ->
  cont_lowess = Some cont ->
  exists data',
    subtract_bracket hdr snr_cont cont_lowess b data = Ok data' /\
    forall l y x,
      data' l y x
      = if in_bracket snr_cont (float_of_Z (llim b))
             (bracket_ulim hdr snr_cont b) y x
        then (data l y x - cont l y x)%float
        else data l y x.
Proof.
  intros Hsrc Hcont. unfold subtract_bracket. rewrite Hsrc, Hcont. simpl.
  eexists. split; reflexivity.
Qed.

(** A bracket that names the PPXF continuum ends the stage: line 401 reads
    [cont_ppfx], a name that is never bound. *)
Lemma subtract_bracket_ppxf (b : bracket) (data : cube) :
  source b = "ppxf" ->
  subtract_bracket hdr snr_cont cont_lowess b data = Raise (NameError "cont_ppfx").
Proof. intros Hsrc. unfold subtract_bracket. rewrite Hsrc. reflexivity. Qed.

End ContinuumSubtraction.

(** C7 at a concrete input: with the table [{'0->max': 'ppxf'}] the
    emission-line stage raises NameError before any row is fitted and leaves
    the files as they were, whatever the cubes and the fit. *)
Lemma ppxf_bracket_raises_name_error
    (interrupted : Z -> bool) (els_mpfit : list float * list float -> mpfit)
    (cont_lowess : option cube) (fn_list : gmap string string) (w : world) :
  run_fit_elines interrupted els_mpfit ex_hdr ex_data ex_error ex_snr ex_snr
    cont_lowess fn_list
    {| target := "NGC"; tmp_loc := "tmp"; multiprocessing := MPOff;
       lowess_snr_min := PyNone; lowess_snr_max := PyNone;
       ppxf_snr_min := PyNone; ppxf_snr_max := PyNone;
       elines_snr_min := PyNone; elines_snr_max := PyNone;
       which_cont_sub := [ {| llim := 0; ulim := UMax; source := "ppxf" |} ];
       nlines := 1 |}
    "run" None None w
  = (Raise (NameError "cont_ppfx"), w).
Proof. reflexivity. Qed.

(** ** File names of the row pickles *)

Section FileNames.

Lemma append_nil_l (s : string) : "" +:+ s = s.
Proof. reflexivity. Qed.

Lemma append_cons (ch : ascii) (a s : string) :
  String ch a +:+ s = String ch (a +:+ s).
Proof. reflexivity. Qed.

Lemma length_append (a b : string) :
  String.length (a +:+ b) = (String.length a + String.length b)%nat.
Proof.
  induction a as [|ch a IH]; [reflexivity|].
  rewrite append_cons. simpl. rewrite IH. reflexivity.
Qed.

Lemma append_inj_r (a b1 b2 : string) : a +:+ b1 = a +:+ b2 -> b1 = b2.
Proof.
  induction a as [|ch a IH]; [trivial|].
  rewrite !append_cons. intros [= H]. apply IH, H.
Qed.

Lemma append_inj_l (a1 a2 b : string) : a1 +:+ b = a2 +:+ b -> a1 = a2.
Proof.
  intros H.
  assert (Hl : String.length a1 = String.length a2).
  { apply (f_equal String.length) in H. rewrite !length_append in H. lia. }
  revert a2 H Hl. induction a1 as [|ch a1 IH]; intros [|ch2 a2] H Hl;
    simpl in Hl; try lia; [reflexivity|].
  rewrite !append_cons in H. injection H as -> H.
  f_equal. apply IH; [exact H | lia].
Qed.

(** The value of a string of decimal digits. *)
Definition digits_value (s : string) : option Z :=
  option_map Z.of_uint (NilEmpty.uint_of_string s).

Lemma digits_value_zeros (n : nat) (s : string) :
  digits_value (zeros n s) = digits_value s.
Proof.
  induction n as [|n IH]; [reflexivity|].
  unfold digits_value in *. simpl.
  destruct (NilEmpty.uint_of_string (zeros n s)) as [u|]; simpl in *.
  - rewrite <- IH. reflexivity.
  - exact IH.
Qed.

Lemma py_str_nonneg (z : Z) :
  0 <= z ->
  exists d, py_str z = NilEmpty.string_of_uint d /\ d <> Decimal.Nil /\ Z.of_uint d = z.
Proof.
  intros Hz. unfold py_str.
  pose proof (DecimalZ.of_to z) as Hot.
  destruct z as [|q|q]; try lia.
  - exists (Decimal.D0 Decimal.Nil). split_and!; [reflexivity | discriminate | reflexivity].
  - change (Z.of_int (Z.to_int (Z.pos q))) with (Z.of_uint (Pos.to_uint q)) in Hot.
    change (Z.to_int (Z.pos q)) with (Decimal.Pos (Pos.to_uint q)).
    exists (Pos.to_uint q).
    assert (Hne : Pos.to_uint q <> Decimal.Nil).
    { intros E. rewrite E in Hot. discriminate Hot. }
    split_and!; [| exact Hne | exact Hot].
    unfold NilZero.string_of_int, NilZero.string_of_uint.
    destruct (Pos.to_uint q); [congruence | reflexivity ..].
Qed.

Definition is_abs (b : string) : bool :=
  match b with
  | String "/"%char _ => true
  | _ => false
  end.

Lemma string_of_uint_head (d : Decimal.uint) :
  d <> Decimal.Nil ->
  exists ch rest,
    NilEmpty.string_of_uint d = String ch rest /\
    Ascii.eqb ch "-"%char = false /\ Ascii.eqb ch "+"%char = false /\
    forall tail, is_abs (String ch tail) = false.
Proof.
  destruct d; try congruence; intros _; simpl;
    eexists _, _; (split_and!; [reflexivity | reflexivity | reflexivity | reflexivity]).
Qed.

Lemma zfill_digits (w : nat) (z : Z) :
  0 <= z ->
  digits_value (zfill w (py_str z)) = Some z /\
  forall tail, is_abs (zfill w (py_str z) +:+ tail) = false /\
               zfill w (py_str z) +:+ tail <> EmptyString.
Proof.
  intros Hz. destruct (py_str_nonneg z Hz) as (d & -> & Hd & Hv).
  destruct (string_of_uint_head d Hd) as (ch & rest & E & Hm & Hp & Habs).
  unfold zfill. rewrite E, Hm, Hp. cbn [orb]. rewrite <- E. split.
  - rewrite digits_value_zeros. unfold digits_value.
    rewrite NilEmpty.usu. simpl. rewrite Hv. reflexivity.
  - intros tail. rewrite E.
    destruct (w - String.length (String ch rest))%nat as [|n]; simpl zeros;
      rewrite append_cons; split; solve [apply Habs | reflexivity | discriminate].
Qed.

Lemma path_join_rel (a b : string) :
  is_abs b = false ->
  path_join a b
  = match a with
    | EmptyString => b
    | _ => if ends_with_slash a then a +:+ b else a +:+ "/" +:+ b
    end.
Proof.
  destruct b as [|ch r]; [reflexivity|].
  destruct ch as [[] [] [] [] [] [] [] []]; first [reflexivity | discriminate].
Qed.

Lemma path_join_abs (a b : string) : is_abs b = true -> path_join a b = b.
Proof.
  destruct b as [|ch r]; [discriminate|].
  destruct ch as [[] [] [] [] [] [] [] []]; first [reflexivity | discriminate].
Qed.

Lemma is_abs_append (prefix s : string) :
  is_abs s = false -> s <> EmptyString -> is_abs (prefix +:+ s) = is_abs prefix.
Proof.
  destruct prefix; [|reflexivity]. rewrite append_nil_l.
  intros ->. destruct s; [congruence | reflexivity].
Qed.

Lemma path_join_inj (a prefix s1 s2 : string) :
  is_abs s1 = false -> is_abs s2 = false ->
  s1 <> EmptyString -> s2 <> EmptyString ->
  path_join a (prefix +:+ s1) = path_join a (prefix +:+ s2) -> s1 = s2.
Proof.
  intros H1 H2 N1 N2.
  pose proof (is_abs_append prefix s1 H1 N1) as E1.
  pose proof (is_abs_append prefix s2 H2 N2) as E2.
  destruct (is_abs prefix) eqn:Hp.
  - rewrite !path_join_abs by assumption. apply append_inj_r.
  - rewrite !path_join_rel by assumption.
    destruct a; [apply append_inj_r|].
    destruct (ends_with_slash _); intros E.
    + apply append_inj_r in E. apply append_inj_r in E. exact E.
    + apply append_inj_r in E. rewrite !append_cons, !append_nil_l in E.
      injection E as E. apply append_inj_r in E. exact E.
Qed.

(** Two rows have two file names. *)
Lemma row_file_inj (p : params) (prefix : string) (r1 r2 : Z) :
  0 <= r1 -> 0 <= r2 ->
  row_file p prefix r1 = row_file p prefix r2 -> r1 = r2.
Proof.
  intros H1 H2 E. unfold row_file in E.
  destruct (zfill_digits 4 r1 H1) as [V1 A1].
  destruct (zfill_digits 4 r2 H2) as [V2 A2].
  apply path_join_inj in E;
    [| apply A1 | apply A2 | apply A1 | apply A2].
  apply append_inj_l in E. rewrite E in V1. congruence.
Qed.

End FileNames.

(** ** The row loop *)

(** The rows from [a] to [b], both included (none when [b < a]). *)
Definition rows_between (a b : Z) : list Z :=
  map (fun i => a + Z.of_nat i) (seq 0 (Z.to_nat (b - a + 1))).

(** What a row that is fitted without interruption adds to the world: the pool
    calls, when multiprocessing is on, and the row's pickle file. *)
Definition row_done (p : params) (fn : Z -> string) (art : Z -> pickle)
    (w : world) (row : Z) : world :=
  dump (if mp_on (multiprocessing p)
        then log (log w [PoolCreate (mp_processes (multiprocessing p))])
                 [PoolMap row; PoolClose; PoolJoin]
        else w)
       (fn row) (art row).

Definition rows_done (p : params) (fn : Z -> string) (art : Z -> pickle)
    (rows : list Z) (w : world) : world :=
  fold_left (row_done p fn art) rows w.

(** The world an interrupt in the dispatch of [row] leaves. *)
Definition row_interrupted (p : params) (w : world) (row : Z) : world :=
  log (log w [PoolCreate (mp_processes (multiprocessing p))])
      [PoolMap row; PoolClose; PoolJoin].

Section RowLoop.

Lemma linspace_rows_between (a b : Z) :
  a <= b + 1 -> linspace_rows a b = Ok (rows_between a b).
Proof.
  intros H. unfold linspace_rows.
  destruct (Z.ltb_spec (b - a + 1) 0) as [Hlt | _]; [lia | reflexivity].
Qed.

Lemma map_seq_from {A : Type} (f : nat -> A) (n0 m : nat) :
  map f (seq n0 m) = map (fun i => f (n0 + i)%nat) (seq 0 m).
Proof.
  revert f n0. induction m as [|m IH]; intros f n0; [reflexivity|].
  simpl. rewrite Nat.add_0_r. f_equal.
  rewrite (IH f (S n0)), (IH (fun i => f (n0 + i)%nat) 1%nat).
  apply map_ext. intros i. f_equal. lia.
Qed.

Lemma rows_between_split (a k b : Z) :
  a <= k -> k <= b + 1 ->
  rows_between a b = rows_between a (k - 1) ++ rows_between k b.
Proof.
  intros Hak Hkb. unfold rows_between.
  replace (Z.to_nat (b - a + 1))
    with (Z.to_nat (k - 1 - a + 1) + Z.to_nat (b - k + 1))%nat by lia.
  rewrite seq_app, map_app. f_equal.
  rewrite Nat.add_0_l, map_seq_from.
  apply map_ext. intros i. lia.
Qed.

Lemma rows_between_cons (a b : Z) :
  a <= b -> rows_between a b = a :: rows_between (a + 1) b.
Proof.
  intros H. rewrite (rows_between_split a (a + 1) b) by lia.
  replace (a + 1 - 1) with a by lia.
  unfold rows_between at 1. replace (a - a + 1) with 1 by lia.
  simpl. rewrite Z.add_0_r. reflexivity.
Qed.

Lemma elem_of_rows_between (a b r : Z) :
  r ∈ rows_between a b <-> a <= r <= b.
Proof.
  unfold rows_between. rewrite list_elem_of_fmap. split.
  - intros (i & -> & Hi). apply elem_of_seq in Hi. lia.
  - intros H. exists (Z.to_nat (r - a)). split; [lia|].
    apply elem_of_seq. lia.
Qed.

Lemma for_rows_app {S : Type} (body : Z -> S -> result unit * S)
    (l1 l2 : list Z) (s : S) :
  for_rows body (l1 ++ l2) s
  = match for_rows body l1 s with
    | (Ok _, s') => for_rows body l2 s'
    | stop => stop
    end.
Proof.
  revert s. induction l1 as [|r l1 IH]; intros s; [reflexivity|].
  simpl. destruct (body r s) as [[[]| |] s']; [apply IH | reflexivity ..].
Qed.

Variables (p : params) (fn : Z -> string) (art : Z -> pickle).

Lemma rows_done_app (l1 l2 : list Z) (w : world) :
  rows_done p fn art (l1 ++ l2) w = rows_done p fn art l2 (rows_done p fn art l1 w).
Proof. apply fold_left_app. Qed.

Lemma files_row_done (w : world) (row : Z) :
  files (row_done p fn art w row) = <[fn row := art row]> (files w).
Proof. unfold row_done. destruct (mp_on _); reflexivity. Qed.

Hypothesis fn_inj : forall r1 r2, 0 <= r1 -> 0 <= r2 -> fn r1 = fn r2 -> r1 = r2.

(** A finished loop leaves the pickle of each of its rows, and no other file
    is touched. *)
Lemma files_rows_done (rows : list Z) (w : world) (r : Z) :
  (forall r', r' ∈ rows -> 0 <= r') -> 0 <= r ->
  files (rows_done p fn art rows w) !! fn r
  = if decide (r ∈ rows) then Some (art r) else files w !! fn r.
Proof.
  intros Hrows Hr. revert w.
  induction rows as [|r0 rows IH]; intros w.
  - simpl. destruct (decide (r ∈ [])) as [Hin|_]; [|reflexivity].
    by apply elem_of_nil in Hin.
  - unfold rows_done. simpl. fold (rows_done p fn art rows (row_done p fn art w r0)).
    rewrite IH by (intros r' Hr'; apply Hrows; right; exact Hr').
    destruct (decide (r ∈ rows)) as [Hin | Hnin].
    + rewrite decide_True by (right; exact Hin). reflexivity.
    + rewrite files_row_done.
      destruct (decide (r = r0)) as [-> | Hne].
      * rewrite decide_True by left. apply lookup_insert_eq.
      * rewrite decide_False
          by (intros Hin; apply elem_of_cons in Hin as [? | ?]; contradiction).
        apply lookup_insert_ne. intros E. apply Hne. symmetry.
        apply fn_inj; [apply Hrows; left | exact Hr | exact E].
Qed.

End RowLoop.

(** ** The two fitting stages, row by row *)

Section Dispatch.

Variables (interrupted : Z -> bool) (p : params).

Lemma py_index_in_range (n : nat) (r : Z) :
  0 <= r < Z.of_nat n -> py_index n r = Some (Z.to_nat r).
Proof.
  intros H. unfold py_index.
  destruct (Z.leb_spec 0 r); [|lia].
  destruct (Z.ltb_spec r (Z.of_nat n)); [reflexivity | lia].
Qed.

(** A row is fitted to the end when multiprocessing is off (an interrupt is
    then not caught: the model has none) or no interrupt arrives. *)
Definition uninterrupted (row : Z) : Prop :=
  mp_on (multiprocessing p) = false \/ interrupted row = false.

Lemma dispatch_ok {A B : Type} (f : A -> B) (msg : string) (row : Z)
    (inputs : list A) (w : world) :
  uninterrupted row ->
  dispatch interrupted p (Some f) msg row inputs w
  = (Ok (map f inputs),
     if mp_on (multiprocessing p)
     then log (log w [PoolCreate (mp_processes (multiprocessing p))])
              [PoolMap row; PoolClose; PoolJoin]
     else w).
Proof.
  unfold dispatch. intros [Hoff | Hno].
  - rewrite Hoff. reflexivity.
  - rewrite Hno. destruct (mp_on _); reflexivity.
Qed.

Lemma dispatch_interrupted {A B : Type} (f : A -> B) (msg : string) (row : Z)
    (inputs : list A) (w : world) :
  mp_on (multiprocessing p) = true ->
  interrupted row = true ->
  dispatch interrupted p (Some f) msg row inputs w
  = (SysExit (msg +:+ py_str row), row_interrupted p w row).
Proof. unfold dispatch. intros -> ->. reflexivity. Qed.

End Dispatch.

Section ContinuumRows.

Variables (interrupted : Z -> bool) (lowess_fit : list float -> list float).
Variables (hdr : header) (data : cube) (snr_cont : image).
Variables (p : params) (suffix : string).

(** The pickle of a row of the LOWESS continuum, and its file name. *)
Definition cont_artifact (row : Z) : pickle :=
  PklConts (map lowess_fit
              (cont_specs hdr data snr_cont (snr_min p lowess) (snr_max p lowess)
                 (Z.to_nat row))).

Definition cont_fn (row : Z) : string :=
  row_file p (cont_prefix p suffix lowess) row.

Lemma cont_fit_row_ok (row : Z) (w : world) :
  0 <= row < Z.of_nat (NAXIS1 hdr) ->
  uninterrupted interrupted p row ->
  cont_fit_row interrupted lowess_fit hdr data snr_cont p suffix lowess row w
  = (Ok tt, row_done p cont_fn cont_artifact w row).
Proof.
  intros Hrow Hun. unfold cont_fit_row, cont_row_inputs.
  rewrite py_index_in_range by exact Hrow.
  unfold cont_fit_func. rewrite dispatch_ok by exact Hun. reflexivity.
Qed.

Lemma cont_fit_row_interrupted (row : Z) (w : world) :
  0 <= row < Z.of_nat (NAXIS1 hdr) ->
  mp_on (multiprocessing p) = true ->
  interrupted row = true ->
  cont_fit_row interrupted lowess_fit hdr data snr_cont p suffix lowess row w
  = (SysExit (cont_exit_msg +:+ py_str row), row_interrupted p w row).
Proof.
  intros Hrow Hmp Hint. unfold cont_fit_row, cont_row_inputs.
  rewrite py_index_in_range by exact Hrow.
  unfold cont_fit_func. rewrite dispatch_interrupted by assumption. reflexivity.
Qed.

Lemma cont_rows_ok (rows : list Z) (w : world) :
  (forall r, r ∈ rows ->
     0 <= r < Z.of_nat (NAXIS1 hdr) /\ uninterrupted interrupted p r) ->
  for_rows (cont_fit_row interrupted lowess_fit hdr data snr_cont p suffix lowess)
    rows w
  = (Ok tt, rows_done p cont_fn cont_artifact rows w).
Proof.
  revert w. induction rows as [|r rows IH]; intros w Hrows; [reflexivity|].
  simpl. destruct (Hrows r ltac:(left)) as [Hr Hun].
  rewrite cont_fit_row_ok by assumption.
  apply IH. intros r' Hr'. apply Hrows. right. exact Hr'.
Qed.

(** The rows a call covers: [start_row] and [end_row] default to the first and
    the last row. *)
Definition first_row (start_row : option Z) : Z := default 0 start_row.
Definition last_row (end_row : option Z) : Z :=
  default (Z.of_nat (NAXIS1 hdr) - 1) end_row.

Lemma run_fit_continuum_ok (fn_list : gmap string string)
    (start_row end_row : option Z) (w : world) :
  0 <= first_row start_row ->
  last_row end_row < Z.of_nat (NAXIS1 hdr) ->
  first_row start_row <= last_row end_row + 1 ->
  (forall r, first_row start_row <= r <= last_row end_row ->
     uninterrupted interrupted p r) ->
  run_fit_continuum interrupted lowess_fit hdr data snr_cont fn_list p suffix
    start_row end_row lowess w
  = (Ok (<["lowess_pickle" := cont_prefix p suffix lowess]> fn_list),
     rows_done p cont_fn cont_artifact
       (rows_between (first_row start_row) (last_row end_row)) w).
Proof.
  intros H0 Hn Hle Hun. unfold run_fit_continuum.
  fold (first_row start_row). fold (last_row end_row).
  rewrite linspace_rows_between by exact Hle.
  rewrite cont_rows_ok; [reflexivity|].
  intros r Hr. apply elem_of_rows_between in Hr. split; [lia | apply Hun, Hr].
Qed.

Lemma run_fit_continuum_interrupted (fn_list : gmap string string)
    (start_row end_row : option Z) (r : Z) (w : world) :
  0 <= first_row start_row ->
  last_row end_row < Z.of_nat (NAXIS1 hdr) ->
  first_row start_row <= r <= last_row end_row ->
  mp_on (multiprocessing p) = true ->
  interrupted r = true ->
  (forall r', first_row start_row <= r' < r -> interrupted r' = false) ->
  run_fit_continuum interrupted lowess_fit hdr data snr_cont fn_list p suffix
    start_row end_row lowess w
  = (SysExit (cont_exit_msg +:+ py_str r),
     row_interrupted p
       (rows_done p cont_fn cont_artifact
          (rows_between (first_row start_row) (r - 1)) w) r).
Proof.
  intros H0 Hn Hr Hmp Hint Hclean. unfold run_fit_continuum.
  fold (first_row start_row). fold (last_row end_row).
  rewrite linspace_rows_between by lia.
  rewrite (rows_between_split _ r) by lia.
  rewrite for_rows_app, cont_rows_ok.
  - rewrite (rows_between_cons r) by lia. simpl.
    rewrite cont_fit_row_interrupted by (first [lia | assumption]).
    reflexivity.
  - intros r' Hr'. apply elem_of_rows_between in Hr'.
    split; [lia | right; apply Hclean; lia].
Qed.

End ContinuumRows.

(** ** Assembly of the continuum cube *)

Section ContinuumAssembly.

Variables (hdr : header) (fn_list : gmap string string) (p : params)
          (m : method) (fs : gmap string pickle).

Lemma cont_assemble_row_other (x r : nat) (c1 c2 : cube) :
  x <> r ->
  cont_assemble_row hdr fn_list p m fs x c1 = Ok c2 ->
  forall l y, c2 l y r = c1 l y r.
Proof.
  intros Hne Hrun l y. unfold cont_assemble_row in Hrun.
  destruct (fn_list !! (method_name m +:+ "_pickle")) as [prefix|]; [|discriminate].
  destruct (fs !! row_file p prefix (Z.of_nat x)) as [[conts|ms|aps]|];
    try discriminate.
  - destruct (rectangular _ _ conts); [|discriminate].
    injection Hrun as <-. unfold set_column.
    assert ((r =? x)%nat = false) as -> by (apply Nat.eqb_neq; congruence).
    reflexivity.
  - injection Hrun as <-. reflexivity.
Qed.

(** A row without pickle file keeps the nan the cube was created with. *)
Lemma cont_cube_missing_row (prefix : string) (r : nat) (cb : cube) :
  run_make_continuum_cube hdr fn_list p m fs = Ok cb ->
  fn_list !! (method_name m +:+ "_pickle") = Some prefix ->
  fs !! row_file p prefix (Z.of_nat r) = None ->
  forall l y, cb l y r = np.nan.
Proof.
  intros Hrun Hfn Hnone l y. unfold run_make_continuum_cube in Hrun.
  apply (for_each_preserve _ (fun s => s l y r = np.nan) _ _ _ Hrun).
  - reflexivity.
  - intros x s1 s2 _ Hb Hs1.
    destruct (decide (x = r)) as [-> | Hne].
    + unfold cont_assemble_row in Hb. rewrite Hfn, Hnone in Hb.
      injection Hb as <-. exact Hs1.
    + rewrite (cont_assemble_row_other x r s1 s2 Hne Hb). exact Hs1.
Qed.

(** A row with a pickle of the shape of a slab fills its column. *)
Lemma cont_cube_row (prefix : string) (conts : list (list float)) (r : nat)
    (cb : cube) :
  run_make_continuum_cube hdr fn_list p m fs = Ok cb ->
  (r < NAXIS1 hdr)%nat ->
  fn_list !! (method_name m +:+ "_pickle") = Some prefix ->
  fs !! row_file p prefix (Z.of_nat r) = Some (PklConts conts) ->
  forall l y, cb l y r = nth l (nth y conts []) np.nan.
Proof.
  intros Hrun Hr Hfn Hfile l y. unfold run_make_continuum_cube in Hrun.
  apply (for_each_establish _
           (fun s => s l y r = nth l (nth y conts []) np.nan) r _ _ _ Hrun).
  - apply elem_of_seq. lia.
  - intros s1 s2 Hb. unfold cont_assemble_row in Hb. rewrite Hfn, Hfile in Hb.
    destruct (rectangular _ _ conts); [|discriminate].
    injection Hb as <-. unfold set_column. rewrite Nat.eqb_refl. reflexivity.
  - intros x s1 s2 Hne Hb Hs1.
    rewrite (cont_assemble_row_other x r s1 s2 Hne Hb). exact Hs1.
Qed.

Lemma run_make_continuum_cube_ok (prefix : string) :
  fn_list !! (method_name m +:+ "_pickle") = Some prefix ->
  (forall r, (r < NAXIS1 hdr)%nat ->
     exists conts,
       fs !! row_file p prefix (Z.of_nat r) = Some (PklConts conts) /\
       rectangular (NAXIS2 hdr) (NAXIS3 hdr) conts = true) ->
  exists cb, run_make_continuum_cube hdr fn_list p m fs = Ok cb.
Proof.
  intros Hfn Hrows. unfold run_make_continuum_cube.
  apply for_each_ok. intros r s1 Hr. apply elem_of_seq in Hr.
  destruct (Hrows r ltac:(lia)) as (conts & Hfile & Hrect).
  unfold cont_assemble_row. rewrite Hfn, Hfile, Hrect. eauto.
Qed.

End ContinuumAssembly.

Section ContinuumArtifacts.

Variables (lowess_fit : list float -> list float).
Variables (hdr : header) (data : cube) (snr_cont : image).
Variables (p : params) (suffix : string).

Hypothesis lowess_fit_length :
  forall s, length s = NAXIS3 hdr -> length (lowess_fit s) = NAXIS3 hdr.

Lemma cont_artifact_rectangular (smin smax : pyval) (row : nat) :
  rectangular (NAXIS2 hdr) (NAXIS3 hdr)
    (map lowess_fit (cont_specs hdr data snr_cont smin smax row)) = true.
Proof.
  unfold rectangular. apply andb_true_intro. split.
  - apply Nat.eqb_eq. rewrite length_map. apply length_cont_specs.
  - apply forallb_forall. intros v Hv. apply Nat.eqb_eq.
    apply in_map_iff in Hv as (s & <- & Hs). apply lowess_fit_length.
    unfold cont_specs in Hs. apply in_map_iff in Hs as (i & <- & _).
    unfold scale. rewrite length_map. apply length_spaxel.
Qed.

(** The files a run over the rows [a..b] leaves hold the continuum of each of
    these rows. *)
Lemma files_cont_rows (a b r : Z) (w : world) :
  0 <= a -> a <= r <= b ->
  files (rows_done p (cont_fn p suffix)
           (cont_artifact lowess_fit hdr data snr_cont p)
           (rows_between a b) w) !! cont_fn p suffix r
  = Some (cont_artifact lowess_fit hdr data snr_cont p r).
Proof.
  intros Ha Hr. rewrite files_rows_done.
  - rewrite decide_True by (apply elem_of_rows_between; exact Hr). reflexivity.
  - intros r1 r2. apply row_file_inj.
  - intros r' Hr'. apply elem_of_rows_between in Hr'. lia.
  - lia.
Qed.

End ContinuumArtifacts.

Definition empty_world : world := {| files := ∅; calls := [] |}.

(** C2: for every [k] in [0, nrows), a run of the continuum stage over the rows
    [0, k) followed by a run with [start_row = k] leaves the files of a single
    run over all the rows, so that the cubes assembled from them are the same
    cube, whose column [r] is the fitted continuum of row [r]; and a row
    without pickle file is skipped by the assembly, its spaxels staying nan. *)
Theorem resume_equivalence
    (interrupted : Z -> bool) (lowess_fit : list float -> list float)
    (hdr : header) (data : cube) (snr_cont : image)
    (fn_list : gmap string string) (p : params) (suffix : string)
    (w0 : world) (k : Z) :
  (forall s, length s = NAXIS3 hdr -> length (lowess_fit s) = NAXIS3 hdr) ->
  (forall r, uninterrupted interrupted p r) ->
  0 <= k < Z.of_nat (NAXIS1 hdr) ->
  (exists fl1 w1 fl2 w2 fl w cb,
     run_fit_continuum interrupted lowess_fit hdr data snr_cont fn_list p suffix
       (Some 0) (Some (k - 1)) lowess w0 = (Ok fl1, w1) /\
     run_fit_continuum interrupted lowess_fit hdr data snr_cont fl1 p suffix
       (Some k) None lowess w1 = (Ok fl2, w2) /\
     run_fit_continuum interrupted lowess_fit hdr data snr_cont fn_list p suffix
       None None lowess w0 = (Ok fl, w) /\
     files w2 = files w /\
     run_make_continuum_cube hdr fl2 p lowess (files w2) = Ok cb /\
     run_make_continuum_cube hdr fl p lowess (files w) = Ok cb /\
     forall l y r, (r < NAXIS1 hdr)%nat ->
       cb l y r
       = nth l (nth y (map lowess_fit
                         (cont_specs hdr data snr_cont (snr_min p lowess)
                            (snr_max p lowess) r)) []) np.nan) /\
  (forall fl' fs' cb' prefix r,
     run_make_continuum_cube hdr fl' p lowess fs' = Ok cb' ->
     fl' !! "lowess_pickle" = Some prefix ->
     fs' !! row_file p prefix (Z.of_nat r) = None ->
     forall l y, cb' l y r = np.nan).
Proof.
  intros Hlen Hun Hk. split.
  - set (fn := cont_fn p suffix).
    set (art := cont_artifact lowess_fit hdr data snr_cont p).
    set (fl := <["lowess_pickle" := cont_prefix p suffix lowess]> fn_list).
    set (w1 := rows_done p fn art (rows_between 0 (k - 1)) w0).
    set (w := rows_done p fn art (rows_between 0 (Z.of_nat (NAXIS1 hdr) - 1)) w0).
    assert (Hw : rows_done p fn art (rows_between k (Z.of_nat (NAXIS1 hdr) - 1)) w1
                 = w).
    { subst w w1. rewrite (rows_between_split 0 k (Z.of_nat (NAXIS1 hdr) - 1)) by lia.
      rewrite rows_done_app. reflexivity. }
    assert (Hcube : exists cb, run_make_continuum_cube hdr fl p lowess (files w) = Ok cb).
    { apply (run_make_continuum_cube_ok hdr fl p lowess (files w)
               (cont_prefix p suffix lowess)).
      - apply lookup_insert_eq.
      - intros r Hr. eexists. split.
        + apply (files_cont_rows lowess_fit hdr data snr_cont p suffix); lia.
        + apply cont_artifact_rectangular, Hlen. }
    destruct Hcube as [cb Hcb].
    exists fl, w1, fl, w, fl, w, cb. split_and!.
    + rewrite run_fit_continuum_ok;
        [reflexivity | unfold first_row, last_row; simpl; try lia ..].
      intros r _. apply Hun.
    + rewrite run_fit_continuum_ok;
        [| unfold first_row, last_row; simpl; try lia ..].
      * unfold first_row, last_row. simpl. fold fn art. rewrite Hw.
        subst fl. rewrite insert_insert_eq. reflexivity.
      * intros r _. apply Hun.
    + rewrite run_fit_continuum_ok;
        [reflexivity | unfold first_row, last_row; simpl; try lia ..].
      intros r _. apply Hun.
    + reflexivity.
    + exact Hcb.
    + exact Hcb.
    + intros l y r Hr.
      rewrite (cont_cube_row hdr fl p lowess (files w)
                 (cont_prefix p suffix lowess)
                 (map lowess_fit
                    (cont_specs hdr data snr_cont (snr_min p lowess)
                       (snr_max p lowess) (Z.to_nat (Z.of_nat r))))
                 r cb Hcb Hr).
      * rewrite Nat2Z.id. reflexivity.
      * apply lookup_insert_eq.
      * apply (files_cont_rows lowess_fit hdr data snr_cont p suffix); lia.
  - intros fl' fs' cb' prefix r Hrun Hfn Hnone.
    apply (cont_cube_missing_row hdr fl' p lowess fs' prefix r cb' Hrun Hfn Hnone).
Qed.

Lemma resume_equivalence_witness :
  exists fl1 w1 fl2 w2 fl w cb,
    run_fit_continuum (fun _ => false) (fun s => s) ex_hdr ex_data ex_snr ∅
      ex_params "run" (Some 0) (Some (1 - 1)) lowess empty_world = (Ok fl1, w1) /\
    run_fit_continuum (fun _ => false) (fun s => s) ex_hdr ex_data ex_snr fl1
      ex_params "run" (Some 1) None lowess w1 = (Ok fl2, w2) /\
    run_fit_continuum (fun _ => false) (fun s => s) ex_hdr ex_data ex_snr ∅
      ex_params "run" None None lowess empty_world = (Ok fl, w) /\
    files w2 = files w /\
    run_make_continuum_cube ex_hdr fl2 ex_params lowess (files w2) = Ok cb /\
    run_make_continuum_cube ex_hdr fl ex_params lowess (files w) = Ok cb /\
    forall l y r, (r < 2)%nat ->
      cb l y r
      = nth l (nth y (map (fun s => s)
                        (cont_specs ex_hdr ex_data ex_snr (PyNum 3) PyNone r)) [])
            np.nan.
Proof.
  apply (resume_equivalence (fun _ => false) (fun s => s) ex_hdr ex_data ex_snr ∅
           ex_params "run" empty_world 1).
  - intros s Hs. exact Hs.
  - intros r. right. reflexivity.
  - simpl. lia.
Defined.

Section ElinesRows.

Variables (interrupted : Z -> bool) (els_mpfit : list float * list float -> mpfit).
Variables (hdr : header) (data error : cube) (snr_elines : image).
Variables (p : params) (suffix : string).

(** The pickle of a row of line fits, and its file name; [data] is the cube
    after the continuum subtraction. *)
Definition elines_artifact (row : Z) : pickle :=
  PklFits (map els_mpfit
             (elines_specerrs hdr data error snr_elines (elines_snr_min p)
                (elines_snr_max p) (Z.to_nat row))).

Definition elines_fn (row : Z) : string :=
  row_file p (elines_prefix p suffix) row.

(** [fn_list] after the loop: the prefix is recorded once a row is done. *)
Definition elines_fn_list_after (rows : list Z) (fn_list : gmap string string)
  : gmap string string :=
  match rows with
  | [] => fn_list
  | _ => <["elines_pickle" := elines_prefix p suffix]> fn_list
  end.

Lemma elines_fit_row_ok (row : Z) (fn_list : gmap string string) (w : world) :
  0 <= row < Z.of_nat (NAXIS1 hdr) ->
  uninterrupted interrupted p row ->
  elines_fit_row interrupted els_mpfit hdr data error snr_elines p suffix row
    (fn_list, w)
  = (Ok tt, (<["elines_pickle" := elines_prefix p suffix]> fn_list,
             row_done p elines_fn elines_artifact w row)).
Proof.
  intros Hrow Hun. unfold elines_fit_row, elines_row_inputs.
  rewrite py_index_in_range by exact Hrow.
  rewrite dispatch_ok by exact Hun. reflexivity.
Qed.

Lemma elines_fit_row_interrupted (row : Z) (fn_list : gmap string string)
    (w : world) :
  0 <= row < Z.of_nat (NAXIS1 hdr) ->
  mp_on (multiprocessing p) = true ->
  interrupted row = true ->
  elines_fit_row interrupted els_mpfit hdr data error snr_elines p suffix row
    (fn_list, w)
  = (SysExit (elines_exit_msg +:+ py_str row),
     (fn_list, row_interrupted p w row)).
Proof.
  intros Hrow Hmp Hint. unfold elines_fit_row, elines_row_inputs.
  rewrite py_index_in_range by exact Hrow.
  rewrite dispatch_interrupted by assumption. reflexivity.
Qed.

Lemma elines_rows_ok (rows : list Z) (fn_list : gmap string string) (w : world) :
  (forall r, r ∈ rows ->
     0 <= r < Z.of_nat (NAXIS1 hdr) /\ uninterrupted interrupted p r) ->
  for_rows (elines_fit_row interrupted els_mpfit hdr data error snr_elines p suffix)
    rows (fn_list, w)
  = (Ok tt, (elines_fn_list_after rows fn_list,
             rows_done p elines_fn elines_artifact rows w)).
Proof.
  revert fn_list w. induction rows as [|r rows IH]; intros fn_list w Hrows;
    [reflexivity|].
  cbn [for_rows]. destruct (Hrows r ltac:(left)) as [Hr Hun].
  rewrite elines_fit_row_ok by assumption.
  rewrite IH by (intros r' Hr'; apply Hrows; right; exact Hr').
  unfold elines_fn_list_after. destruct rows; [reflexivity|].
  rewrite insert_insert_eq. reflexivity.
Qed.

End ElinesRows.

Section ElinesStage.

Variables (interrupted : Z -> bool) (els_mpfit : list float * list float -> mpfit).
Variables (hdr : header) (data0 error : cube) (snr_cont snr_elines : image).
Variables (cont_lowess : option cube) (p : params) (suffix : string).
Variable data : cube.

Hypothesis subtracted :
  subtract_continuum hdr snr_cont cont_lowess (which_cont_sub p) data0 = Ok data.

Lemma run_fit_elines_ok (fn_list : gmap string string)
    (start_row end_row : option Z) (w : world) :
  0 <= first_row start_row ->
  last_row hdr end_row < Z.of_nat (NAXIS1 hdr) ->
  first_row start_row <= last_row hdr end_row + 1 ->
  (forall r, first_row start_row <= r <= last_row hdr end_row ->
     uninterrupted interrupted p r) ->
  run_fit_elines interrupted els_mpfit hdr data0 error snr_cont snr_elines
    cont_lowess fn_list p suffix start_row end_row w
  = (Ok (elines_fn_list_after p suffix
           (rows_between (first_row start_row) (last_row hdr end_row)) fn_list),
     rows_done p (elines_fn p suffix)
       (elines_artifact els_mpfit hdr data error snr_elines p)
       (rows_between (first_row start_row) (last_row hdr end_row)) w).
Proof.
  intros H0 Hn Hle Hun. unfold run_fit_elines. rewrite subtracted.
  fold (first_row start_row). fold (last_row hdr end_row).
  rewrite linspace_rows_between by exact Hle.
  rewrite elines_rows_ok; [reflexivity|].
  intros r Hr. apply elem_of_rows_between in Hr. split; [lia | apply Hun, Hr].
Qed.

Lemma run_fit_elines_interrupted (fn_list : gmap string string)
    (start_row end_row : option Z) (r : Z) (w : world) :
  0 <= first_row start_row ->
  last_row hdr end_row < Z.of_nat (NAXIS1 hdr) ->
  first_row start_row <= r <= last_row hdr end_row ->
  mp_on (multiprocessing p) = true ->
  interrupted r = true ->
  (forall r', first_row start_row <= r' < r -> interrupted r' = false) ->
  run_fit_elines interrupted els_mpfit hdr data0 error snr_cont snr_elines
    cont_lowess fn_list p suffix start_row end_row w
  = (SysExit (elines_exit_msg +:+ py_str r),
     row_interrupted p
       (rows_done p (elines_fn p suffix)
          (elines_artifact els_mpfit hdr data error snr_elines p)
          (rows_between (first_row start_row) (r - 1)) w) r).
Proof.
  intros H0 Hn Hr Hmp Hint Hclean. unfold run_fit_elines. rewrite subtracted.
  fold (first_row start_row). fold (last_row hdr end_row).
  rewrite linspace_rows_between by lia.
  rewrite (rows_between_split _ r) by lia.
  rewrite for_rows_app, elines_rows_ok.
  - rewrite (rows_between_cons r) by lia. cbn [for_rows].
    rewrite elines_fit_row_interrupted by (first [lia | assumption]).
    reflexivity.
  - intros r' Hr'. apply elem_of_rows_between in Hr'.
    split; [lia | right; apply Hclean; lia].
Qed.

End ElinesStage.

(** ** Interruption of a run *)

(** What an interrupt during the dispatch of row [r] leaves of a run over the
    rows [start..stop]: the run ends in [sys.exit] with a message that names
    [r], right after the pool of row [r] was closed and joined; the files are
    those a run over the rows before [r] returns with, so the file of row [r]
    is the one the run found and the earlier rows have their pickles; and a
    new run from [r] on ends with the files of a run nothing interrupted. *)
Definition interrupt_report
    (run : (Z -> bool) -> option Z -> option Z -> world
           -> result (gmap string string) * world)
    (interrupted : Z -> bool) (p : params) (fn : Z -> string) (art : Z -> pickle)
    (msg : string) (start stop r : Z) (w0 : world) : Prop :=
  exists fl_prev w_prev w' fl2 w2 fl_full w_full,
    run interrupted (Some start) (Some (r - 1)) w0 = (Ok fl_prev, w_prev) /\
    run interrupted (Some start) (Some stop) w0
    = (SysExit (msg +:+ py_str r), w') /\
    calls w'
    = calls w_prev
      ++ [PoolCreate (mp_processes (multiprocessing p)); PoolMap r;
          PoolClose; PoolJoin] /\
    files w' = files w_prev /\
    files w' !! fn r = files w0 !! fn r /\
    (forall r', start <= r' < r -> files w' !! fn r' = Some (art r')) /\
    run (fun _ => false) (Some r) (Some stop) w' = (Ok fl2, w2) /\
    run (fun _ => false) (Some start) (Some stop) w0 = (Ok fl_full, w_full) /\
    files w2 = files w_full.

Section Interrupt.

Variables (p : params) (fn : Z -> string) (art : Z -> pickle) (msg : string).
Variable nrows : Z.
Variable run : (Z -> bool) -> option Z -> option Z -> world
               -> result (gmap string string) * world.

Hypothesis fn_inj : forall r1 r2, 0 <= r1 -> 0 <= r2 -> fn r1 = fn r2 -> r1 = r2.

Hypothesis run_ok :
  forall intr a b w,
    0 <= a -> b < nrows -> a <= b + 1 ->
    (forall r, a <= r <= b -> uninterrupted intr p r) ->
    exists fl,
      run intr (Some a) (Some b) w
      = (Ok fl, rows_done p fn art (rows_between a b) w).

Hypothesis run_interrupted :
  forall intr a b r w,
    0 <= a -> b < nrows -> a <= r <= b ->
    mp_on (multiprocessing p) = true ->
    intr r = true ->
    (forall r', a <= r' < r -> intr r' = false) ->
    run intr (Some a) (Some b) w
    = (SysExit (msg +:+ py_str r),
       row_interrupted p (rows_done p fn art (rows_between a (r - 1)) w) r).

Lemma files_rows_done_ext (rows : list Z) (w1 w2 : world) :
  files w1 = files w2 ->
  files (rows_done p fn art rows w1) = files (rows_done p fn art rows w2).
Proof.
  revert w1 w2. induction rows as [|r rows IH]; intros w1 w2 H; [exact H|].
  unfold rows_done. simpl. apply IH. rewrite !files_row_done, H. reflexivity.
Qed.

Lemma interrupt_report_holds (interrupted : Z -> bool) (start stop r : Z)
    (w0 : world) :
  mp_on (multiprocessing p) = true ->
  0 <= start <= r -> r <= stop < nrows ->
  interrupted r = true ->
  (forall r', start <= r' < r -> interrupted r' = false) ->
  interrupt_report run interrupted p fn art msg start stop r w0.
Proof.
  intros Hmp Hstart Hstop Hint Hclean.
  set (w_prev := rows_done p fn art (rows_between start (r - 1)) w0).
  set (w' := row_interrupted p w_prev r).
  destruct (run_ok interrupted start (r - 1) w0) as [fl_prev Hprev]; try lia.
  { intros r' Hr'. right. apply Hclean. lia. }
  destruct (run_ok (fun _ => false) r stop w') as [fl2 Hrun2]; try lia.
  { intros r' _. right. reflexivity. }
  destruct (run_ok (fun _ => false) start stop w0) as [fl_full Hfull]; try lia.
  { intros r' _. right. reflexivity. }
  exists fl_prev, w_prev, w', fl2,
    (rows_done p fn art (rows_between r stop) w'), fl_full,
    (rows_done p fn art (rows_between start stop) w0).
  split_and!.
  - exact Hprev.
  - apply run_interrupted; first [lia | assumption].
  - subst w'. unfold row_interrupted, log. simpl.
    rewrite <- app_assoc. reflexivity.
  - reflexivity.
  - change (files w') with (files w_prev). subst w_prev.
    rewrite files_rows_done; [| exact fn_inj | | lia].
    + rewrite decide_False; [reflexivity|].
      intros Hin. apply elem_of_rows_between in Hin. lia.
    + intros r' Hr'. apply elem_of_rows_between in Hr'. lia.
  - intros r' Hr'. change (files w') with (files w_prev). subst w_prev.
    rewrite files_rows_done; [| exact fn_inj | | lia].
    + rewrite decide_True; [reflexivity|].
      apply elem_of_rows_between. lia.
    + intros r'' Hr''. apply elem_of_rows_between in Hr''. lia.
  - exact Hrun2.
  - exact Hfull.
  - rewrite (rows_between_split start r stop) by lia.
    rewrite rows_done_app. apply files_rows_done_ext. reflexivity.
Qed.

End Interrupt.

(** C6: when KeyboardInterrupt arrives during the parallel dispatch of a row,
    in the continuum stage as in the emission-line stage, the pool is closed
    and joined, the run ends in [sys.exit] with the message that gives the row,
    no pickle is written for that row, the pickles of the rows before it are
    those a finished run over these rows leaves, and a run restarted at the
    interrupted row completes the files of an uninterrupted run. *)
Theorem interrupt_keeps_checkpoints
    (interrupted : Z -> bool) (lowess_fit : list float -> list float)
    (els_mpfit : list float * list float -> mpfit)
    (hdr : header) (data error data' : cube) (snr_cont snr_elines : image)
    (cont_lowess : option cube) (fn_list : gmap string string) (p : params)
    (suffix : string) (start stop r : Z) (w0 : world) :
  mp_on (multiprocessing p) = true ->
  0 <= start <= r ->
  r <= stop < Z.of_nat (NAXIS1 hdr) ->
  interrupted r = true ->
  (forall r', start <= r' < r -> interrupted r' = false) ->
  subtract_continuum hdr snr_cont cont_lowess (which_cont_sub p) data = Ok data' ->
  interrupt_report
    (fun intr a b w =>
       run_fit_continuum intr lowess_fit hdr data snr_cont fn_list p suffix
         a b lowess w)
    interrupted p (cont_fn p suffix)
    (cont_artifact lowess_fit hdr data snr_cont p)
    cont_exit_msg start stop r w0 /\
  interrupt_report
    (fun intr a b w =>
       run_fit_elines intr els_mpfit hdr data error snr_cont snr_elines
         cont_lowess fn_list p suffix a b w)
    interrupted p (elines_fn p suffix)
    (elines_artifact els_mpfit hdr data' error snr_elines p)
    elines_exit_msg start stop r w0.
Proof.
  intros Hmp Hstart Hstop Hint Hclean Hsub. split.
  - apply (interrupt_report_holds p _ _ _ (Z.of_nat (NAXIS1 hdr)));
      try assumption.
    + intros r1 r2. apply row_file_inj.
    + intros intr a b w Ha Hb Hab Hun. eexists.
      apply (run_fit_continuum_ok intr lowess_fit hdr data snr_cont p suffix
               fn_list (Some a) (Some b) w); assumption.
    + intros intr a b r0 w Ha Hb Hr0 Hmp0 Hi Hc.
      apply (run_fit_continuum_interrupted intr lowess_fit hdr data snr_cont p
               suffix fn_list (Some a) (Some b) r0 w); assumption.
  - apply (interrupt_report_holds p _ _ _ (Z.of_nat (NAXIS1 hdr)));
      try assumption.
    + intros r1 r2. apply row_file_inj.
    + intros intr a b w Ha Hb Hab Hun. eexists.
      apply (run_fit_elines_ok intr els_mpfit hdr data error snr_cont snr_elines
               cont_lowess p suffix data' Hsub fn_list (Some a) (Some b) w);
        assumption.
    + intros intr a b r0 w Ha Hb Hr0 Hmp0 Hi Hc.
      apply (run_fit_elines_interrupted intr els_mpfit hdr data error snr_cont
               snr_elines cont_lowess p suffix data' Hsub fn_list
               (Some a) (Some b) r0 w); assumption.
Qed.

Lemma interrupt_keeps_checkpoints_witness :
  interrupt_report
    (fun intr a b w =>
       run_fit_continuum intr (fun s => s) ex_hdr ex_data ex_snr ∅ ex_params
         "run" a b lowess w)
    (fun r => r =? 1) ex_params (cont_fn ex_params "run")
    (cont_artifact (fun s => s) ex_hdr ex_data ex_snr ex_params)
    cont_exit_msg 0 1 1 empty_world /\
  interrupt_report
    (fun intr a b w =>
       run_fit_elines intr
         (fun se => {| mp_params := fst se; mp_perror := snd se; mp_status := 1 |})
         ex_hdr ex_data ex_error ex_snr ex_snr None ∅ ex_params "run" a b w)
    (fun r => r =? 1) ex_params (elines_fn ex_params "run")
    (elines_artifact
       (fun se => {| mp_params := fst se; mp_perror := snd se; mp_status := 1 |})
       ex_hdr ex_data ex_error ex_snr ex_params)
    elines_exit_msg 0 1 1 empty_world.
Proof.
  apply (interrupt_keeps_checkpoints (fun r => r =? 1) (fun s => s)
           (fun se => {| mp_params := fst se; mp_perror := snd se;
                         mp_status := 1 |})
           ex_hdr ex_data ex_error ex_data ex_snr ex_snr None ∅ ex_params
           "run" 0 1 1 empty_world).
  - reflexivity.
  - lia.
  - simpl. lia.
  - reflexivity.
  - intros r' Hr'. apply Z.eqb_neq. lia.
  - reflexivity.
Defined.

(** ** The order numpy sorts float64 by *)

Section SortOrder.

(** [np.sort_lt] on the specification of the two floats. *)
Definition sf_lt (a b : spec_float) : bool :=
  SFltb a b || (negb (SFeqb b b) && negb (negb (SFeqb a a))).

Lemma sort_lt_spec (a b : float) :
  np.sort_lt a b = sf_lt (Prim2SF a) (Prim2SF b).
Proof.
  unfold np.sort_lt, np.isnan, is_nan, sf_lt.
  rewrite ltb_spec, !FloatAxioms.eqb_spec. reflexivity.
Qed.

Lemma pos_compare_cont_eq (a b : positive) :
  PosDef.Pos.compare_cont Eq a b = Pos.compare a b.
Proof. reflexivity. Qed.

Ltac compare_cases :=
  repeat first
    [ progress rewrite pos_compare_cont_eq
    | progress rewrite Pos.compare_refl
    | progress rewrite Z.compare_refl
    | match goal with
      | |- context [Z.compare ?a ?b] => destruct (Z.compare_spec a b); try subst
      | |- context [Pos.compare ?a ?b] => destruct (Pos.compare_spec a b); try subst
      end
    | progress simpl ];
  try congruence; try lia.

Ltac spec_float_cases :=
  unfold sf_lt, SFltb, SFleb, SFeqb;
  repeat match goal with
         | x : spec_float |- _ => destruct x as [[]|[]| |[] ? ?]
         end;
  simpl; try congruence; compare_cases.

Lemma sf_lt_trans (a b c : spec_float) :
  sf_lt a b = true -> sf_lt b c = true -> sf_lt a c = true.
Proof. spec_float_cases. Qed.

Lemma sf_lt_asym (a b : spec_float) : sf_lt a b = true -> sf_lt b a = false.
Proof. spec_float_cases. Qed.

Lemma sf_lt_negtrans (a b c : spec_float) :
  sf_lt a b = false -> sf_lt b c = false -> sf_lt a c = false.
Proof. spec_float_cases. Qed.

Lemma sf_lt_numbers (a b : spec_float) :
  sf_lt a b = false -> SFeqb a a = true -> SFeqb b b = true -> SFleb b a = true.
Proof. spec_float_cases. Qed.

Lemma sort_lt_trans (a b c : float) :
  np.sort_lt a b = true -> np.sort_lt b c = true -> np.sort_lt a c = true.
Proof. rewrite !sort_lt_spec. apply sf_lt_trans. Qed.

Lemma sort_lt_asym (a b : float) : np.sort_lt a b = true -> np.sort_lt b a = false.
Proof. rewrite !sort_lt_spec. apply sf_lt_asym. Qed.

Lemma sort_lt_negtrans (a b c : float) :
  np.sort_lt a b = false -> np.sort_lt b c = false -> np.sort_lt a c = false.
Proof. rewrite !sort_lt_spec. apply sf_lt_negtrans. Qed.

(** Between two numbers, "not below in the sort order" is [>=]. *)
Lemma sort_lt_false_le (a b : float) :
  np.sort_lt a b = false -> np.isnan a = false -> np.isnan b = false ->
  np.le b a = true.
Proof.
  unfold np.le, np.isnan, is_nan. rewrite sort_lt_spec, leb_spec.
  rewrite !FloatAxioms.eqb_spec. intros H Ha Hb.
  apply negb_false_iff in Ha, Hb. apply sf_lt_numbers; assumption.
Qed.

End SortOrder.

(** ** [np.argsort] *)

Section ArgSort.

Variable keys : list float.

Definition key (i : nat) : float := nth i keys np.nan.

(** [i] comes before [j] in the ascending stable order: its key is smaller, or
    the keys tie and [i] is the earlier index. *)
Definition index_lt (i j : nat) : bool :=
  np.sort_lt (key i) (key j)
  || (negb (np.sort_lt (key j) (key i)) && (i <? j)%nat).

Lemma index_lt_trans (a b c : nat) :
  index_lt a b = true -> index_lt b c = true -> index_lt a c = true.
Proof.
  unfold index_lt. intros Hab Hbc.
  destruct (np.sort_lt (key a) (key b)) eqn:Lab,
           (np.sort_lt (key b) (key c)) eqn:Lbc; simpl in Hab, Hbc.
  - rewrite (sort_lt_trans _ _ _ Lab Lbc). reflexivity.
  - apply andb_prop in Hbc as [Lcb _]. apply negb_true_iff in Lcb.
    destruct (np.sort_lt (key a) (key c)) eqn:Lac; [reflexivity|].
    rewrite (sort_lt_negtrans _ _ _ Lac Lcb) in Lab. discriminate.
  - apply andb_prop in Hab as [Lba _]. apply negb_true_iff in Lba.
    destruct (np.sort_lt (key a) (key c)) eqn:Lac; [reflexivity|].
    rewrite (sort_lt_negtrans _ _ _ Lba Lac) in Lbc. discriminate.
  - apply andb_prop in Hab as [Lba Hlt1]. apply andb_prop in Hbc as [Lcb Hlt2].
    apply negb_true_iff in Lba, Lcb.
    rewrite (sort_lt_negtrans _ _ _ Lcb Lba).
    apply Nat.ltb_lt in Hlt1, Hlt2.
    assert ((a <? c)%nat = true) as -> by (apply Nat.ltb_lt; lia).
    apply orb_true_r.
Qed.

Definition index_sorted : list nat -> Prop :=
  StronglySorted (fun i j => index_lt i j = true).

Lemma insert_index_perm (i : nat) (l : list nat) :
  np.insert_index keys i l ≡ₚ i :: l.
Proof.
  induction l as [|j l IH]; [reflexivity|].
  simpl. fold (key j). fold (key i).
  destruct (np.sort_lt (key j) (key i)); [|reflexivity].
  rewrite IH. apply perm_swap.
Qed.

Lemma insert_index_sorted (i : nat) (l : list nat) :
  (forall j, j ∈ l -> (i < j)%nat) ->
  index_sorted l -> index_sorted (np.insert_index keys i l).
Proof.
  unfold index_sorted. intros Hlt Hs.
  induction Hs as [|j l Hs IH Hj]; [repeat constructor|].
  simpl. fold (key j). fold (key i).
  destruct (np.sort_lt (key j) (key i)) eqn:Lji.
  - constructor.
    + apply IH. intros x Hx. apply Hlt. right. exact Hx.
    + apply Forall_forall. intros x Hx.
      rewrite insert_index_perm in Hx. apply elem_of_cons in Hx as [-> | Hx].
      * unfold index_lt. rewrite Lji. reflexivity.
      * rewrite Forall_forall in Hj. apply Hj, Hx.
  - assert (Hij : index_lt i j = true).
    { unfold index_lt. rewrite Lji.
      assert ((i <? j)%nat = true) as ->
        by (apply Nat.ltb_lt, Hlt; left).
      apply orb_true_r. }
    constructor; [constructor; assumption|].
    constructor; [exact Hij|].
    rewrite Forall_forall in Hj |- *. intros x Hx.
    apply (index_lt_trans i j x Hij), Hj, Hx.
Qed.

Lemma argsort_from (s n : nat) :
  index_sorted (fold_right (np.insert_index keys) [] (seq s n)) /\
  fold_right (np.insert_index keys) [] (seq s n) ≡ₚ seq s n.
Proof.
  revert s. induction n as [|n IH]; intros s; [split; [constructor | reflexivity]|].
  destruct (IH (S s)) as [Hs Hp]. simpl. split.
  - apply insert_index_sorted; [|exact Hs].
    intros j Hj. rewrite Hp in Hj. apply elem_of_seq in Hj. lia.
  - rewrite insert_index_perm, Hp. reflexivity.
Qed.

Lemma argsort_sorted : index_sorted (np.argsort keys).
Proof. apply argsort_from. Qed.

Lemma argsort_perm : np.argsort keys ≡ₚ seq 0 (length keys).
Proof. apply argsort_from. Qed.

Lemma sorted_lookup (l : list nat) (a b x y : nat) :
  index_sorted l -> (a < b)%nat -> l !! a = Some x -> l !! b = Some y ->
  index_lt x y = true.
Proof.
  unfold index_sorted. intros Hs. revert a b.
  induction Hs as [|j l Hs IH Hj]; intros a b Hab Ha Hb;
    [discriminate|].
  destruct b as [|b]; [lia|]. simpl in Hb.
  destruct a as [|a]; simpl in Ha.
  - injection Ha as ->. rewrite Forall_forall in Hj.
    apply Hj. apply list_elem_of_lookup. eauto.
  - apply (IH a b); [lia | assumption ..].
Qed.

(** [np.argsort(keys)[::-1]]: keys in descending order, equal keys with the
    later index first. *)
Lemma sort_index_descending (a b ia ib : nat) :
  (a < b)%nat ->
  sort_index keys !! a = Some ia -> sort_index keys !! b = Some ib ->
  index_lt ib ia = true.
Proof.
  unfold sort_index. intros Hab Ha Hb.
  pose proof (lookup_lt_Some _ _ _ Ha) as La.
  pose proof (lookup_lt_Some _ _ _ Hb) as Lb.
  rewrite length_reverse in La, Lb.
  rewrite reverse_lookup in Ha, Hb by assumption.
  apply (sorted_lookup (np.argsort keys)
           (length (np.argsort keys) - S b) (length (np.argsort keys) - S a));
    [apply argsort_sorted | lia | assumption ..].
Qed.

Lemma sort_index_perm : sort_index keys ≡ₚ seq 0 (length keys).
Proof. unfold sort_index. rewrite reverse_Permutation. apply argsort_perm. Qed.

End ArgSort.

(** ** The aperture loop *)

Section ApertureLoop.

Variables (ny nx : nat) (data error : cube) (aps : list aperture).

(** The position in [order] of the first aperture whose disk holds the spaxel. *)
Fixpoint first_cover (order : list nat) (py px : nat) : option nat :=
  match order with
  | [] => None
  | ind :: rest =>
      if in_ap (nth ind aps (0, 0, 0)) py px then Some 0%nat
      else option_map S (first_cover rest py px)
  end.

Lemma first_cover_Some (order : list nat) (py px i : nat) :
  first_cover order py px = Some i <->
  exists ind,
    order !! i = Some ind /\ in_ap (nth ind aps (0, 0, 0)) py px = true /\
    forall i' ind', (i' < i)%nat -> order !! i' = Some ind' ->
                    in_ap (nth ind' aps (0, 0, 0)) py px = false.
Proof.
  split.
  - revert i. induction order as [|ind0 order IH]; intros i; simpl; [discriminate|].
    destruct (in_ap (nth ind0 aps (0, 0, 0)) py px) eqn:Hin.
    + intros [= <-]. exists ind0. split_and!; [reflexivity | exact Hin | lia].
    + destruct (first_cover order py px) as [t|]; simpl; [|discriminate].
      intros [= <-]. destruct (IH t eq_refl) as (ind & Ht & Hc & Hfirst).
      exists ind. split_and!; [exact Ht | exact Hc |].
      intros [|i'] ind' Hlt Hl; simpl in Hl.
      * injection Hl as <-. exact Hin.
      * apply (Hfirst i' ind'); [lia | exact Hl].
  - revert i. induction order as [|ind0 order IH]; intros i (ind & Hi & Hc & Hfirst);
      [discriminate|].
    simpl. destruct i as [|i]; simpl in Hi.
    + injection Hi as ->. rewrite Hc. reflexivity.
    + rewrite (Hfirst 0%nat ind0) by (first [lia | reflexivity]).
      rewrite (IH i); [reflexivity|].
      exists ind. split_and!; [exact Hi | exact Hc |].
      intros i' ind' Hlt Hl. apply (Hfirst (S i') ind'); [lia | exact Hl].
Qed.

Lemma first_cover_None (order : list nat) (py px : nat) :
  first_cover order py px = None <->
  forall ind, ind ∈ order -> in_ap (nth ind aps (0, 0, 0)) py px = false.
Proof.
  induction order as [|ind0 order IH]; simpl.
  - split; [intros _ ind Hin; by apply elem_of_nil in Hin | reflexivity].
  - destruct (in_ap (nth ind0 aps (0, 0, 0)) py px) eqn:Hin.
    + split; [discriminate|]. intros H. rewrite (H ind0) in Hin by left.
      discriminate.
    + destruct (first_cover order py px) as [t|]; simpl.
      * split; [discriminate|]. intros H.
        assert (Some t = None) as Habs; [|discriminate].
        apply IH. intros ind Hi. apply H. right. exact Hi.
      * split; [|reflexivity]. intros _ ind Hi.
        apply elem_of_cons in Hi as [-> | Hi]; [exact Hin|].
        apply (proj1 IH eq_refl), Hi.
Qed.

(** The aperture map after the loop: a spaxel that had a number keeps it; a
    free spaxel gets the position of the first aperture of [order] that
    covers it. *)
Lemma ap_loop_map (order : list nat) (i0 : nat) (st : ap_state) (py px : nat) :
  ap_map (ap_loop ny nx data error aps i0 order st) py px
  = match ap_map st py px with
    | Some i => Some i
    | None => option_map (Nat.add i0) (first_cover order py px)
    end.
Proof.
  revert i0 st. induction order as [|ind order IH]; intros i0 st; simpl.
  - destruct (ap_map st py px); reflexivity.
  - rewrite IH. unfold ap_step at 1. simpl. unfold claim_spaxels.
    destruct (ap_map st py px) as [i|]; simpl.
    + rewrite andb_false_r. reflexivity.
    + rewrite andb_true_r. destruct (in_ap (nth ind aps (0, 0, 0)) py px); simpl.
      * rewrite Nat.add_0_r. reflexivity.
      * destruct (first_cover order py px); simpl; [f_equal; lia | reflexivity].
Qed.

Lemma ap_loop_app (l1 l2 : list nat) (i0 : nat) (st : ap_state) :
  ap_loop ny nx data error aps i0 (l1 ++ l2) st
  = ap_loop ny nx data error aps (i0 + length l1) l2
      (ap_loop ny nx data error aps i0 l1 st).
Proof.
  revert i0 st. induction l1 as [|ind l1 IH]; intros i0 st; simpl.
  - rewrite Nat.add_0_r. reflexivity.
  - rewrite IH. f_equal. lia.
Qed.

(** Once a spaxel has a number, no later iteration changes it. *)
Lemma ap_loop_map_keeps (order : list nat) (i0 : nat) (st : ap_state)
    (py px i : nat) :
  ap_map st py px = Some i -> ap_map (ap_loop ny nx data error aps i0 order st) py px = Some i.
Proof. intros H. rewrite ap_loop_map, H. reflexivity. Qed.

End ApertureLoop.

(** ** Properties of the aperture map *)

Lemma length_peak_fluxes (ny nx : nat) (flux : image) (aps : list aperture)
    (fs : list float) :
  peak_fluxes ny nx flux aps = Ok fs -> length fs = length aps.
Proof.
  revert fs. induction aps as [|[[x y] r] aps IH]; intros fs; simpl.
  - intros [= <-]. reflexivity.
  - destruct (py_index ny y), (py_index nx x); try discriminate.
    destruct (peak_fluxes ny nx flux aps) as [fs'| |]; try discriminate.
    simpl. intros [= <-]. simpl. f_equal. apply IH. reflexivity.
Qed.

Lemma sort_lt_irrefl (a : float) : np.sort_lt a a = false.
Proof.
  destruct (np.sort_lt a a) eqn:H; [|reflexivity].
  rewrite (sort_lt_asym a a H) in H. discriminate.
Qed.

Lemma index_lt_not_below (keys : list float) (i j : nat) :
  index_lt keys i j = true ->
  np.sort_lt (nth j keys np.nan) (nth i keys np.nan) = false /\
  (np.sort_lt (nth i keys np.nan) (nth j keys np.nan) = false -> (i < j)%nat).
Proof.
  unfold index_lt, key. intros H.
  destruct (np.sort_lt (nth i keys np.nan) (nth j keys np.nan)) eqn:Lij;
    simpl in H.
  - split; [apply sort_lt_asym, Lij | discriminate].
  - apply andb_prop in H as [Lji Hlt]. apply negb_true_iff in Lji.
    split; [exact Lji | intros _; apply Nat.ltb_lt, Hlt].
Qed.

(** Following the spec's words (section 8, property 4): the index, in the
    aperture list, of the aperture with the highest peak value among those that
    cover the spaxel (the first of them when peaks tie). *)
Definition brightest_covering (fs : list float) (aps : list aperture)
    (py px : nat) : option nat :=
  fold_left
    (fun best j =>
       if in_ap (nth j aps (0, 0, 0)) py px then
         match best with
         | None => Some j
         | Some b =>
             if (nth b fs np.nan <? nth j fs np.nan)%float then Some j else Some b
         end
       else best)
    (seq 0 (length aps)) None.

(** The example of the spec: peak fluxes 5, 20 and 10 at the centres of three
    apertures of radius 1 in a row of three spaxels. *)
Definition spec_flux : image :=
  fun _ x => match x with
             | O => 5%float
             | S O => 20%float
             | _ => 10%float
             end.

Definition spec_aps : list aperture := [(0, 0, 1); (1, 0, 1); (2, 0, 1)].

(** C1 as stated fails: the spaxel (0, 1) lies in the three disks, and the
    aperture with the highest peak is the one of index 1, but the map records
    0, the position of that aperture in the order of processing.  Nor are
    equal peaks kept in input order: of two apertures with the same peak the
    later one is processed first. *)
Lemma aperture_id_is_rank_not_index :
  exists st,
    run_make_ap_cube 1 3 spec_flux ex_data ex_error spec_aps = Ok st /\
    sort_index [5; 20; 10]%float = [1; 2; 0]%nat /\
    brightest_covering [5; 20; 10]%float spec_aps 0 1 = Some 1%nat /\
    ap_map st 0%nat 1%nat = Some 0%nat /\
    ap_map st 0%nat 1%nat <> brightest_covering [5; 20; 10]%float spec_aps 0 1 /\
    sort_index [7; 7]%float = [1; 0]%nat.
Proof.
  eexists. split; [reflexivity|].
  split; [reflexivity|]. split; [reflexivity|]. split; [reflexivity|].
  split; [discriminate | reflexivity].
Qed.

(** ** The loop over numpy's sort *)

Section NumpyOrder.

Variable quicksort : list float -> list nat.
Variable add_reduce : nat -> list float -> float.

Lemma argsort_sorts : sorts_ascending np.argsort.
Proof.
  intros keys. split; [apply argsort_perm|].
  intros a b ia ib Hab Ha Hb.
  apply index_lt_not_below,
    (sorted_lookup keys (np.argsort keys) a b ia ib (argsort_sorted keys));
    assumption.
Qed.

Lemma argsort_with_sorts :
  sorts_ascending quicksort -> sorts_ascending (argsort_with quicksort).
Proof.
  intros H keys. unfold argsort_with.
  destruct (length keys <=? 17)%nat; [apply argsort_sorts | apply H].
Qed.

Lemma argsort_with_short (keys : list float) :
  (length keys <= 17)%nat -> argsort_with quicksort keys = np.argsort keys.
Proof.
  intros H. unfold argsort_with.
  destruct (Nat.leb_spec (length keys) 17); [reflexivity | lia].
Qed.

Lemma sort_index_with_perm (keys : list float) :
  sorts_ascending quicksort ->
  sort_index_with quicksort keys ≡ₚ seq 0 (length keys).
Proof.
  intros H. unfold sort_index_with. rewrite reverse_Permutation.
  apply (argsort_with_sorts H).
Qed.

(** [np.argsort(fs)[::-1]]: no key after one that sorts below it. *)
Lemma sort_index_with_descending (keys : list float) (a b ia ib : nat) :
  sorts_ascending quicksort ->
  (a < b)%nat ->
  sort_index_with quicksort keys !! a = Some ia ->
  sort_index_with quicksort keys !! b = Some ib ->
  np.sort_lt (nth ia keys np.nan) (nth ib keys np.nan) = false.
Proof.
  unfold sort_index_with. intros H Hab Ha Hb.
  pose proof (lookup_lt_Some _ _ _ Ha) as La.
  pose proof (lookup_lt_Some _ _ _ Hb) as Lb.
  rewrite length_reverse in La, Lb.
  rewrite reverse_lookup in Ha, Hb by assumption.
  destruct (argsort_with_sorts H keys) as [_ Hasc].
  apply (Hasc (length (argsort_with quicksort keys) - S b)%nat
              (length (argsort_with quicksort keys) - S a)%nat);
    [lia | assumption ..].
Qed.

(** The aperture map does not depend on how the spectra are added. *)
Lemma ap_loop_with_map (ny nx : nat) (data error : cube) (aps : list aperture)
    (order : list nat) (i0 : nat) (st st' : ap_state) :
  ap_map st = ap_map st' ->
  ap_map (ap_loop_with add_reduce ny nx data error aps i0 order st)
  = ap_map (ap_loop ny nx data error aps i0 order st').
Proof.
  revert i0 st st'. induction order as [|ind order IH]; intros i0 st st' Hmap;
    [exact Hmap|].
  cbn [ap_loop_with ap_loop]. apply IH.
  unfold ap_step_with, ap_step. cbn [ap_map]. rewrite Hmap. reflexivity.
Qed.

End NumpyOrder.

(** C1, amended: a spaxel covered by at least one disk gets the position, in
    the order of processing, of the first aperture in that order that covers
    it, and that aperture has the highest peak value of all the apertures that
    cover the spaxel (in numpy's sort order, which ranks nan above every
    number; between numbers, [>=]).  The order of processing is the reversed
    ascending argsort of the peaks, whatever numpy's sort does with equal
    keys: every aperture once, none after one with a lower peak; with at most
    17 apertures, which numpy sorts by insertion, equal peaks come with the
    later index first.  A spaxel that has a number after some iterations has
    the same number at the end. *)
Theorem aperture_priority
    (quicksort : list float -> list nat) (add_reduce : nat -> list float -> float)
    (ny nx : nat) (flux : image) (data error : cube) (aps : list aperture)
    (fs : list float) (st : ap_state) (py px : nat) :
  sorts_ascending quicksort ->
  peak_fluxes ny nx flux aps = Ok fs ->
  run_make_ap_cube_with quicksort add_reduce ny nx flux data error aps = Ok st ->
  (exists j, (j < length aps)%nat /\ in_ap (nth j aps (0, 0, 0)) py px = true) ->
  (exists i ind,
     ap_map st py px = Some i /\
     sort_index_with quicksort fs !! i = Some ind /\
     in_ap (nth ind aps (0, 0, 0)) py px = true /\
     (forall i' ind', (i' < i)%nat ->
        sort_index_with quicksort fs !! i' = Some ind' ->
        in_ap (nth ind' aps (0, 0, 0)) py px = false) /\
     (forall j, (j < length aps)%nat -> in_ap (nth j aps (0, 0, 0)) py px = true ->
        np.sort_lt (nth ind fs np.nan) (nth j fs np.nan) = false /\
        (np.isnan (nth ind fs np.nan) = false ->
         np.isnan (nth j fs np.nan) = false ->
         np.le (nth j fs np.nan) (nth ind fs np.nan) = true))) /\
  sort_index_with quicksort fs ≡ₚ seq 0 (length aps) /\
  (forall a b ia ib, (a < b)%nat ->
     sort_index_with quicksort fs !! a = Some ia ->
     sort_index_with quicksort fs !! b = Some ib ->
     np.sort_lt (nth ia fs np.nan) (nth ib fs np.nan) = false) /\
  ((length aps <= 17)%nat ->
   forall a b ia ib, (a < b)%nat ->
     sort_index_with quicksort fs !! a = Some ia ->
     sort_index_with quicksort fs !! b = Some ib ->
     np.sort_lt (nth ib fs np.nan) (nth ia fs np.nan) = false -> (ib < ia)%nat) /\
  (forall n i,
     ap_map (ap_loop_with add_reduce ny nx data error aps 0
               (take n (sort_index_with quicksort fs)) ap_init) py px
     = Some i ->
     ap_map st py px = Some i).
Proof.
  intros Hsort Hpeaks Hrun (j0 & Hj0 & Hcov0).
  unfold run_make_ap_cube_with in Hrun. rewrite Hpeaks in Hrun. simpl in Hrun.
  injection Hrun as <-.
  pose proof (length_peak_fluxes ny nx flux aps fs Hpeaks) as Hlen.
  set (order := sort_index_with quicksort fs).
  assert (Hperm : order ≡ₚ seq 0 (length aps))
    by (rewrite <- Hlen; apply sort_index_with_perm, Hsort).
  assert (Hdesc : forall a b ia ib, (a < b)%nat ->
            order !! a = Some ia -> order !! b = Some ib ->
            np.sort_lt (nth ia fs np.nan) (nth ib fs np.nan) = false).
  { intros a b ia ib. apply sort_index_with_descending, Hsort. }
  assert (Hmaps : forall l,
            ap_map (ap_loop_with add_reduce ny nx data error aps 0 l ap_init)
            = ap_map (ap_loop ny nx data error aps 0 l ap_init)).
  { intros l. apply ap_loop_with_map. reflexivity. }
  split_and!; [| exact Hperm | exact Hdesc | |].
  - destruct (first_cover aps order py px) as [i|] eqn:Hfc.
    + destruct (proj1 (first_cover_Some aps _ py px i) Hfc)
        as (ind & Hi & Hc & Hfirst).
      exists i, ind. split_and!; try assumption.
      * rewrite Hmaps, ap_loop_map. simpl. rewrite Hfc. reflexivity.
      * intros j Hj Hcj.
        assert (Hbelow : np.sort_lt (nth ind fs np.nan) (nth j fs np.nan) = false).
        { assert (Hin : j ∈ order)
            by (rewrite Hperm; apply elem_of_seq; lia).
          apply list_elem_of_lookup in Hin as [i' Hi'].
          destruct (lt_eq_lt_dec i' i) as [[Hlt | ->] | Hgt].
          - rewrite (Hfirst i' j Hlt Hi') in Hcj. discriminate.
          - rewrite Hi in Hi'. injection Hi' as ->. apply sort_lt_irrefl.
          - apply (Hdesc i i' ind j Hgt Hi Hi'). }
        split; [exact Hbelow|]. intros Hn1 Hn2.
        apply sort_lt_false_le; assumption.
    + exfalso. rewrite first_cover_None in Hfc.
      rewrite (Hfc j0) in Hcov0; [discriminate|].
      rewrite Hperm. apply elem_of_seq. lia.
  - intros Hshort a b ia ib Hab Ha Hb Htie.
    subst order. unfold sort_index_with in Ha, Hb.
    rewrite argsort_with_short in Ha, Hb by lia.
    apply (index_lt_not_below fs ib ia); [|exact Htie].
    apply (sort_index_descending fs a b); assumption.
  - intros n i Hn. rewrite Hmaps in Hn. rewrite Hmaps.
    rewrite <- (take_drop n order).
    rewrite ap_loop_app. apply ap_loop_map_keeps, Hn.
Qed.

Lemma aperture_priority_witness :
  exists i ind,
    ap_map (ap_loop_with add_in_order 1 3 ex_data ex_error spec_aps 0
              (sort_index_with np.argsort [5; 20; 10]%float) ap_init)
      0%nat 1%nat = Some i /\
    sort_index_with np.argsort [5; 20; 10]%float !! i = Some ind /\
    in_ap (nth ind spec_aps (0, 0, 0)) 0 1 = true.
Proof.
  destruct (aperture_priority np.argsort add_in_order 1 3 spec_flux ex_data
              ex_error spec_aps [5; 20; 10]%float
              (ap_loop_with add_in_order 1 3 ex_data ex_error spec_aps 0
                 (sort_index_with np.argsort [5; 20; 10]%float) ap_init) 0 1)
    as ((i & ind & Hmap & Hord & Hcov & _) & _).
  - apply argsort_sorts.
  - reflexivity.
  - reflexivity.
  - exists 1%nat. split; [simpl; lia | reflexivity].
  - exists i, ind. split_and!; assumption.
Defined.

(** ** The integrated spectra *)

Section ApertureSpectra.

Variables (ny nx : nat) (data error : cube) (aps : list aperture).

Lemma elem_of_grid (y x : nat) : (y, x) ∈ grid ny nx <-> (y < ny)%nat /\ (x < nx)%nat.
Proof.
  unfold grid. rewrite list_elem_of_In, in_flat_map. split.
  - intros (y' & Hy' & Hin). apply in_map_iff in Hin as (x' & [= <- <-] & Hx').
    apply in_seq in Hy', Hx'. lia.
  - intros [Hy Hx]. exists y. split; [apply in_seq; lia|].
    apply in_map_iff. exists x. split; [reflexivity | apply in_seq; lia].
Qed.

Lemma elem_of_members (m : ap_image) (i y x : nat) :
  (y, x) ∈ members ny nx m i <-> m y x = Some i /\ (y < ny)%nat /\ (x < nx)%nat.
Proof.
  unfold members. rewrite list_elem_of_filter, elem_of_grid. reflexivity.
Qed.

Lemma members_ext (m1 m2 : ap_image) (i : nat) :
  (forall y x, m1 y x = Some i <-> m2 y x = Some i) ->
  members ny nx m1 i = members ny nx m2 i.
Proof.
  intros H. unfold members. apply list_filter_iff. intros [y x]. apply H.
Qed.

(** Lines 934-938: the spaxels of the list get the spectrum, the others keep
    theirs. *)
Lemma fold_set_spaxel (spec : nat -> float) (mem : list (nat * nat)) (cb : cube)
    (l py px : nat) :
  fold_left (fun cb yx => set_spaxel cb yx.1 yx.2 spec) mem cb l py px
  = if decide ((py, px) ∈ mem) then spec l else cb l py px.
Proof.
  revert cb. induction mem as [|[y x] mem IH]; intros cb; cbn [fold_left].
  - destruct (decide ((py, px) ∈ [])) as [Hin | _]; [|reflexivity].
    by apply elem_of_nil in Hin.
  - rewrite IH. cbn [fst snd]. unfold set_spaxel.
    destruct (decide ((py, px) ∈ mem)) as [Hin | Hnin].
    + rewrite decide_True by (right; exact Hin). reflexivity.
    + destruct (decide ((py, px) = (y, x))) as [[= -> ->] | Hne].
      * rewrite decide_True by left. rewrite !Nat.eqb_refl. reflexivity.
      * rewrite decide_False
          by (intros Hin; apply elem_of_cons in Hin as [? | ?]; contradiction).
        destruct (Nat.eqb_spec py y) as [-> | _]; [|reflexivity].
        destruct (Nat.eqb_spec px x) as [-> | _]; [congruence | reflexivity].
Qed.

(** After [i0] iterations: only numbers below [i0] are in the map, and every
    numbered spaxel of the grid holds the sums over the spaxels that carry its
    number. *)
Definition integrated (i0 : nat) (st : ap_state) : Prop :=
  (forall py px j, ap_map st py px = Some j -> (j < i0)%nat) /\
  (forall py px j l,
     (py < ny)%nat -> (px < nx)%nat -> ap_map st py px = Some j ->
     ap_spec_cube st l py px = integrate data (members ny nx (ap_map st) j) l /\
     ap_spec_err st l py px = integrate error (members ny nx (ap_map st) j) l).

Lemma claim_spaxels_Some (a : aperture) (i0 : nat) (m : ap_image) (py px j : nat) :
  claim_spaxels a i0 m py px = Some j ->
  m py px = Some j \/ (m py px = None /\ j = i0).
Proof.
  unfold claim_spaxels. destruct (m py px) as [i|].
  - rewrite andb_false_r. auto.
  - destruct (in_ap a py px); simpl; [intros [= <-]; auto | discriminate].
Qed.

Lemma claim_spaxels_keeps (a : aperture) (i0 : nat) (m : ap_image) (py px j : nat) :
  m py px = Some j -> claim_spaxels a i0 m py px = Some j.
Proof. unfold claim_spaxels. intros ->. rewrite andb_false_r. reflexivity. Qed.

Lemma integrated_step (i0 ind : nat) (st : ap_state) :
  integrated i0 st -> integrated (S i0) (ap_step ny nx data error aps i0 ind st).
Proof.
  intros [Hbound Hsum]. unfold ap_step.
  set (m := claim_spaxels (nth ind aps (0, 0, 0)) i0 (ap_map st)).
  split; simpl.
  - intros py px j Hj. apply claim_spaxels_Some in Hj as [Hold | [_ ->]]; [|lia].
    specialize (Hbound py px j Hold). lia.
  - intros py px j l Hy Hx Hj. rewrite !fold_set_spaxel.
    destruct (decide (j = i0)) as [-> | Hne].
    + rewrite !decide_True by (apply elem_of_members; auto). split; reflexivity.
    + rewrite !decide_False
        by (rewrite elem_of_members; intros [Hm _]; congruence).
      assert (Hold : ap_map st py px = Some j).
      { apply claim_spaxels_Some in Hj as [Hold | [_ ->]]; [exact Hold | congruence]. }
      rewrite (members_ext m (ap_map st) j); [apply Hsum; assumption|].
      intros y x. split.
      * intros Hm. apply claim_spaxels_Some in Hm as [H | [_ ->]];
          [exact H | congruence].
      * apply claim_spaxels_keeps.
Qed.

Lemma integrated_loop (order : list nat) (i0 : nat) (st : ap_state) :
  integrated i0 st ->
  integrated (i0 + length order) (ap_loop ny nx data error aps i0 order st).
Proof.
  revert i0 st. induction order as [|ind order IH]; intros i0 st Hst; simpl.
  - rewrite Nat.add_0_r. exact Hst.
  - replace (i0 + S (length order))%nat with (S i0 + length order)%nat by lia.
    apply IH, integrated_step, Hst.
Qed.

Lemma integrated_init : integrated 0 ap_init.
Proof. split; simpl; intros; discriminate. Qed.


End ApertureSpectra.

(** ** The spectra as numpy adds them *)

Section NumpySum.

Variable add_reduce : nat -> list float -> float.
Variables (ny nx : nat) (data error : cube) (aps : list aperture).





End NumpySum.



(** The loop of [run_make_ap_cube] is the loop over numpy's routines when the
    sort is the insertion sort at every length and the sum adds the samples
    one after the other. *)
Lemma run_make_ap_cube_with_in_order
    (ny nx : nat) (flux : image) (data error : cube) (aps : list aperture) :
  run_make_ap_cube_with np.argsort add_in_order ny nx flux data error aps
  = run_make_ap_cube ny nx flux data error aps.
Proof.
  assert (Hint : forall (cb : cube) mem,
            integrate_with add_in_order cb mem = integrate cb mem).
  { intros cb mem. extensionality l.
    unfold integrate_with, integrate, add_in_order, np.nansum.
    generalize 0%float. induction mem as [|yx mem IH]; intros acc;
      [reflexivity | apply IH]. }
  assert (Hstep : forall i ind st,
            ap_step_with add_in_order ny nx data error aps i ind st
            = ap_step ny nx data error aps i ind st).
  { intros i ind st. unfold ap_step_with, ap_step. rewrite !Hint. reflexivity. }
  assert (Hloop : forall order i0 st,
            ap_loop_with add_in_order ny nx data error aps i0 order st
            = ap_loop ny nx data error aps i0 order st).
  { induction order as [|ind order IH]; intros i0 st; [reflexivity|].
    cbn [ap_loop_with ap_loop]. rewrite Hstep. apply IH. }
  unfold run_make_ap_cube_with, run_make_ap_cube.
  destruct (peak_fluxes ny nx flux aps) as [fs| |]; try reflexivity.
  simpl. rewrite Hloop. unfold sort_index_with, sort_index, argsort_with.
  destruct (length fs <=? 17)%nat; reflexivity.
Qed.

(** * More of the drivers *)

(** ** The line-SNR gate of the emission-line stage *)

Section ElinesGate.

Variables (hdr : header) (data error : cube) (snr_elines : image).

(** The gate of lines 423-426 as one condition: the upper bound is strict. *)
Definition elines_masked (smin smax : pyval) (row i : nat) : bool :=
  (truthy smin && np.lt (snr_elines i row) (num_of smin))
  || (truthy smax && np.gt (snr_elines i row) (num_of smax)).

Lemma nth_elines_good_spaxels smin smax row i :
  (i < NAXIS2 hdr)%nat ->
  nth i (elines_good_spaxels hdr snr_elines smin smax row) np.nan
  = if elines_masked smin smax row i then np.nan else 1%float.
Proof.
  intros Hi. unfold elines_good_spaxels, elines_masked.
  assert (Hone : nth i (replicate (NAXIS2 hdr) 1%float) np.nan = 1%float).
  { rewrite nth_lookup, lookup_replicate_2; [reflexivity | exact Hi]. }
  destruct (truthy smin), (truthy smax); simpl;
    rewrite ?nth_mask_set, ?Hone
      by (rewrite ?length_mask_set, length_replicate; exact Hi);
    destruct (np.lt (snr_elines i row) (num_of smin)),
             (np.gt (snr_elines i row) (num_of smax)); reflexivity.
Qed.

Lemma lookup_elines_specerrs smin smax row i :
  (i < NAXIS2 hdr)%nat ->
  elines_specerrs hdr data error snr_elines smin smax row !! i
  = Some (scale (spaxel hdr data i row)
            (nth i (elines_good_spaxels hdr snr_elines smin smax row) np.nan),
          scale (spaxel hdr error i row)
            (nth i (elines_good_spaxels hdr snr_elines smin smax row) np.nan)).
Proof.
  intros Hi. unfold elines_specerrs.
  rewrite list_lookup_fmap, lookup_seq_lt by exact Hi. reflexivity.
Qed.

Lemma length_elines_specerrs smin smax row :
  length (elines_specerrs hdr data error snr_elines smin smax row) = NAXIS2 hdr.
Proof. unfold elines_specerrs. rewrite length_map, length_seq. reflexivity. Qed.

End ElinesGate.

Lemma ltb_irrefl (x : float) : (x <? x)%float = false.
Proof.
  rewrite ltb_spec. unfold SFltb, SFcompare.
  destruct (Prim2SF x) as [s|s| |s m e]; try (destruct s; reflexivity);
    [reflexivity|].
  destruct s; rewrite Z.compare_refl, Pos.compare_cont_refl; reflexivity.
Qed.

(** X1: the emission-line stage masks a spaxel exactly when a minimum is set
    and its line SNR is below it, or a maximum is set and its line SNR is
    strictly above it.  A masked spaxel reaches the fit as a pair of all-nan
    spectra, an unmasked one as its spectrum and its error spectrum unmodified;
    a spaxel whose SNR is nan, or equals the maximum, is not masked by the
    upper bound. *)
Theorem elines_gate
    (hdr : header) (data error : cube) (snr_elines : image) (smin smax : pyval)
    (row i : nat) :
  (i < NAXIS2 hdr)%nat ->
  let masked :=
    (truthy smin && np.lt (snr_elines i row) (num_of smin))
    || (truthy smax && np.gt (snr_elines i row) (num_of smax)) in
  length (elines_specerrs hdr data error snr_elines smin smax row) = NAXIS2 hdr /\
  elines_specerrs hdr data error snr_elines smin smax row !! i
  = Some (if masked
          then (replicate (NAXIS3 hdr) np.nan, replicate (NAXIS3 hdr) np.nan)
          else (spaxel hdr data i row, spaxel hdr error i row)) /\
  (np.isnan (snr_elines i row) = true -> masked = false) /\
  (snr_elines i row = num_of smax ->
   masked = truthy smin && np.lt (snr_elines i row) (num_of smin)).
Proof.
  intros Hi masked. split_and!.
  - apply length_elines_specerrs.
  - rewrite lookup_elines_specerrs, nth_elines_good_spaxels by exact Hi.
    unfold elines_masked. fold masked. destruct masked.
    + rewrite !scale_nan, !length_spaxel. reflexivity.
    + rewrite !scale_one. reflexivity.
  - intros Hnan. apply isnan_eq in Hnan. subst masked. rewrite Hnan.
    unfold np.lt, np.gt. rewrite ltb_nan_l, ltb_nan_r, !andb_false_r. reflexivity.
  - intros Heq. subst masked. unfold np.gt. rewrite Heq, ltb_irrefl.
    rewrite andb_false_r, orb_false_r. reflexivity.
Qed.

Lemma elines_gate_witness :
  elines_specerrs ex_hdr ex_data ex_error ex_snr (PyNum 3) (PyNum 10) 0 !! 1%nat
  = Some (spaxel ex_hdr ex_data 1 0, spaxel ex_hdr ex_error 1 0).
Proof.
  pose proof (elines_gate ex_hdr ex_data ex_error ex_snr (PyNum 3) (PyNum 10) 0 1)
    as H.
  simpl in H. destruct H as (_ & H & _); [lia|]. exact H.
Defined.

(** ** The continuum subtraction, bracket after bracket *)

Section SubtractionTable.

Variables (hdr : header) (snr_cont : image) (cont_lowess : option cube).

(** A bracket subtracts from the spaxel [(y, x)] when it names the LOWESS
    continuum and the spaxel's continuum SNR lies in its range. *)
Definition bracket_hits (b : bracket) (y x : nat) : bool :=
  String.eqb (source b) "lowess"
  && in_bracket snr_cont (float_of_Z (llim b)) (bracket_ulim hdr snr_cont b) y x.

(** A bracket the subtraction gets past. *)
Definition bracket_passes (b : bracket) : bool :=
  if String.eqb (source b) "lowess" then
    match cont_lowess with
    | Some _ => true
    | None => false
    end
  else negb (String.eqb (source b) "ppxf").

Lemma subtract_bracket_passes (b : bracket) (data : cube) :
  bracket_passes b = true ->
  subtract_bracket hdr snr_cont cont_lowess b data
  = Ok (fun l y x =>
          if bracket_hits b y x
          then match cont_lowess with
               | Some cont => (data l y x - cont l y x)%float
               | None => data l y x
               end
          else data l y x).
Proof.
  unfold bracket_passes, subtract_bracket, bracket_hits.
  destruct (String.eqb (source b) "lowess").
  - destruct cont_lowess; [reflexivity | discriminate].
  - destruct (String.eqb (source b) "ppxf"); [discriminate | reflexivity].
Qed.

Lemma subtract_bracket_fails (b : bracket) (data : cube) :
  bracket_passes b = false ->
  exists name, subtract_bracket hdr snr_cont cont_lowess b data
               = Raise (NameError name).
Proof.
  unfold bracket_passes, subtract_bracket.
  destruct (String.eqb (source b) "lowess").
  - destruct cont_lowess; [discriminate | eauto].
  - destruct (String.eqb (source b) "ppxf"); [eauto | discriminate].
Qed.

End SubtractionTable.

(** X2: the continuum subtraction returns a cube exactly when no bracket names
    'ppxf' and, if a bracket names 'lowess', the LOWESS cube was loaded;
    otherwise it raises NameError. *)
Theorem subtract_continuum_succeeds_iff
    (hdr : header) (snr_cont : image) (cont_lowess : option cube)
    (table : list bracket) (data : cube) :
  ((exists data', subtract_continuum hdr snr_cont cont_lowess table data = Ok data')
   <-> forallb (bracket_passes cont_lowess) table = true) /\
  ((exists name, subtract_continuum hdr snr_cont cont_lowess table data
                 = Raise (NameError name))
   <-> forallb (bracket_passes cont_lowess) table = false).
Proof.
  revert data. induction table as [|b table IH]; intros data; simpl.
  - split; split; try discriminate; eauto. intros [name H]. discriminate.
  - destruct (bracket_passes cont_lowess b) eqn:Hb; simpl.
    + rewrite (subtract_bracket_passes hdr snr_cont cont_lowess b data Hb). simpl.
      apply IH.
    + destruct (subtract_bracket_fails hdr snr_cont cont_lowess b data Hb)
        as [name ->]. simpl.
      split; split; try discriminate; eauto. intros [data' H]. discriminate.
Qed.

(** X3: when the subtraction returns, every sample of a spaxel is the raw
    sample minus the LOWESS continuum once for each bracket whose range holds
    the spaxel's continuum SNR, in the order of the table; a spaxel in no
    bracket, and so any spaxel whose continuum SNR is nan, keeps its raw
    spectrum. *)
Theorem subtract_continuum_sample
    (hdr : header) (snr_cont : image) (cont : cube)
    (table : list bracket) (data data' : cube) (l y x : nat) :
  subtract_continuum hdr snr_cont (Some cont) table data = Ok data' ->
  data' l y x
  = fold_left
      (fun v b => if bracket_hits hdr snr_cont b y x
                  then (v - cont l y x)%float else v)
      table (data l y x) /\
  ((forall b, b ∈ table -> bracket_hits hdr snr_cont b y x = false) ->
   data' l y x = data l y x) /\
  (np.isnan (snr_cont y x) = true -> data' l y x = data l y x).
Proof.
  intros Hrun.
  assert (Hfold : data' l y x
                  = fold_left
                      (fun v b => if bracket_hits hdr snr_cont b y x
                                  then (v - cont l y x)%float else v)
                      table (data l y x)).
  { revert data Hrun. induction table as [|b table IH]; intros data Hrun;
      simpl in Hrun.
    - injection Hrun as <-. reflexivity.
    - destruct (bracket_passes (Some cont) b) eqn:Hb.
      + rewrite (subtract_bracket_passes hdr snr_cont (Some cont) b data Hb)
          in Hrun.
        simpl in Hrun. rewrite (IH _ Hrun). reflexivity.
      + destruct (subtract_bracket_fails hdr snr_cont (Some cont) b data Hb)
          as [name Hf].
        rewrite Hf in Hrun. discriminate. }
  assert (Hmiss : (forall b, b ∈ table -> bracket_hits hdr snr_cont b y x = false)
                  -> data' l y x = data l y x).
  { rewrite Hfold. clear. generalize (data l y x).
    induction table as [|b table IH]; intros v Hno; [reflexivity|].
    simpl. rewrite (Hno b) by left. apply IH.
    intros b' Hb'. apply Hno. right. exact Hb'. }
  split_and!; [exact Hfold | exact Hmiss |].
  intros Hnan. apply Hmiss. intros b _.
  unfold bracket_hits, in_bracket, np.ge, np.lt.
  apply isnan_eq in Hnan. rewrite Hnan, leb_nan_r, ltb_nan_l.
  apply andb_false_r.
Qed.

Lemma subtract_continuum_sample_witness :
  exists data',
    subtract_continuum ex_hdr ex_snr (Some ex_error)
      [ {| llim := 0; ulim := ULim 5; source := "lowess" |} ] ex_data = Ok data' /\
    data' 0%nat 0%nat 0%nat = 0.5%float /\
    data' 0%nat 1%nat 0%nat = 11%float.
Proof.
  eexists. split; [reflexivity|].
  destruct (subtract_continuum_sample ex_hdr ex_snr ex_error
              [ {| llim := 0; ulim := ULim 5; source := "lowess" |} ]
              ex_data _ 0 0 0 eq_refl) as (H0 & _).
  destruct (subtract_continuum_sample ex_hdr ex_snr ex_error
              [ {| llim := 0; ulim := ULim 5; source := "lowess" |} ]
              ex_data _ 0 1 0 eq_refl) as (H1 & _).
  split; [exact H0 | exact H1].
Defined.

(** ** Row ranges at and beyond the edges *)

Section RowRangeEdges.

Variables (interrupted : Z -> bool) (lowess_fit : list float -> list float).
Variables (hdr : header) (data : cube) (snr_cont : image).
Variables (p : params) (suffix : string).

Lemma py_index_out_of_range (n : nat) (r : Z) :
  Z.of_nat n <= r -> py_index n r = None.
Proof.
  intros H. unfold py_index.
  destruct (Z.ltb_spec r (Z.of_nat n)); [lia|]. rewrite andb_false_r.
  destruct (Z.ltb_spec r 0); [lia|]. rewrite andb_false_r. reflexivity.
Qed.

Lemma py_index_negative (n : nat) (k : Z) :
  0 < k <= Z.of_nat n -> py_index n (- k) = Some (Z.to_nat (Z.of_nat n - k)).
Proof.
  intros H. unfold py_index.
  destruct (Z.leb_spec 0 (- k)); [lia|]. simpl.
  destruct (Z.leb_spec (- Z.of_nat n) (- k)); [|lia].
  destruct (Z.ltb_spec (- k) 0); [|lia]. simpl. f_equal. lia.
Qed.

Lemma cont_fit_row_ppxf (row : Z) (w : world) :
  0 <= row < Z.of_nat (NAXIS1 hdr) ->
  cont_fit_row interrupted lowess_fit hdr data snr_cont p suffix ppxf row w
  = (Raise (NameError "fit_func"),
     if mp_on (multiprocessing p)
     then log w [PoolCreate (mp_processes (multiprocessing p))]
     else w).
Proof.
  intros Hrow. unfold cont_fit_row, cont_row_inputs.
  rewrite py_index_in_range by exact Hrow.
  unfold cont_fit_func, dispatch. destruct (mp_on _); reflexivity.
Qed.

Lemma cont_fit_row_beyond (row : Z) (w : world) :
  Z.of_nat (NAXIS1 hdr) <= row ->
  (0 < NAXIS2 hdr)%nat ->
  cont_fit_row interrupted lowess_fit hdr data snr_cont p suffix lowess row w
  = (Raise IndexError, w).
Proof.
  intros Hrow Hy. unfold cont_fit_row, cont_row_inputs.
  rewrite py_index_out_of_range by exact Hrow.
  assert ((0 <? NAXIS2 hdr)%nat = true) as -> by (apply Nat.ltb_lt; exact Hy).
  rewrite orb_true_r. reflexivity.
Qed.

End RowRangeEdges.

(** X4: with [method = 'ppxf'] the continuum stage fits nothing.  The branch of
    lines 185-189 binds no [fit_func], so the first row of a range that starts
    inside the cube raises NameError: no pickle is written, [fn_list] is not
    returned, and with multiprocessing on the pool just created is left
    neither closed nor joined. *)
Theorem ppxf_method_is_not_connected
    (interrupted : Z -> bool) (lowess_fit : list float -> list float)
    (hdr : header) (data : cube) (snr_cont : image)
    (fn_list : gmap string string) (p : params) (suffix : string)
    (start_row end_row : option Z) (w : world) :
  0 <= first_row start_row < Z.of_nat (NAXIS1 hdr) ->
  first_row start_row <= last_row hdr end_row ->
  run_fit_continuum interrupted lowess_fit hdr data snr_cont fn_list p suffix
    start_row end_row ppxf w
  = (Raise (NameError "fit_func"),
     if mp_on (multiprocessing p)
     then log w [PoolCreate (mp_processes (multiprocessing p))]
     else w).
Proof.
  intros Hstart Hle. unfold run_fit_continuum.
  fold (first_row start_row). fold (last_row hdr end_row).
  rewrite linspace_rows_between by lia.
  rewrite rows_between_cons by exact Hle. cbn [for_rows].
  rewrite cont_fit_row_ppxf by exact Hstart. reflexivity.
Qed.

Lemma ppxf_method_is_not_connected_witness :
  run_fit_continuum (fun _ => false) (fun s => s) ex_hdr ex_data ex_snr ∅
    ex_params "run" None None ppxf empty_world
  = (Raise (NameError "fit_func"),
     {| files := ∅; calls := [PoolCreate (Some 4)] |}).
Proof.
  apply (ppxf_method_is_not_connected (fun _ => false) (fun s => s) ex_hdr ex_data
           ex_snr ∅ ex_params "run" None None empty_world).
  - unfold first_row. simpl. lia.
  - unfold first_row, last_row. simpl. lia.
Defined.

(** X5: a row range that runs past the last row of the cube is fitted up to
    the last row, every one of these rows getting its pickle as in a run that
    stops there, and then raises IndexError: the prefix of the pickles is not
    recorded in [fn_list]. *)
Theorem rows_past_the_end_raise
    (interrupted : Z -> bool) (lowess_fit : list float -> list float)
    (hdr : header) (data : cube) (snr_cont : image)
    (fn_list : gmap string string) (p : params) (suffix : string)
    (start stop : Z) (w : world) :
  0 <= start <= Z.of_nat (NAXIS1 hdr) ->
  Z.of_nat (NAXIS1 hdr) <= stop ->
  (0 < NAXIS2 hdr)%nat ->
  (forall r, uninterrupted interrupted p r) ->
  exists fl' w',
    run_fit_continuum interrupted lowess_fit hdr data snr_cont fn_list p suffix
      (Some start) (Some (Z.of_nat (NAXIS1 hdr) - 1)) lowess w = (Ok fl', w') /\
    run_fit_continuum interrupted lowess_fit hdr data snr_cont fn_list p suffix
      (Some start) (Some stop) lowess w = (Raise IndexError, w') /\
    forall r, start <= r < Z.of_nat (NAXIS1 hdr) ->
      files w' !! row_file p (cont_prefix p suffix lowess) r
      = Some (PklConts
                (map lowess_fit
                   (cont_specs hdr data snr_cont (snr_min p lowess)
                      (snr_max p lowess) (Z.to_nat r)))).
Proof.
  intros Hstart Hstop Hy Hun.
  eexists _, _. split_and!.
  - apply (run_fit_continuum_ok interrupted lowess_fit hdr data snr_cont p suffix
             fn_list (Some start) (Some (Z.of_nat (NAXIS1 hdr) - 1)) w);
      unfold first_row, last_row; simpl; try lia.
    intros r _. apply Hun.
  - unfold run_fit_continuum. simpl.
    rewrite linspace_rows_between by lia.
    rewrite (rows_between_split start (Z.of_nat (NAXIS1 hdr)) stop) by lia.
    rewrite for_rows_app, cont_rows_ok.
    + rewrite rows_between_cons by lia. cbn [for_rows].
      rewrite cont_fit_row_beyond by (first [lia | assumption]). reflexivity.
    + intros r Hr. apply elem_of_rows_between in Hr. split; [lia | apply Hun].
  - intros r Hr. unfold first_row, last_row. simpl.
    apply (files_cont_rows lowess_fit hdr data snr_cont p suffix); lia.
Qed.

Lemma rows_past_the_end_raise_witness :
  exists fl' w',
    run_fit_continuum (fun _ => false) (fun s => s) ex_hdr ex_data ex_snr ∅
      ex_params "run" (Some 1) (Some (2 - 1)) lowess empty_world = (Ok fl', w') /\
    run_fit_continuum (fun _ => false) (fun s => s) ex_hdr ex_data ex_snr ∅
      ex_params "run" (Some 1) (Some 5) lowess empty_world
    = (Raise IndexError, w').
Proof.
  destruct (rows_past_the_end_raise (fun _ => false) (fun s => s) ex_hdr ex_data
              ex_snr ∅ ex_params "run" 1 5 empty_world)
    as (fl' & w' & H1 & H2 & _).
  - simpl. lia.
  - simpl. lia.
  - simpl. lia.
  - intros r. right. reflexivity.
  - exists fl', w'. split; [exact H1 | exact H2].
Defined.

(** X6: a range with [end_row = start_row - 1] fits no row and touches no file.
    The continuum stage still records the prefix of its pickles in [fn_list]
    (lines 257-258, after the loop); the emission-line stage records it inside
    the loop (line 484) and so returns [fn_list] as it was, and an assembly
    that finds no ['elines_pickle'] entry raises KeyError as soon as the cube
    has a row.  A range with [end_row < start_row - 1] raises ValueError in
    both stages. *)
Theorem degenerate_row_ranges
    (interrupted : Z -> bool) (lowess_fit : list float -> list float)
    (els_mpfit : list float * list float -> mpfit)
    (els_spec : list float -> list float)
    (obs_sigma : image -> image -> image * image * float -> image * image)
    (c : float)
    (hdr : header) (data error data' : cube) (snr_cont snr_elines : image)
    (cont_lowess : option cube) (fn_list : gmap string string) (p : params)
    (suffix : string) (m : method) (a b : Z) (w : world)
    (fs : gmap string pickle) :
  subtract_continuum hdr snr_cont cont_lowess (which_cont_sub p) data = Ok data' ->
  fn_list !! "elines_pickle" = None ->
  (0 < NAXIS1 hdr)%nat ->
  b < a - 1 ->
  run_fit_continuum interrupted lowess_fit hdr data snr_cont fn_list p suffix
    (Some a) (Some (a - 1)) m w
  = (Ok (<[method_name m +:+ "_pickle" := cont_prefix p suffix m]> fn_list), w) /\
  run_fit_elines interrupted els_mpfit hdr data error snr_cont snr_elines
    cont_lowess fn_list p suffix (Some a) (Some (a - 1)) w
  = (Ok fn_list, w) /\
  run_make_elines_cube els_spec obs_sigma c hdr data fn_list p fs
  = Raise (KeyError "elines_pickle") /\
  run_fit_continuum interrupted lowess_fit hdr data snr_cont fn_list p suffix
    (Some a) (Some b) m w
  = (Raise ValueError, w) /\
  run_fit_elines interrupted els_mpfit hdr data error snr_cont snr_elines
    cont_lowess fn_list p suffix (Some a) (Some b) w
  = (Raise ValueError, w).
Proof.
  intros Hsub Hkey Hrows Hab.
  assert (Hempty : linspace_rows a (a - 1) = Ok []).
  { rewrite linspace_rows_between by lia. unfold rows_between.
    replace (a - 1 - a + 1) with 0 by lia. reflexivity. }
  assert (Hneg : linspace_rows a b = Raise ValueError).
  { unfold linspace_rows. destruct (Z.ltb_spec (b - a + 1) 0); [reflexivity | lia]. }
  split_and!.
  - unfold run_fit_continuum. simpl. rewrite Hempty. reflexivity.
  - unfold run_fit_elines. rewrite Hsub. simpl. rewrite Hempty. reflexivity.
  - unfold run_make_elines_cube, elines_assemble.
    destruct (NAXIS1 hdr) as [|n]; [lia|].
    simpl. unfold elines_assemble_row at 1. rewrite Hkey. reflexivity.
  - unfold run_fit_continuum. simpl. rewrite Hneg. reflexivity.
  - unfold run_fit_elines. rewrite Hsub. simpl. rewrite Hneg. reflexivity.
Qed.

Lemma degenerate_row_ranges_witness :
  run_fit_elines (fun _ => false)
    (fun se => {| mp_params := fst se; mp_perror := snd se; mp_status := 1 |})
    ex_hdr ex_data ex_error ex_snr ex_snr None ∅ ex_params "run"
    (Some 0) (Some (0 - 1)) empty_world
  = (Ok ∅, empty_world) /\
  run_make_elines_cube ex_els_spec ex_obs_sigma ex_c ex_hdr ex_data ∅ ex_params ∅
  = Raise (KeyError "elines_pickle").
Proof.
  destruct (degenerate_row_ranges (fun _ => false) (fun s => s)
              (fun se => {| mp_params := fst se; mp_perror := snd se;
                            mp_status := 1 |})
              ex_els_spec ex_obs_sigma ex_c ex_hdr ex_data ex_error ex_data
              ex_snr ex_snr None ∅ ex_params "run" lowess 0 (-5) empty_world ∅)
    as (_ & H2 & H3 & _).
  - reflexivity.
  - reflexivity.
  - simpl. lia.
  - lia.
  - split; [exact H2 | exact H3].
Defined.

(** ** Negative rows *)

Section NegativeRows.

Lemma digits_value_minus (s : string) : digits_value (String "-"%char s) = None.
Proof.
  unfold digits_value. simpl. destruct (NilEmpty.uint_of_string s); reflexivity.
Qed.

Lemma zfill_negative (w : nat) (z : Z) :
  z < 0 -> exists rest, zfill w (py_str z) = String "-"%char rest.
Proof.
  intros Hz. destruct z as [|q|q]; try lia.
  unfold py_str.
  change (Z.to_int (Z.neg q)) with (Decimal.Neg (Pos.to_uint q)).
  unfold NilZero.string_of_int, zfill. simpl. eauto.
Qed.

(** The pickle of a negative row has a name no row counted from zero has. *)
Lemma row_file_negative (p : params) (prefix : string) (z r : Z) :
  z < 0 -> 0 <= r -> row_file p prefix z <> row_file p prefix r.
Proof.
  intros Hz Hr E. unfold row_file in E.
  destruct (zfill_negative 4 z Hz) as [rest Hneg].
  destruct (zfill_digits 4 r Hr) as [V A].
  apply path_join_inj in E.
  - apply append_inj_l in E.
    rewrite <- E, Hneg, digits_value_minus in V. discriminate.
  - rewrite Hneg. reflexivity.
  - apply A.
  - rewrite Hneg. discriminate.
  - apply A.
Qed.

End NegativeRows.

(** X7: a negative row counts from the end, as numpy indexes: the run fits the
    column [NAXIS1 - k] for the row [-k], but writes it under the name of the
    row [-k], which is the name of no row the assembly looks for; the cube
    assembled afterwards has nothing of it. *)
Theorem negative_row_is_fitted_but_never_assembled
    (interrupted : Z -> bool) (lowess_fit : list float -> list float)
    (hdr : header) (data : cube) (snr_cont : image)
    (fn_list : gmap string string) (p : params) (suffix : string)
    (k : Z) (w : world) :
  0 < k <= Z.of_nat (NAXIS1 hdr) ->
  uninterrupted interrupted p (- k) ->
  exists w',
    run_fit_continuum interrupted lowess_fit hdr data snr_cont fn_list p suffix
      (Some (- k)) (Some (- k)) lowess w
    = (Ok (<["lowess_pickle" := cont_prefix p suffix lowess]> fn_list), w') /\
    files w'
    = <[row_file p (cont_prefix p suffix lowess) (- k) :=
          PklConts (map lowess_fit
                      (cont_specs hdr data snr_cont (snr_min p lowess)
                         (snr_max p lowess) (Z.to_nat (Z.of_nat (NAXIS1 hdr) - k))))]>
        (files w) /\
    (forall r, 0 <= r ->
       files w' !! row_file p (cont_prefix p suffix lowess) r
       = files w !! row_file p (cont_prefix p suffix lowess) r) /\
    run_make_continuum_cube hdr
      (<["lowess_pickle" := cont_prefix p suffix lowess]> fn_list) p lowess (files w')
    = run_make_continuum_cube hdr
        (<["lowess_pickle" := cont_prefix p suffix lowess]> fn_list) p lowess (files w).
Proof.
  intros Hk Hun. unfold run_fit_continuum. simpl.
  rewrite linspace_rows_between by lia.
  rewrite rows_between_cons by lia.
  replace (rows_between (- k + 1) (- k)) with (@nil Z)
    by (unfold rows_between; replace (- k - (- k + 1) + 1) with 0 by lia;
        reflexivity).
  cbn [for_rows]. unfold cont_fit_row, cont_row_inputs.
  rewrite py_index_negative by exact Hk.
  unfold cont_fit_func. rewrite dispatch_ok by exact Hun.
  eexists. split; [reflexivity|].
  assert (Hother : forall r, 0 <= r ->
            (<[row_file p (cont_prefix p suffix lowess) (- k) :=
                 PklConts (map lowess_fit
                             (cont_specs hdr data snr_cont (snr_min p lowess)
                                (snr_max p lowess)
                                (Z.to_nat (Z.of_nat (NAXIS1 hdr) - k))))]>
               (files w)) !! row_file p (cont_prefix p suffix lowess) r
            = files w !! row_file p (cont_prefix p suffix lowess) r).
  { intros r Hr. apply lookup_insert_ne, row_file_negative; lia. }
  assert (Hfiles : files (dump
                     (if mp_on (multiprocessing p)
                      then log (log w [PoolCreate (mp_processes (multiprocessing p))])
                             [PoolMap (- k); PoolClose; PoolJoin]
                      else w)
                     (row_file p (cont_prefix p suffix lowess) (- k))
                     (PklConts (map lowess_fit
                        (cont_specs hdr data snr_cont (snr_min p lowess)
                           (snr_max p lowess)
                           (Z.to_nat (Z.of_nat (NAXIS1 hdr) - k))))))
                   = <[row_file p (cont_prefix p suffix lowess) (- k) :=
                         PklConts (map lowess_fit
                           (cont_specs hdr data snr_cont (snr_min p lowess)
                              (snr_max p lowess)
                              (Z.to_nat (Z.of_nat (NAXIS1 hdr) - k))))]>
                       (files w)).
  { destruct (mp_on _); reflexivity. }
  rewrite Hfiles. split_and!; [reflexivity | exact Hother |].
  unfold run_make_continuum_cube.
  generalize nan_cube. induction (seq 0 (NAXIS1 hdr)) as [|r rows IH]; intros cb;
    [reflexivity|].
  cbn [for_each].
  replace (cont_assemble_row hdr
             (<["lowess_pickle" := cont_prefix p suffix lowess]> fn_list) p lowess
             (<[row_file p (cont_prefix p suffix lowess) (- k) :=
                  PklConts (map lowess_fit
                    (cont_specs hdr data snr_cont (snr_min p lowess)
                       (snr_max p lowess)
                       (Z.to_nat (Z.of_nat (NAXIS1 hdr) - k))))]> (files w)) r cb)
    with (cont_assemble_row hdr
            (<["lowess_pickle" := cont_prefix p suffix lowess]> fn_list) p lowess
            (files w) r cb).
  - destruct (cont_assemble_row _ _ _ _ (files w) r cb); simpl;
      [apply IH | reflexivity | reflexivity].
  - unfold cont_assemble_row.
    change (method_name lowess +:+ "_pickle") with "lowess_pickle".
    rewrite lookup_insert_eq, (Hother (Z.of_nat r)) by lia. reflexivity.
Qed.

Lemma negative_row_is_fitted_but_never_assembled_witness :
  exists w',
    run_fit_continuum (fun _ => false) (fun s => s) ex_hdr ex_data ex_snr ∅
      ex_params "run" (Some (- 1)) (Some (- 1)) lowess empty_world
    = (Ok (<["lowess_pickle" := cont_prefix ex_params "run" lowess]> ∅), w') /\
    forall r, 0 <= r ->
      files w' !! row_file ex_params (cont_prefix ex_params "run" lowess) r = None.
Proof.
  destruct (negative_row_is_fitted_but_never_assembled (fun _ => false)
              (fun s => s) ex_hdr ex_data ex_snr ∅ ex_params "run" 1 empty_world)
    as (w' & Hrun & _ & Hother & _).
  - simpl. lia.
  - right. reflexivity.
  - exists w'. split; [exact Hrun|]. intros r Hr. rewrite (Hother r Hr).
    reflexivity.
Defined.

(** ** The emission-line stage, from the fits to the maps *)

Section ElinesPipeline.

Variables (els_mpfit : list float * list float -> mpfit)
          (els_spec : list float -> list float).
Variables (hdr : header) (p : params).

(** What the assembly needs of the fitting routines: a parameter vector of six
    entries per line from every fit, as many uncertainties from a fit that
    converged, and a model spectrum of the length of the wavelength axis. *)
Hypothesis params_length :
  forall se, length (mp_params (els_mpfit se)) = (6 * nlines p)%nat.
Hypothesis perror_length :
  forall se, converged (mp_status (els_mpfit se)) = true ->
             length (mp_perror (els_mpfit se)) = (6 * nlines p)%nat.
Hypothesis els_spec_length :
  forall ps, length ps = (6 * nlines p)%nat -> length (els_spec ps) = NAXIS3 hdr.

Lemma length_nan_like (v : list float) : length (np.nan_like v) = length v.
Proof. unfold np.nan_like. apply length_map. Qed.

Lemma row_ps_lengths (inputs : list (list float * list float)) (v : list float) :
  In v (row_ps (map els_mpfit inputs)) -> length v = (6 * nlines p)%nat.
Proof.
  assert (Hms : forall item, In item (map els_mpfit inputs) ->
                  length (mp_params item) = (6 * nlines p)%nat).
  { intros item Hitem. apply in_map_iff in Hitem as (se & <- & _).
    apply params_length. }
  revert Hms. generalize (map els_mpfit inputs). intros [|m0 ms] Hms; [intros []|].
  unfold row_ps. intros Hv. apply in_map_iff in Hv as (item & <- & Hitem).
  destruct (negb (converged (mp_status item))).
  - rewrite length_nan_like. apply Hms. left. reflexivity.
  - apply Hms, Hitem.
Qed.

Lemma row_errs_lengths (inputs : list (list float * list float)) (v : list float) :
  In v (row_errs (map els_mpfit inputs)) -> length v = (6 * nlines p)%nat.
Proof.
  unfold row_errs.
  destruct (row_ps (map els_mpfit inputs)) as [|p0 ps] eqn:Hps; [intros []|].
  intros Hv. apply in_map_iff in Hv as (item & <- & Hitem).
  destruct (converged (mp_status item)) eqn:Hc; simpl.
  - rewrite length_map. apply in_map_iff in Hitem as (se & <- & _).
    apply perror_length, Hc.
  - rewrite length_nan_like. apply (row_ps_lengths inputs). rewrite Hps. left.
    reflexivity.
Qed.

Lemma length_row_ps (ms : list mpfit) : length (row_ps ms) = length ms.
Proof. destruct ms; [reflexivity|]. unfold row_ps. apply length_map. Qed.

Lemma length_row_errs (ms : list mpfit) : length (row_errs ms) = length ms.
Proof.
  unfold row_errs. destruct (row_ps ms) eqn:Hps.
  - rewrite <- (length_row_ps ms), Hps. reflexivity.
  - apply length_map.
Qed.

(** The pickle of a row of fits has the shapes the assembly asks for. *)
Lemma fits_well_formed (inputs : list (list float * list float)) :
  length inputs = NAXIS2 hdr ->
  row_well_formed els_spec hdr p (map els_mpfit inputs).
Proof.
  intros Hlen. unfold row_well_formed, rectangular. split_and!.
  - apply andb_true_intro. split.
    + apply Nat.eqb_eq. rewrite length_row_ps, length_map. exact Hlen.
    + apply forallb_forall. intros v Hv. apply Nat.eqb_eq.
      apply (row_ps_lengths inputs), Hv.
  - apply andb_true_intro. split.
    + apply Nat.eqb_eq. rewrite length_row_errs, length_map. exact Hlen.
    + apply forallb_forall. intros v Hv. apply Nat.eqb_eq.
      apply (row_errs_lengths inputs), Hv.
  - rewrite length_map. exact Hlen.
  - apply andb_true_intro. split.
    + apply Nat.eqb_eq. rewrite length_map, length_row_ps, length_map. exact Hlen.
    + apply forallb_forall. intros v Hv. apply Nat.eqb_eq.
      apply in_map_iff in Hv as (ps & <- & Hps).
      apply els_spec_length, (row_ps_lengths inputs), Hps.
Qed.

End ElinesPipeline.

(** X8: the emission-line stage run in two chunks, rows [0, k) and then from
    row [k] on, leaves the files of one run over all the rows and the same
    [fn_list]; the cubes assembled from them exist, and the spaxel [(y, r)]
    of the status map holds the status of the fit of that spaxel's own
    (gated, continuum-subtracted) spectrum, its parameter slots other than
    the flux slots the parameters of that fit when it converged. *)
Theorem elines_chunks_and_maps
    (interrupted : Z -> bool) (els_mpfit : list float * list float -> mpfit)
    (els_spec : list float -> list float)
    (obs_sigma : image -> image -> image * image * float -> image * image)
    (c : float)
    (hdr : header) (data0 error data : cube) (snr_cont snr_elines : image)
    (cont_lowess : option cube) (fn_list : gmap string string) (p : params)
    (suffix : string) (w0 : world) (k : Z) :
  subtract_continuum hdr snr_cont cont_lowess (which_cont_sub p) data0 = Ok data ->
  (forall se, length (mp_params (els_mpfit se)) = (6 * nlines p)%nat) ->
  (forall se, converged (mp_status (els_mpfit se)) = true ->
              length (mp_perror (els_mpfit se)) = (6 * nlines p)%nat) ->
  (forall ps, length ps = (6 * nlines p)%nat -> length (els_spec ps) = NAXIS3 hdr) ->
  (forall r, uninterrupted interrupted p r) ->
  0 <= k < Z.of_nat (NAXIS1 hdr) ->
  exists fl1 w1 w2 fl w out,
    run_fit_elines interrupted els_mpfit hdr data0 error snr_cont snr_elines
      cont_lowess fn_list p suffix (Some 0) (Some (k - 1)) w0 = (Ok fl1, w1) /\
    run_fit_elines interrupted els_mpfit hdr data0 error snr_cont snr_elines
      cont_lowess fl1 p suffix (Some k) None w1 = (Ok fl, w2) /\
    run_fit_elines interrupted els_mpfit hdr data0 error snr_cont snr_elines
      cont_lowess fn_list p suffix None None w0 = (Ok fl, w) /\
    files w2 = files w /\
    run_make_elines_cube els_spec obs_sigma c hdr data0 fl p (files w) = Ok out /\
    forall y r se, (r < NAXIS1 hdr)%nat ->
      elines_specerrs hdr data error snr_elines (elines_snr_min p)
        (elines_snr_max p) r !! y = Some se ->
      elines_fit_status out y r = float_of_Z (mp_status (els_mpfit se)) /\
      (converged (mp_status (els_mpfit se)) = true ->
       forall j, (forall n, (n < nlines p)%nat -> j <> (6 * n)%nat) ->
         elines_params_cube out j y r = nth j (mp_params (els_mpfit se)) np.nan /\
         elines_params_err out j y r
         = nth j (map np.square (mp_perror (els_mpfit se))) np.nan).
Proof.
  intros Hsub Hpar Herr Hspec Hun Hk.
  set (fn := elines_fn p suffix).
  set (art := elines_artifact els_mpfit hdr data error snr_elines p).
  set (fl := <["elines_pickle" := elines_prefix p suffix]> fn_list).
  set (w1 := rows_done p fn art (rows_between 0 (k - 1)) w0).
  set (w := rows_done p fn art (rows_between 0 (Z.of_nat (NAXIS1 hdr) - 1)) w0).
  assert (Hw : rows_done p fn art (rows_between k (Z.of_nat (NAXIS1 hdr) - 1)) w1
               = w).
  { subst w w1. rewrite (rows_between_split 0 k (Z.of_nat (NAXIS1 hdr) - 1)) by lia.
    rewrite rows_done_app. reflexivity. }
  assert (Hfile : forall r, (r < NAXIS1 hdr)%nat ->
            files w !! row_file p (elines_prefix p suffix) (Z.of_nat r)
            = Some (PklFits (map els_mpfit
                      (elines_specerrs hdr data error snr_elines (elines_snr_min p)
                         (elines_snr_max p) r)))).
  { intros r Hr. subst w. change (row_file p (elines_prefix p suffix) (Z.of_nat r))
      with (fn (Z.of_nat r)).
    rewrite files_rows_done.
    - rewrite decide_True by (apply elem_of_rows_between; lia).
      subst art. unfold elines_artifact. rewrite Nat2Z.id. reflexivity.
    - intros r1 r2. apply row_file_inj.
    - intros r' Hr'. apply elem_of_rows_between in Hr'. lia.
    - lia. }
  assert (Hnonempty : forall a, a <= Z.of_nat (NAXIS1 hdr) - 1 ->
            forall fl0,
              elines_fn_list_after p suffix
                (rows_between a (Z.of_nat (NAXIS1 hdr) - 1)) fl0
              = <["elines_pickle" := elines_prefix p suffix]> fl0).
  { intros a Ha fl0. rewrite rows_between_cons by lia. reflexivity. }
  assert (Hasm : exists cubes,
            elines_assemble els_spec hdr data0 fl p (files w) = Ok cubes).
  { apply (elines_assemble_ok els_spec hdr data0 fl p (files w)
             (elines_prefix p suffix)).
    - apply lookup_insert_eq.
    - intros r Hr. right. eexists. split; [apply Hfile, Hr|].
      apply fits_well_formed; try assumption. apply length_elines_specerrs. }
  destruct Hasm as [cubes Hcubes].
  destruct (run_make_elines_cube_ok els_spec obs_sigma c hdr data0 fl p (files w)
              cubes Hcubes) as [out Hout].
  exists (elines_fn_list_after p suffix (rows_between 0 (k - 1)) fn_list),
         w1, w, fl, w, out.
  split_and!.
  - rewrite (run_fit_elines_ok interrupted els_mpfit hdr data0 error snr_cont
               snr_elines cont_lowess p suffix data Hsub);
      [reflexivity | unfold first_row, last_row; simpl; try lia ..].
    intros r _. apply Hun.
  - rewrite (run_fit_elines_ok interrupted els_mpfit hdr data0 error snr_cont
               snr_elines cont_lowess p suffix data Hsub);
      [| unfold first_row, last_row; simpl; try lia ..].
    + unfold first_row, last_row. simpl. fold fn art. rewrite Hw.
      rewrite Hnonempty by lia. f_equal. f_equal.
      destruct (rows_between 0 (k - 1)); simpl; [reflexivity|].
      subst fl. apply insert_insert_eq.
    + intros r _. apply Hun.
  - rewrite (run_fit_elines_ok interrupted els_mpfit hdr data0 error snr_cont
               snr_elines cont_lowess p suffix data Hsub);
      [| unfold first_row, last_row; simpl; try lia ..].
    + unfold first_row, last_row. simpl. rewrite Hnonempty by lia. reflexivity.
    + intros r _. apply Hun.
  - reflexivity.
  - exact Hout.
  - intros y r se Hr Hse.
    destruct (run_make_elines_cube_inv els_spec obs_sigma c hdr data0 fl p (files w)
                out Hout) as (cubes' & Hcubes' & Hst & _ & Hrest).
    rewrite Hcubes in Hcubes'. injection Hcubes' as <-.
    destruct (elines_assemble_column els_spec hdr data0 fl p (files w)
                (elines_prefix p suffix) _ cubes y r (els_mpfit se) Hcubes Hr
                (lookup_insert_eq _ _ _) (Hfile r Hr))
      as (Hs & _ & Hgood).
    { rewrite list_lookup_fmap, Hse. reflexivity. }
    split; [rewrite Hst; exact Hs|].
    intros Hc j Hj. cbn [fst snd] in Hrest.
    destruct (Hrest j y r Hj) as [HP HE]. rewrite HP, HE. apply (Hgood Hc j).
Qed.

Lemma elines_chunks_and_maps_witness :
  exists fl1 w1 w2 fl w out,
    run_fit_elines (fun _ => false)
      (fun se => {| mp_params := [1; 2; 3; 4; 5; 6]%float;
                    mp_perror := [1; 1; 1; 1; 1; 1]%float; mp_status := 1 |})
      ex_hdr ex_data ex_error ex_snr ex_snr None ∅ ex_params "run"
      (Some 0) (Some (1 - 1)) empty_world = (Ok fl1, w1) /\
    run_fit_elines (fun _ => false)
      (fun se => {| mp_params := [1; 2; 3; 4; 5; 6]%float;
                    mp_perror := [1; 1; 1; 1; 1; 1]%float; mp_status := 1 |})
      ex_hdr ex_data ex_error ex_snr ex_snr None fl1 ex_params "run"
      (Some 1) None w1 = (Ok fl, w2) /\
    files w2 = files w /\
    run_make_elines_cube (fun _ => [0; 0; 0]%float) ex_obs_sigma ex_c ex_hdr
      ex_data fl ex_params (files w) = Ok out /\
    elines_fit_status out 1%nat 1%nat = 1%float.
Proof.
  destruct (elines_chunks_and_maps (fun _ => false)
              (fun se => {| mp_params := [1; 2; 3; 4; 5; 6]%float;
                            mp_perror := [1; 1; 1; 1; 1; 1]%float;
                            mp_status := 1 |})
              (fun _ => [0; 0; 0]%float) ex_obs_sigma ex_c ex_hdr ex_data
              ex_error ex_data ex_snr ex_snr None ∅ ex_params "run"
              empty_world 1)
    as (fl1 & w1 & w2 & fl & w & out & H1 & H2 & _ & Hf & Hout & Hmap).
  - reflexivity.
  - intros se. reflexivity.
  - intros se _. reflexivity.
  - intros ps _. reflexivity.
  - intros r. right. reflexivity.
  - simpl. lia.
  - exists fl1, w1, w2, fl, w, out. split_and!; try assumption.
    destruct (Hmap 1%nat 1%nat
                (elines_specerrs ex_hdr ex_data ex_error ex_snr
                   (elines_snr_min ex_params) (elines_snr_max ex_params) 1
                 !!! 1%nat)) as [Hs _].
    + simpl. lia.
    + reflexivity.
    + exact Hs.
Defined.

(** ** Spaxels no aperture reaches, and the centres of the apertures *)

Section ApertureCoverage.

Variables (ny nx : nat) (data error : cube) (aps : list aperture).

(** A spaxel without number holds what the cubes held before the loop. *)
Definition unclaimed_untouched (st : ap_state) : Prop :=
  forall py px l, ap_map st py px = None ->
    ap_spec_cube st l py px = nan_cube l py px /\
    ap_spec_err st l py px = nan_cube l py px.

Lemma unclaimed_step (i0 ind : nat) (st : ap_state) :
  unclaimed_untouched st ->
  unclaimed_untouched (ap_step ny nx data error aps i0 ind st).
Proof.
  intros Hst py px l. unfold ap_step. cbn [ap_map ap_spec_cube ap_spec_err].
  intros Hnone. rewrite !fold_set_spaxel.
  assert (Hout : (py, px) ∉
            members ny nx (claim_spaxels (nth ind aps (0, 0, 0)) i0 (ap_map st)) i0).
  { intros Hin. apply elem_of_members in Hin as [Hsome _].
    rewrite Hnone in Hsome. discriminate. }
  rewrite !decide_False by exact Hout.
  apply Hst. destruct (ap_map st py px) as [j|] eqn:Hj; [|reflexivity].
  rewrite (claim_spaxels_keeps _ _ _ _ _ _ Hj) in Hnone. discriminate.
Qed.

Lemma unclaimed_loop (order : list nat) (i0 : nat) (st : ap_state) :
  unclaimed_untouched st ->
  unclaimed_untouched (ap_loop ny nx data error aps i0 order st).
Proof.
  revert i0 st. induction order as [|ind order IH]; intros i0 st Hst; [exact Hst|].
  simpl. apply IH, unclaimed_step, Hst.
Qed.

End ApertureCoverage.

(** X9: the spaxels outside every aperture are nan (the docstring of
    [run_make_ap_cube]): a spaxel has no number in the aperture map exactly
    when no disk of the list holds it, and then every sample of its two
    output spectra is nan; a number in the map is a rank below the number of
    apertures. *)
Theorem spaxels_outside_every_aperture
    (ny nx : nat) (flux : image) (data error : cube) (aps : list aperture)
    (st : ap_state) (py px : nat) :
  run_make_ap_cube ny nx flux data error aps = Ok st ->
  (ap_map st py px = None <->
   forall j, (j < length aps)%nat -> in_ap (nth j aps (0, 0, 0)) py px = false) /\
  (ap_map st py px = None ->
   forall l, ap_spec_cube st l py px = np.nan /\ ap_spec_err st l py px = np.nan) /\
  (forall i, ap_map st py px = Some i -> (i < length aps)%nat).
Proof.
  intros Hrun. unfold run_make_ap_cube in Hrun.
  destruct (peak_fluxes ny nx flux aps) as [fs| |] eqn:Hpeaks; try discriminate.
  simpl in Hrun. injection Hrun as <-.
  pose proof (length_peak_fluxes ny nx flux aps fs Hpeaks) as Hlen.
  assert (Hperm : sort_index fs ≡ₚ seq 0 (length aps))
    by (rewrite <- Hlen; apply sort_index_perm).
  assert (Hmap : ap_map (ap_loop ny nx data error aps 0 (sort_index fs) ap_init) py px
                 = first_cover aps (sort_index fs) py px).
  { rewrite ap_loop_map. simpl. destruct (first_cover _ _ _ _); reflexivity. }
  split_and!.
  - rewrite Hmap, first_cover_None. split.
    + intros H j Hj. apply H. rewrite Hperm. apply elem_of_seq. lia.
    + intros H ind Hind. apply H. rewrite Hperm in Hind.
      apply elem_of_seq in Hind. lia.
  - intros Hnone l.
    destruct (unclaimed_loop ny nx data error aps (sort_index fs) 0 ap_init)
      with (py := py) (px := px) (l := l) as [Hc He].
    + intros ? ? ? _. split; reflexivity.
    + exact Hnone.
    + rewrite Hc, He. unfold nan_cube. rewrite mul_nan_r. split; reflexivity.
  - intros i Hi. rewrite Hmap in Hi.
    apply first_cover_Some in Hi as (ind & Hind & _).
    apply lookup_lt_Some in Hind. rewrite Hperm, length_seq in Hind. exact Hind.
Qed.

Lemma spaxels_outside_every_aperture_witness :
  exists st,
    run_make_ap_cube 1 3 spec_flux ex_data ex_error [(0, 0, 0)] = Ok st /\
    ap_map st 0%nat 2%nat = None /\
    ap_spec_cube st 1%nat 0%nat 2%nat = np.nan.
Proof.
  exists (ap_loop 1 3 ex_data ex_error [(0, 0, 0)] 0 (sort_index [5%float]) ap_init).
  destruct (spaxels_outside_every_aperture 1 3 spec_flux ex_data ex_error
              [(0, 0, 0)]
              (ap_loop 1 3 ex_data ex_error [(0, 0, 0)] 0 (sort_index [5%float])
                 ap_init) 0 2 eq_refl) as (Hiff & Hnan & _).
  assert (Hnone : ap_map (ap_loop 1 3 ex_data ex_error [(0, 0, 0)] 0
                            (sort_index [5%float]) ap_init) 0%nat 2%nat = None).
  { apply Hiff. intros [|j] Hj; [reflexivity | simpl in Hj; lia]. }
  split; [reflexivity|]. split; [exact Hnone|]. apply (Hnan Hnone 1%nat).
Defined.

(** The centre of an aperture as an index into the flux map: numpy counts a
    negative coordinate from the far edge. *)
Definition centre_in_map (ny nx : nat) (a : aperture) : Prop :=
  let '(x, y, _) := a in
  - Z.of_nat ny <= y < Z.of_nat ny /\ - Z.of_nat nx <= x < Z.of_nat nx.

Section ApertureCentres.

Variables (ny nx : nat) (flux : image).

Lemma py_index_Some (n : nat) (i : Z) :
  - Z.of_nat n <= i < Z.of_nat n ->
  py_index n i = Some (Z.to_nat (i mod Z.of_nat n)).
Proof.
  intros Hi. unfold py_index.
  destruct (Z.leb_spec 0 i) as [H0 | H0]; simpl.
  - destruct (Z.ltb_spec i (Z.of_nat n)); [|lia]. rewrite Z.mod_small by lia.
    reflexivity.
  - destruct (Z.ltb_spec i (Z.of_nat n)); simpl;
      (destruct (Z.leb_spec (- Z.of_nat n) i); [|lia]);
      (destruct (Z.ltb_spec i 0); [|lia]); simpl;
      rewrite <- (Z.mod_add i 1 (Z.of_nat n)) by lia;
      rewrite Z.mod_small by lia; f_equal; lia.
Qed.

Lemma py_index_None (n : nat) (i : Z) :
  ~ (- Z.of_nat n <= i < Z.of_nat n) -> py_index n i = None.
Proof.
  intros Hi. unfold py_index.
  destruct (Z.leb_spec 0 i), (Z.ltb_spec i (Z.of_nat n)); simpl;
    try (destruct (Z.leb_spec (- Z.of_nat n) i), (Z.ltb_spec i 0); simpl);
    try reflexivity; lia.
Qed.

Lemma peak_fluxes_ok (aps : list aperture) :
  Forall (centre_in_map ny nx) aps ->
  peak_fluxes ny nx flux aps
  = Ok (map (fun a : aperture =>
               flux (Z.to_nat (a.1.2 mod Z.of_nat ny))
                    (Z.to_nat (a.1.1 mod Z.of_nat nx))) aps).
Proof.
  induction 1 as [|[[x y] r] aps [Hy Hx] _ IH]; [reflexivity|].
  simpl. rewrite (py_index_Some ny y Hy), (py_index_Some nx x Hx), IH.
  reflexivity.
Qed.

Lemma peak_fluxes_fails (aps : list aperture) :
  Exists (fun a => ~ centre_in_map ny nx a) aps ->
  peak_fluxes ny nx flux aps = Raise IndexError.
Proof.
  induction 1 as [[[x y] r] aps Hout | [[x y] r] aps _ IH]; simpl.
  - unfold centre_in_map in Hout.
    destruct (decide (- Z.of_nat ny <= y < Z.of_nat ny)) as [Hy | Hy].
    + rewrite (py_index_Some ny y Hy), (py_index_None nx x); [reflexivity|tauto].
    + rewrite (py_index_None ny y Hy). reflexivity.
  - rewrite IH. destruct (py_index ny y), (py_index nx x); reflexivity.
Qed.

End ApertureCentres.

(** X10: [run_make_ap_cube] gets through exactly when the centre of every
    aperture indexes the flux map, a negative coordinate counting from the far
    edge; otherwise it raises IndexError.  The peak that ranks an aperture is
    the flux at that index, so for a negative coordinate the flux at the
    opposite edge of the map, while the disk is drawn around the coordinate as
    it is. *)
Theorem aperture_centres_index_the_flux_map
    (ny nx : nat) (flux : image) (data error : cube) (aps : list aperture) :
  ((exists st, run_make_ap_cube ny nx flux data error aps = Ok st) <->
   Forall (centre_in_map ny nx) aps) /\
  (run_make_ap_cube ny nx flux data error aps = Raise IndexError <->
   ~ Forall (centre_in_map ny nx) aps) /\
  (forall fs j x y r,
     peak_fluxes ny nx flux aps = Ok fs -> aps !! j = Some (x, y, r) ->
     fs !! j = Some (flux (Z.to_nat (y mod Z.of_nat ny))
                          (Z.to_nat (x mod Z.of_nat nx)))) /\
  (forall x y r py px,
     in_ap (x, y, r) py px = true ->
     (Z.of_nat px - x) ^ 2 + (Z.of_nat py - y) ^ 2 <= r ^ 2).
Proof.
  assert (Hdec : forall a, Decision (centre_in_map ny nx a)).
  { intros [[x y] r]. unfold centre_in_map. apply _. }
  assert (Hcases : Forall (centre_in_map ny nx) aps \/
                   Exists (fun a => ~ centre_in_map ny nx a) aps).
  { destruct (decide (Forall (centre_in_map ny nx) aps)) as [H | H];
      [left; exact H | right; apply not_Forall_Exists; [exact Hdec | exact H]]. }
  split_and!.
  - split.
    + intros [st Hrun]. destruct Hcases as [H | H]; [exact H|].
      unfold run_make_ap_cube in Hrun.
      rewrite (peak_fluxes_fails ny nx flux aps H) in Hrun. discriminate.
    + intros H. unfold run_make_ap_cube.
      rewrite (peak_fluxes_ok ny nx flux aps H). simpl. eauto.
  - split.
    + intros Hrun H. unfold run_make_ap_cube in Hrun.
      rewrite (peak_fluxes_ok ny nx flux aps H) in Hrun. discriminate.
    + intros Hn. destruct Hcases as [H | H]; [contradiction|].
      unfold run_make_ap_cube.
      rewrite (peak_fluxes_fails ny nx flux aps H). reflexivity.
  - intros fs j x y r Hpeaks Hj.
    destruct Hcases as [H | H].
    + rewrite (peak_fluxes_ok ny nx flux aps H) in Hpeaks. injection Hpeaks as <-.
      rewrite list_lookup_fmap. unfold aperture in *. rewrite Hj. reflexivity.
    + rewrite (peak_fluxes_fails ny nx flux aps H) in Hpeaks. discriminate.
  - intros x y r py px Hin. unfold in_ap in Hin. apply Z.leb_le, Hin.
Qed.

(** ** The files a stage writes *)

Section CheckpointFamilies.

Lemma append_assoc (a b c : string) : (a +:+ b) +:+ c = a +:+ b +:+ c.
Proof.
  induction a as [|ch a IH]; [rewrite !append_nil_l; reflexivity|].
  rewrite !append_cons, IH. reflexivity.
Qed.

Variables (p : params) (suffix : string).

(** What the names of the three families share, and what tells them apart. *)
Definition family_stem : string := suffix +:+ "_" +:+ target p +:+ "_".

Definition family_tail (kind : string) (row : Z) : string :=
  kind +:+ "row_" +:+ zfill 4 (py_str row) +:+ ".pkl".

Lemma cont_row_file (m : method) (row : Z) :
  row_file p (cont_prefix p suffix m) row
  = path_join (tmp_loc p)
      (family_stem +:+ family_tail (method_name m +:+ "_") row).
Proof.
  unfold row_file, cont_prefix, family_stem, family_tail.
  rewrite !append_assoc. reflexivity.
Qed.

Lemma elines_row_file (row : Z) :
  row_file p (elines_prefix p suffix) row
  = path_join (tmp_loc p) (family_stem +:+ family_tail "" row).
Proof.
  unfold row_file, elines_prefix, family_stem, family_tail.
  rewrite !append_assoc, append_nil_l. reflexivity.
Qed.

Lemma family_tail_head (ch : ascii) (kind : string) (row : Z) :
  family_tail (String ch kind) row
  = String ch (kind +:+ "row_" +:+ zfill 4 (py_str row) +:+ ".pkl").
Proof. unfold family_tail. apply append_cons. Qed.

Lemma cont_elines_names (m : method) (r1 r2 : Z) :
  row_file p (cont_prefix p suffix m) r1 <> row_file p (elines_prefix p suffix) r2.
Proof.
  rewrite cont_row_file, elines_row_file. intros E.
  assert (Hr : family_tail "" r2
               = String "r" ("ow_" +:+ zfill 4 (py_str r2) +:+ ".pkl")).
  { unfold family_tail. rewrite append_nil_l. apply append_cons. }
  destruct m; cbv [method_name] in E; rewrite append_cons, family_tail_head in E;
    rewrite Hr in E; apply path_join_inj in E;
    try reflexivity; try discriminate.
Qed.

Lemma lowess_ppxf_names (r1 r2 : Z) :
  row_file p (cont_prefix p suffix lowess) r1
  <> row_file p (cont_prefix p suffix ppxf) r2.
Proof.
  rewrite !cont_row_file. intros E. cbv [method_name] in E.
  rewrite !append_cons, !family_tail_head in E.
  apply path_join_inj in E; try reflexivity; discriminate.
Qed.

End CheckpointFamilies.

Section StageFrames.

Variables (interrupted : Z -> bool) (lowess_fit : list float -> list float)
          (els_mpfit : list float * list float -> mpfit).
Variables (hdr : header) (p : params) (suffix : string).

Lemma for_rows_frame {S : Type} (body : Z -> S -> result unit * S)
    (I : S -> S -> Prop) :
  (forall s, I s s) ->
  (forall s1 s2 s3, I s1 s2 -> I s2 s3 -> I s1 s3) ->
  (forall row s, I s (body row s).2) ->
  forall rows s, I s (for_rows body rows s).2.
Proof.
  intros Hrefl Htrans Hbody rows. induction rows as [|row rows IH]; intros s.
  - apply Hrefl.
  - simpl. pose proof (Hbody row s) as Hstep.
    destruct (body row s) as [[[]| |] s']; simpl in *;
      [apply (Htrans _ _ _ Hstep), IH | exact Hstep | exact Hstep].
Qed.

Lemma dispatch_files {A B : Type} (fit : option (A -> B)) (msg : string)
    (row : Z) (inputs : list A) (w : world) :
  files (dispatch interrupted p fit msg row inputs w).2 = files w.
Proof.
  unfold dispatch.
  destruct (mp_on _), fit, (interrupted row); reflexivity.
Qed.

Lemma cont_fit_row_frame (data : cube) (snr_cont : image) (m : method)
    (name : string) (row : Z) (w : world) :
  (forall r, name <> row_file p (cont_prefix p suffix m) r) ->
  files (cont_fit_row interrupted lowess_fit hdr data snr_cont p suffix m row w).2
    !! name
  = files w !! name.
Proof.
  intros Hname. unfold cont_fit_row.
  destruct (cont_row_inputs _ _ _ _ _ _) as [specs| |]; try reflexivity.
  pose proof (dispatch_files (cont_fit_func lowess_fit m) cont_exit_msg row specs w)
    as Hd.
  destruct (dispatch _ _ _ _ _ _ _) as [[conts| |] w']; simpl in *;
    rewrite <- Hd; try reflexivity.
  apply lookup_insert_ne. intros E. apply (Hname row). symmetry. exact E.
Qed.

Lemma elines_fit_row_frame (data error : cube) (snr_elines : image)
    (name : string) (row : Z) (st : gmap string string * world) :
  (forall r, name <> row_file p (elines_prefix p suffix) r) ->
  files (elines_fit_row interrupted els_mpfit hdr data error snr_elines p suffix
           row st).2.2 !! name
  = files st.2 !! name.
Proof.
  intros Hname. unfold elines_fit_row. destruct st as [fl w].
  destruct (elines_row_inputs _ _ _ _ _ _ _) as [specerrs| |]; try reflexivity.
  pose proof (dispatch_files (Some els_mpfit) elines_exit_msg row specerrs w) as Hd.
  destruct (dispatch _ _ _ _ _ _ _) as [[els| |] w']; simpl in *;
    rewrite <- Hd; try reflexivity.
  apply lookup_insert_ne. intros E. apply (Hname row). symmetry. exact E.
Qed.

Lemma run_fit_continuum_frame (data : cube) (snr_cont : image)
    (fn_list : gmap string string) (m : method) (a b : option Z) (w : world)
    (name : string) :
  (forall r, name <> row_file p (cont_prefix p suffix m) r) ->
  files (run_fit_continuum interrupted lowess_fit hdr data snr_cont fn_list p
           suffix a b m w).2 !! name
  = files w !! name.
Proof.
  intros Hname. unfold run_fit_continuum. cbv zeta.
  destruct (linspace_rows _ _) as [rows| |]; try reflexivity.
  pose proof (for_rows_frame
                (cont_fit_row interrupted lowess_fit hdr data snr_cont p suffix m)
                (fun w1 w2 => files w2 !! name = files w1 !! name)) as Hloop.
  specialize (Hloop (fun _ => eq_refl)).
  specialize (Hloop (fun _ _ _ H1 H2 => eq_trans H2 H1)).
  specialize (Hloop (fun row s => cont_fit_row_frame data snr_cont m name row s Hname)
                rows w).
  destruct (for_rows _ _ _) as [[[]| |] w']; exact Hloop.
Qed.

Lemma run_fit_elines_frame (data error : cube) (snr_cont snr_elines : image)
    (cont_lowess : option cube) (fn_list : gmap string string) (a b : option Z)
    (w : world) (name : string) :
  (forall r, name <> row_file p (elines_prefix p suffix) r) ->
  files (run_fit_elines interrupted els_mpfit hdr data error snr_cont snr_elines
           cont_lowess fn_list p suffix a b w).2 !! name
  = files w !! name.
Proof.
  intros Hname. unfold run_fit_elines.
  destruct (subtract_continuum _ _ _ _ _) as [data'| |]; try reflexivity.
  cbv zeta. destruct (linspace_rows _ _) as [rows| |]; try reflexivity.
  pose proof (for_rows_frame
                (elines_fit_row interrupted els_mpfit hdr data' error snr_elines p
                   suffix)
                (fun s1 s2 => files s2.2 !! name = files s1.2 !! name)) as Hloop.
  specialize (Hloop (fun _ => eq_refl)).
  specialize (Hloop (fun _ _ _ H1 H2 => eq_trans H2 H1)).
  specialize (Hloop (fun row s =>
                       elines_fit_row_frame data' error snr_elines name row s Hname)
                rows (fn_list, w)).
  destruct (for_rows _ _ _) as [[[]| |] [fl' w']]; exact Hloop.
Qed.

End StageFrames.

(** X11: whatever its outcome (finished, interrupted, or stopped by an
    exception), a fitting stage touches no file but the row pickles of its own
    family, and the names of the three families (LOWESS, PPXF, emission lines)
    never meet for one [suffix] and one configuration: a run of one stage
    leaves every pickle of the other stage as it found it. *)
Theorem stages_keep_to_their_own_pickles
    (interrupted : Z -> bool) (lowess_fit : list float -> list float)
    (els_mpfit : list float * list float -> mpfit)
    (hdr : header) (data error : cube) (snr_cont snr_elines : image)
    (cont_lowess : option cube) (fn_list : gmap string string) (p : params)
    (suffix : string) (m : method) (a b : option Z) (w : world) :
  (forall name,
     (forall r, name <> row_file p (cont_prefix p suffix m) r) ->
     files (run_fit_continuum interrupted lowess_fit hdr data snr_cont fn_list p
              suffix a b m w).2 !! name
     = files w !! name) /\
  (forall name,
     (forall r, name <> row_file p (elines_prefix p suffix) r) ->
     files (run_fit_elines interrupted els_mpfit hdr data error snr_cont
              snr_elines cont_lowess fn_list p suffix a b w).2 !! name
     = files w !! name) /\
  (forall r,
     files (run_fit_continuum interrupted lowess_fit hdr data snr_cont fn_list p
              suffix a b m w).2 !! row_file p (elines_prefix p suffix) r
     = files w !! row_file p (elines_prefix p suffix) r) /\
  (forall m' r,
     files (run_fit_elines interrupted els_mpfit hdr data error snr_cont
              snr_elines cont_lowess fn_list p suffix a b w).2
       !! row_file p (cont_prefix p suffix m') r
     = files w !! row_file p (cont_prefix p suffix m') r) /\
  (forall r1 r2,
     row_file p (cont_prefix p suffix lowess) r1
     <> row_file p (cont_prefix p suffix ppxf) r2).
Proof.
  split_and!.
  - intros name. apply run_fit_continuum_frame.
  - intros name. apply run_fit_elines_frame.
  - intros r. apply run_fit_continuum_frame. intros r' E.
    apply (cont_elines_names p suffix m r' r). symmetry. exact E.
  - intros m' r. apply run_fit_elines_frame. intros r'.
    apply cont_elines_names.
  - apply lowess_ppxf_names.
Qed.

(** ** The worker pools of a run *)

(** The calls one finished row adds: with multiprocessing, a pool of its own,
    created, mapped over the row, closed and joined; then the dump of the
    row's pickle. *)
Definition row_calls (p : params) (fn : Z -> string) (row : Z) : list event :=
  (if mp_on (multiprocessing p)
   then [PoolCreate (mp_processes (multiprocessing p)); PoolMap row;
         PoolClose; PoolJoin]
   else [])
  ++ [PickleDump (fn row)].

(** The number of pools open after a sequence of calls, if no pool is closed
    that is not open and none is created while another is open. *)
Fixpoint pools_open (es : list event) (n : nat) : option nat :=
  match es with
  | [] => Some n
  | PoolCreate _ :: rest =>
      match n with
      | O => pools_open rest 1
      | S _ => None
      end
  | PoolClose :: rest =>
      match n with
      | O => None
      | S n' => pools_open rest n'
      end
  | _ :: rest => pools_open rest n
  end.

Section PoolCalls.

Variables (p : params) (fn : Z -> string) (art : Z -> pickle).

Lemma calls_row_done (w : world) (row : Z) :
  calls (row_done p fn art w row) = calls w ++ row_calls p fn row.
Proof.
  unfold row_done, row_calls, dump, log. destruct (mp_on _); simpl.
  - rewrite <- !app_assoc. reflexivity.
  - reflexivity.
Qed.

Lemma calls_rows_done (rows : list Z) (w : world) :
  calls (rows_done p fn art rows w) = calls w ++ flat_map (row_calls p fn) rows.
Proof.
  revert w. induction rows as [|row rows IH]; intros w.
  - simpl. rewrite app_nil_r. reflexivity.
  - unfold rows_done. simpl. fold (rows_done p fn art rows (row_done p fn art w row)).
    rewrite IH, calls_row_done, <- app_assoc. reflexivity.
Qed.

Lemma pools_open_app (es1 es2 : list event) (n : nat) :
  pools_open (es1 ++ es2) n
  = match pools_open es1 n with
    | Some k => pools_open es2 k
    | None => None
    end.
Proof.
  revert n. induction es1 as [|e es1 IH]; intros n; [reflexivity|].
  destruct e; simpl; try apply IH; destruct n; try reflexivity; apply IH.
Qed.

Lemma pools_open_rows (rows : list Z) :
  pools_open (flat_map (row_calls p fn) rows) 0 = Some 0%nat.
Proof.
  induction rows as [|row rows IH]; [reflexivity|].
  simpl. rewrite pools_open_app.
  replace (pools_open (row_calls p fn row) 0) with (Some 0%nat); [exact IH|].
  unfold row_calls. destruct (mp_on _); reflexivity.
Qed.

End PoolCalls.

(** X12: a run nothing interrupts makes, for each row in turn, the calls
    [row_calls]: with multiprocessing one pool per row, closed and joined
    before the row's pickle is dumped and before the next pool is created, so
    that no two pools are ever open together and none is left open; without
    multiprocessing no pool call at all.  This holds of the continuum stage as
    of the emission-line stage. *)
Theorem one_pool_per_row
    (interrupted : Z -> bool) (lowess_fit : list float -> list float)
    (els_mpfit : list float * list float -> mpfit)
    (hdr : header) (data error data' : cube) (snr_cont snr_elines : image)
    (cont_lowess : option cube) (fn_list : gmap string string) (p : params)
    (suffix : string) (a b : Z) (w : world) :
  subtract_continuum hdr snr_cont cont_lowess (which_cont_sub p) data = Ok data' ->
  0 <= a -> b < Z.of_nat (NAXIS1 hdr) -> a <= b + 1 ->
  (forall r, a <= r <= b -> uninterrupted interrupted p r) ->
  calls (run_fit_continuum interrupted lowess_fit hdr data snr_cont fn_list p suffix
           (Some a) (Some b) lowess w).2
  = calls w ++ flat_map (row_calls p (cont_fn p suffix)) (rows_between a b) /\
  calls (run_fit_elines interrupted els_mpfit hdr data error snr_cont snr_elines
           cont_lowess fn_list p suffix (Some a) (Some b) w).2
  = calls w ++ flat_map (row_calls p (elines_fn p suffix)) (rows_between a b) /\
  (forall fn, pools_open (flat_map (row_calls p fn) (rows_between a b)) 0
              = Some 0%nat) /\
  (mp_on (multiprocessing p) = false ->
   forall fn, flat_map (row_calls p fn) (rows_between a b)
              = map (fun r => PickleDump (fn r)) (rows_between a b)).
Proof.
  intros Hsub Ha Hb Hab Hun. split_and!.
  - rewrite run_fit_continuum_ok by (unfold first_row, last_row; simpl; auto).
    apply calls_rows_done.
  - rewrite (run_fit_elines_ok interrupted els_mpfit hdr data error snr_cont
               snr_elines cont_lowess p suffix data' Hsub)
      by (unfold first_row, last_row; simpl; auto).
    apply calls_rows_done.
  - intros fn. apply pools_open_rows.
  - intros Hoff fn. induction (rows_between a b) as [|r rows IH]; [reflexivity|].
    simpl. rewrite IH. unfold row_calls. rewrite Hoff. reflexivity.
Qed.

Lemma one_pool_per_row_witness :
  calls (run_fit_continuum (fun _ => false) (fun s => s) ex_hdr ex_data ex_snr ∅
           ex_params "run" (Some 0) (Some 1) lowess empty_world).2
  = [PoolCreate (Some 4); PoolMap 0; PoolClose; PoolJoin;
     PickleDump (cont_fn ex_params "run" 0);
     PoolCreate (Some 4); PoolMap 1; PoolClose; PoolJoin;
     PickleDump (cont_fn ex_params "run" 1)].
Proof.
  destruct (one_pool_per_row (fun _ => false) (fun s => s)
              (fun se => {| mp_params := fst se; mp_perror := snd se;
                            mp_status := 1 |})
              ex_hdr ex_data ex_error ex_data ex_snr ex_snr None ∅ ex_params
              "run" 0 1 empty_world) as (Hc & _).
  - reflexivity.
  - lia.
  - simpl. lia.
  - lia.
  - intros r _. right. reflexivity.
  - rewrite Hc. reflexivity.
Defined.

(** * The signal-to-noise maps: [run_snr_maps] *)

(** The wavelength keywords of the header of the data cube, and the entries of
    [params] the function reads. *)
Record wave_axis : Type := {
  CRVAL3 : float;
  CD3_3 : float
}.

Record snr_params : Type := {
  cont_range : float * float;
  ref_dv_line : float;
  z_target : float;
  snr_target : string    (* params['target'] *)
}.

Record snr_maps : Type := {
  cont_snr : image;
  line_snr : image;
  anything : image;
  snr_fn_list : gmap string string
}.

(** Lines 51-52: the rest-frame wavelength of each plane. *)
Definition lams (hdr : header) (wa : wave_axis) (sp : snr_params) : list float :=
  map (fun i => ((float_of_Z (Z.of_nat i) * CD3_3 wa + CRVAL3 wa)
                 / (z_target sp + 1))%float)
      (seq 0 (NAXIS3 hdr)).

(** [(lams >= lo) * (lams <= hi)] as the list of the planes it selects, and
    [data[mask, y, x]]. *)
Definition in_range (ls : list float) (lo hi : float) : list nat :=
  filter (fun i => np.ge (nth i ls np.nan) lo && np.le (nth i ls np.nan) hi = true)
         (seq 0 (length ls)).

Definition samples (data : cube) (planes : list nat) (y x : nat) : list float :=
  map (fun l => data l y x) planes.

(** [snr[snr < 0] = 0] *)
Definition clip_negative (v : float) : float :=
  if np.lt v 0 then 0%float else v.

(** A map computed spaxel by spaxel by a call that may raise: the call on the
    whole array raises as soon as it does for one spaxel. *)
Definition every_spaxel (hdr : header) (f : nat -> nat -> option float)
  : option image :=
  if forallb (fun y => forallb (fun x => bool_decide (is_Some (f y x)))
                         (seq 0 (NAXIS1 hdr)))
       (seq 0 (NAXIS2 hdr))
  then Some (fun y x => default np.nan (f y x))
  else None.

Section SnrMaps.

(** The speed of light of [brian_metadata]; [np.nanmedian] and [np.nanstd] along
    the wavelength axis of one spaxel, under the warnings filter
    [params['warnings']]: [None] when the call raises (a RuntimeWarning the
    filter turns into an error). *)
Variable c : float.
Variables nanmedian nanstd : list float -> option float.

(** [warnings_raise]: the filter of [params['warnings']] is ['error']. *)
Variable warnings_raise : bool.

(** Line 75, [np.nanmax] along the wavelength axis: a spaxel with nothing but
    nan gives nan with a RuntimeWarning, and a range that holds no plane of
    the cube is a ValueError (a reduction over an axis of extent zero). *)
Definition line_signal (l : list float) : option float :=
  if warnings_raise && forallb np.isnan l then None
  else Some (np.nanmax l).

Definition line_signal_map (hdr : header) (data : cube) (planes : list nat)
  : option image :=
  match planes with
  | [] => None
  | _ => every_spaxel hdr (fun y x => line_signal (samples data planes y x))
  end.

(** Lines 38-106; [None] when an exception leaves the function.  The maps go to
    a FITS file, whose name is recorded in [fn_list]. *)
Definition run_snr_maps (hdr : header) (wa : wave_axis) (data : cube)
    (fn_list : gmap string string) (sp : snr_params) (suffix : string)
  : option snr_maps :=
  let line_range :=
    ((ref_dv_line sp * (1 - 200 / c))%float, (ref_dv_line sp * (1 + 200 / c))%float) in
  let ls := lams hdr wa sp in
  let cont_planes := in_range ls (fst (cont_range sp)) (snd (cont_range sp)) in
  let line_planes := in_range ls (fst line_range) (snd line_range) in
  match every_spaxel hdr (fun y x => nanmedian (samples data cont_planes y x)) with
  | None => None
  | Some cont_s =>
      match every_spaxel hdr (fun y x => nanstd (samples data cont_planes y x)) with
      | None => None
      | Some cont_n =>
          match line_signal_map hdr data line_planes with
          | None => None
          | Some line_s =>
              Some {| cont_snr := fun y x => clip_negative (cont_s y x / cont_n y x);
                      line_snr := fun y x => clip_negative (line_s y x / cont_n y x);
                      anything :=
                        fun y x =>
                          if forallb (fun l => np.isnan (data l y x))
                               (seq 0 (NAXIS3 hdr))
                          then np.nan else 1%float;
                      snr_fn_list :=
                        <["snr_cube" := suffix +:+ "_" +:+ snr_target sp +:+ "_snr.fits"]>
                          fn_list |}
          end
      end
  end.

Lemma div_nan_l (x : float) : (np.nan / x)%float = np.nan.
Proof.
  apply Prim2SF_inj. rewrite div_spec.
  change (Prim2SF np.nan) with S754_nan. reflexivity.
Qed.

Lemma clip_negative_not_below (v : float) : np.lt (clip_negative v) 0 = false.
Proof.
  unfold clip_negative. destruct (np.lt v 0) eqn:Hv; [reflexivity | exact Hv].
Qed.

Lemma nanmax_all_nan (l : list float) :
  forallb np.isnan l = true -> np.nanmax l = np.nan.
Proof.
  unfold np.nanmax. generalize np.nan.
  induction l as [|v l IH]; intros acc H; [reflexivity|].
  simpl in *. apply andb_prop in H as [Hv Hl]. rewrite Hv. apply IH, Hl.
Qed.

Lemma every_spaxel_Some (hdr : header) (f : nat -> nat -> option float)
    (img : image) (y x : nat) :
  every_spaxel hdr f = Some img ->
  (y < NAXIS2 hdr)%nat -> (x < NAXIS1 hdr)%nat ->
  f y x = Some (img y x).
Proof.
  unfold every_spaxel. intros H Hy Hx.
  destruct (forallb _ _) eqn:Hall; [|discriminate]. injection H as <-.
  rewrite forallb_forall in Hall.
  specialize (Hall y). rewrite forallb_forall in Hall.
  assert (Hs : bool_decide (is_Some (f y x)) = true).
  { apply Hall; apply in_seq; lia. }
  apply bool_decide_eq_true in Hs as [v Hv]. rewrite Hv. reflexivity.
Qed.

End SnrMaps.

(** X13: the two signal-to-noise maps are nowhere below zero (nan apart), so a
    spaxel is never both in the map and negative; and a spaxel whose samples
    are all nan is nan in the coverage map and has a nan line SNR, which
    the gate of the emission-line stage lets through whatever the thresholds:
    the spaxels never observed are handed to the line fit. *)
Theorem snr_maps_clipped_and_unobserved_spaxels
    (c : float) (nanmedian nanstd : list float -> option float)
    (warnings_raise : bool)
    (hdr : header) (wa : wave_axis) (data : cube) (fn_list : gmap string string)
    (sp : snr_params) (suffix : string) (maps : snr_maps) (y x : nat) :
  run_snr_maps c nanmedian nanstd warnings_raise hdr wa data fn_list sp suffix
  = Some maps ->
  (y < NAXIS2 hdr)%nat -> (x < NAXIS1 hdr)%nat ->
  np.lt (cont_snr maps y x) 0 = false /\
  np.lt (line_snr maps y x) 0 = false /\
  (anything maps y x = 1%float \/ anything maps y x = np.nan) /\
  ((forall l, (l < NAXIS3 hdr)%nat -> np.isnan (data l y x) = true) ->
   anything maps y x = np.nan /\
   line_snr maps y x = np.nan /\
   warnings_raise = false /\
   forall smin smax,
     nth y (elines_good_spaxels hdr (line_snr maps) smin smax x) np.nan = 1%float) /\
  snr_fn_list maps !! "snr_cube"
  = Some (suffix +:+ "_" +:+ snr_target sp +:+ "_snr.fits").
Proof.
  intros Hrun Hy Hx. unfold run_snr_maps in Hrun. cbv zeta in Hrun.
  destruct (every_spaxel hdr (fun y x => nanmedian _)) as [cont_s|]; [|discriminate].
  destruct (every_spaxel hdr (fun y x => nanstd _)) as [cont_n|]; [|discriminate].
  destruct (line_signal_map _ _ _ _) as [line_s|] eqn:Hline; [|discriminate].
  injection Hrun as <-. cbn [cont_snr line_snr anything snr_fn_list].
  split_and!.
  - apply clip_negative_not_below.
  - apply clip_negative_not_below.
  - destruct (forallb _ _); [right | left]; reflexivity.
  - intros Hnan.
    assert (Hall : forallb (fun l => np.isnan (data l y x)) (seq 0 (NAXIS3 hdr))
                   = true).
    { apply forallb_forall. intros l Hl. apply in_seq in Hl. apply Hnan. lia. }
    unfold line_signal_map in Hline. cbn [fst snd] in Hline.
    set (planes := in_range _ _ _) in Hline.
    assert (Hsel : forallb np.isnan (samples data planes y x) = true).
    { apply forallb_forall. intros v Hv. unfold samples in Hv.
      apply in_map_iff in Hv as (l & <- & Hl). apply Hnan.
      subst planes. unfold in_range in Hl.
      apply list_elem_of_In, list_elem_of_filter in Hl as [_ Hl].
      apply elem_of_seq in Hl. unfold lams in Hl.
      rewrite length_map, length_seq in Hl. lia. }
    destruct planes as [|pl pls]; [discriminate|].
    pose proof (every_spaxel_Some hdr _ line_s y x Hline Hy Hx) as Hs.
    unfold line_signal in Hs.
    rewrite Hsel, andb_true_r, (nanmax_all_nan _ Hsel) in Hs.
    destruct warnings_raise; [discriminate|]. injection Hs as Hs.
    assert (Hsnr : clip_negative (line_s y x / cont_n y x) = np.nan).
    { rewrite <- Hs, div_nan_l. reflexivity. }
    rewrite Hall. split_and!; [reflexivity | exact Hsnr | reflexivity |].
    intros smin smax. unfold elines_good_spaxels.
    assert (Hone : nth y (replicate (NAXIS2 hdr) 1%float) np.nan = 1%float).
    { rewrite nth_lookup, lookup_replicate_2; [reflexivity | exact Hy]. }
    destruct (truthy smin), (truthy smax); cbv zeta;
      rewrite ?nth_mask_set, ?Hone
        by (rewrite ?length_mask_set, length_replicate; exact Hy);
      rewrite ?Hsnr; unfold np.lt, np.gt; rewrite ?ltb_nan_l, ?ltb_nan_r;
      reflexivity.
  - apply lookup_insert_eq.
Qed.

(** A cube of two by two spaxels and three planes whose spaxels of the first
    line were never observed. *)
Definition ex_unobserved : cube :=
  fun l y x => match y with
               | O => np.nan
               | S _ => ex_data l y x
               end.

Definition ex_snr_params : snr_params :=
  {| cont_range := (1%float, 3%float);
     ref_dv_line := 2%float;
     z_target := 0%float;
     snr_target := "NGC" |}.

Lemma every_spaxel_returns (hdr : header) (f : nat -> nat -> option float) :
  (forall y x, is_Some (f y x)) -> exists img, every_spaxel hdr f = Some img.
Proof.
  intros Hf. unfold every_spaxel.
  replace (forallb _ (seq 0 (NAXIS2 hdr))) with true; [eauto|].
  symmetry. apply forallb_forall. intros y _. apply forallb_forall. intros x _.
  apply bool_decide_eq_true, Hf.
Qed.

(** The function returns when the reductions do and the range of the line holds
    a plane of the cube. *)
Lemma run_snr_maps_returns (c : float)
    (nanmedian nanstd : list float -> option float)
    (hdr : header) (wa : wave_axis) (data : cube) (fn_list : gmap string string)
    (sp : snr_params) (suffix : string) :
  (forall l, is_Some (nanmedian l)) -> (forall l, is_Some (nanstd l)) ->
  in_range (lams hdr wa sp)
    (ref_dv_line sp * (1 - 200 / c))%float (ref_dv_line sp * (1 + 200 / c))%float
  <> [] ->
  exists maps,
    run_snr_maps c nanmedian nanstd false hdr wa data fn_list sp suffix = Some maps.
Proof.
  intros Hmed Hstd Hplanes. unfold run_snr_maps. cbv zeta. cbn [fst snd].
  destruct (every_spaxel_returns hdr
              (fun y x => nanmedian
                 (samples data (in_range (lams hdr wa sp) (cont_range sp).1
                                  (cont_range sp).2) y x))) as [cont_s ->];
    [intros; apply Hmed|].
  destruct (every_spaxel_returns hdr
              (fun y x => nanstd
                 (samples data (in_range (lams hdr wa sp) (cont_range sp).1
                                  (cont_range sp).2) y x))) as [cont_n ->];
    [intros; apply Hstd|].
  unfold line_signal_map.
  destruct (in_range (lams hdr wa sp) _ _) as [|pl pls] eqn:Hpl; [contradiction|].
  destruct (every_spaxel_returns hdr
              (fun y x => line_signal false (samples data (pl :: pls) y x)))
    as [line_s ->]; [|eauto].
  intros y x. unfold line_signal. simpl. eauto.
Qed.

Lemma snr_maps_clipped_and_unobserved_spaxels_witness :
  exists maps,
    run_snr_maps ex_c (fun l => Some (hd np.nan l)) (fun _ => Some 1%float) false
      ex_hdr {| CRVAL3 := 1; CD3_3 := 1 |} ex_unobserved ∅ ex_snr_params "run"
    = Some maps /\
    line_snr maps 0%nat 0%nat = np.nan /\
    anything maps 0%nat 0%nat = np.nan /\
    snr_fn_list maps !! "snr_cube" = Some "run_NGC_snr.fits".
Proof.
  destruct (run_snr_maps_returns ex_c (fun l => Some (hd np.nan l))
              (fun _ => Some 1%float) ex_hdr {| CRVAL3 := 1; CD3_3 := 1 |}
              ex_unobserved ∅ ex_snr_params "run") as [maps Hrun].
  - intros l. eauto.
  - intros l. eauto.
  - vm_compute. discriminate.
  - exists maps.
    destruct (snr_maps_clipped_and_unobserved_spaxels ex_c
                (fun l => Some (hd np.nan l)) (fun _ => Some 1%float) false
                ex_hdr {| CRVAL3 := 1; CD3_3 := 1 |} ex_unobserved ∅
                ex_snr_params "run" maps 0 0 Hrun)
      as (_ & _ & _ & Hnan & Hfn).
    + simpl. lia.
    + simpl. lia.
    + destruct Hnan as (Ha & Hl & _); [intros l _; reflexivity|].
      split_and!; [exact Hrun | exact Hl | exact Ha | exact Hfn].
Defined.

(** * The aperture list: [run_find_structures] and the head of [run_make_ap_cube] *)

(** The two functions read and write files of the directory of the products:
    the aperture list, a pickle, and the multi-extension FITS file of the line
    parameters, of which [hdu[k + 1]] is the [k]-th cube here.  Beside the
    exceptions of [exn] they can end in EOFError (the prompt) and IOError (a
    file that is not there). *)
Inductive io_exn : Type :=
| EOFError
| IOError (path : string)
| PyExn (e : exn)
| SystemExit (msg : string).

Inductive io_result (A : Type) : Type :=
| Returns (a : A)
| Throws (e : io_exn).
Arguments Returns {A} a.
Arguments Throws {A} e.

Definition io_bind {A B : Type} (r : io_result A) (k : A -> io_result B)
  : io_result B :=
  match r with
  | Returns a => k a
  | Throws e => Throws e
  end.

(** The entries of [params] the two functions read; [ap_elines] is
    [params['elines']] in the order of its [keys()], each line with its
    reference wavelength [params['elines'][key][0][0]]. *)
Record ap_params : Type := {
  prod_loc : string;
  ap_target : string;
  ap_map_lines : list string;
  ap_elines : list (string * float);
  ap_ref_dv_line : float
}.

Definition ap_list_name (ap : ap_params) (suffix : string) : string :=
  suffix +:+ "_" +:+ ap_target ap +:+ "_ap_list.pkl".

(** [np.sort(keys).tolist().index(key)]: the number of keys below [key], when
    [key] is one of them. *)
Definition sorted_index (keys : list string) (key : string) : option nat :=
  if bool_decide (key ∈ keys)
  then Some (length (filter (fun k => String.ltb k key = true) keys))
  else None.

(** Lines 815-820 and 874-878: the first plane of the cube of line [key] in
    the file of the line parameters.  [key] is [None] when the name that holds
    it was never bound. *)
Definition flux_map (fits : gmap string (list cube)) (fn_list : gmap string string)
    (ap : ap_params) (key : option string) : io_result image :=
  match fn_list !! "elines_params_cube" with
  | None => Throws (PyExn (KeyError "elines_params_cube"))
  | Some fn =>
      match fits !! path_join (prod_loc ap) fn with
      | None => Throws (IOError (path_join (prod_loc ap) fn))
      | Some hdus =>
          match key with
          | None => Throws (PyExn (NameError "ref_key"))
          | Some key =>
              match sorted_index (map fst (ap_elines ap)) key with
              | None => Throws (PyExn ValueError)
              | Some plane =>
                  match hdus !! plane with
                  | None => Throws (PyExn IndexError)
                  | Some cb => Returns (cb 0%nat)
                  end
              end
          end
      end
  end.

(** Lines 793-798: [raw_input()] until the answer is one of the three letters;
    the lines typed are consumed. *)
Fixpoint ask (stdin : list string) : io_result (string * list string) :=
  match stdin with
  | [] => Throws EOFError
  | letter :: rest =>
      if bool_decide (letter ∈ ["a"; "b"; "c"]) then Returns (letter, rest)
      else ask rest
  end.

Section FindStructures.

(** [brian_plots.build_ap_list] for the [n]-th line of [ap_map_lines], on the
    flux map and the list to start from: the list the user leaves, [None] for
    a value that is not a list. *)
Variable build_ap_list :
  nat -> image -> option (list aperture) -> option (list aperture).

(** Lines 786-838, one line of [ap_map_lines]. *)
Definition find_step (fits : gmap string (list cube)) (fn_list : gmap string string)
    (ap : ap_params) (fn_ap : string) (n : nat) (key : string)
    (st : gmap string (list aperture) * list string)
  : io_result (gmap string (list aperture) * list string) :=
  let '(store, stdin) := st in
  io_bind (match store !! fn_ap with
           | Some _ => ask stdin
           | None => Returns ("b", stdin)
           end)
    (fun answer =>
       let '(letter, stdin') := answer in
       if String.eqb letter "c" then Returns (store, stdin')
       else
         let start_aps := if String.eqb letter "a" then store !! fn_ap else None in
         io_bind (flux_map fits fn_list ap (Some key))
           (fun data =>
              match build_ap_list n data start_aps with
              | Some (a :: aps) => Returns (<[fn_ap := a :: aps]> store, stdin')
              | _ => Returns (store, stdin')
              end)).

Fixpoint find_loop (fits : gmap string (list cube)) (fn_list : gmap string string)
    (ap : ap_params) (fn_ap : string) (n : nat) (keys : list string)
    (st : gmap string (list aperture) * list string)
  : io_result (gmap string (list aperture) * list string) :=
  match keys with
  | [] => Returns st
  | key :: rest =>
      io_bind (find_step fits fn_list ap fn_ap n key st)
              (find_loop fits fn_list ap fn_ap (S n) rest)
  end.

(** Lines 777-841. *)
Definition run_find_structures (fits : gmap string (list cube))
    (fn_list : gmap string string) (ap : ap_params) (suffix : string)
    (store : gmap string (list aperture)) (stdin : list string)
  : io_result (gmap string string * gmap string (list aperture) * list string) :=
  let fn_ap := path_join (prod_loc ap) (ap_list_name ap suffix) in
  let fn_list := <["ap_list" := ap_list_name ap suffix]> fn_list in
  io_bind (find_loop fits fn_list ap fn_ap 0 (ap_map_lines ap) (store, stdin))
          (fun st => Returns (fn_list, st.1, st.2)).

End FindStructures.

(** Lines 859-865 of [run_make_ap_cube]: the pickled list; the assignment of
    line 865 unpacks the [zip] of its entries into [xs, ys, rs], which an empty
    list does not allow. *)
Definition load_apertures (fn_list : gmap string string) (ap : ap_params)
    (store : gmap string (list aperture)) : io_result (list aperture) :=
  match fn_list !! "ap_list" with
  | None => Throws (PyExn (KeyError "ap_list"))
  | Some fn =>
      match store !! path_join (prod_loc ap) fn with
      | None => Throws (IOError (path_join (prod_loc ap) fn))
      | Some [] => Throws (PyExn ValueError)
      | Some aps => Returns aps
      end
  end.

(** Lines 869-871: the last line, in the order of [keys()], whose reference
    wavelength is [ref_dv_line]. *)
Definition ref_key (ap : ap_params) : option string :=
  fold_left (fun found line =>
               if (snd line =? ap_ref_dv_line ap)%float then Some (fst line)
               else found)
            (ap_elines ap) None.

(** Lines 859-938: the whole of [run_make_ap_cube] up to the FITS output, the
    loop being [run_make_ap_cube] above.  [ny] and [nx] are the shape of the
    flux map; the raw cubes are read from the data file. *)
Definition run_make_ap_cube_from_files (fits : gmap string (list cube))
    (fn_list : gmap string string) (ap : ap_params)
    (store : gmap string (list aperture)) (ny nx : nat) (data error : cube)
  : io_result ap_state :=
  io_bind (load_apertures fn_list ap store)
    (fun aps =>
       io_bind (flux_map fits fn_list ap (ref_key ap))
         (fun flux =>
            match run_make_ap_cube ny nx flux data error aps with
            | Ok st => Returns st
            | Raise e => Throws (PyExn e)
            | SysExit msg => Throws (SystemExit msg)
            end)).

(** Lines 596-609 of [run_make_elines_cube]: one cube of six planes per line,
    in the order of the sorted keys, for the file of the line parameters. *)
Definition params_hdus (n : nat) (epc : cube) : list cube :=
  map (fun k => fun l y x => epc (6 * k + l)%nat y x) (seq 0 n).

(** ** What [run_find_structures] leaves *)

Section FindStructuresFacts.

Variable build_ap_list :
  nat -> image -> option (list aperture) -> option (list aperture).
Variables (fits : gmap string (list cube)) (fn_list : gmap string string)
          (ap : ap_params) (fn_ap : string).

Definition letters : list string := ["a"; "b"; "c"].

Lemma ask_returns (stdin : list string) (letter : string) (rest : list string) :
  ask stdin = Returns (letter, rest) ->
  letter ∈ letters /\
  exists junk, stdin = junk ++ letter :: rest /\ Forall (fun l => l ∉ letters) junk.
Proof.
  induction stdin as [|l stdin IH]; simpl; [discriminate|].
  destruct (bool_decide (l ∈ ["a"; "b"; "c"])) eqn:Hl.
  - intros [= -> ->]. apply bool_decide_eq_true in Hl.
    split; [exact Hl|]. exists []. split; [reflexivity | constructor].
  - intros H. destruct (IH H) as (Hin & junk & -> & Hjunk).
    apply bool_decide_eq_false in Hl.
    split; [exact Hin|]. exists (l :: junk). split; [reflexivity|].
    constructor; assumption.
Qed.

Lemma ask_skips (junk : list string) (letter : string) (rest : list string) :
  Forall (fun l => l ∉ letters) junk -> letter ∈ letters ->
  ask (junk ++ letter :: rest) = Returns (letter, rest).
Proof.
  intros Hjunk Hl. induction Hjunk as [|l junk Hnot _ IH]; simpl.
  - rewrite bool_decide_eq_true_2 by exact Hl. reflexivity.
  - rewrite bool_decide_eq_false_2 by exact Hnot. exact IH.
Qed.

Lemma ask_eof (stdin : list string) :
  Forall (fun l => l ∉ letters) stdin -> ask stdin = Throws EOFError.
Proof.
  induction 1 as [|l stdin Hnot _ IH]; simpl; [reflexivity|].
  rewrite bool_decide_eq_false_2 by exact Hnot. exact IH.
Qed.

(** What a step, and so the loop, may do to the files and to the input. *)
Definition find_frame (st st' : gmap string (list aperture) * list string) : Prop :=
  (forall path, path <> fn_ap -> st'.1 !! path = st.1 !! path) /\
  (st'.1 !! fn_ap = st.1 !! fn_ap \/ exists a aps, st'.1 !! fn_ap = Some (a :: aps)) /\
  exists used, st.2 = used ++ st'.2.

Lemma find_frame_refl (st : gmap string (list aperture) * list string) :
  find_frame st st.
Proof. split_and!; [reflexivity | left; reflexivity | exists []; reflexivity]. Qed.

Lemma find_frame_trans (s1 s2 s3 : gmap string (list aperture) * list string) :
  find_frame s1 s2 -> find_frame s2 s3 -> find_frame s1 s3.
Proof.
  intros (Ho1 & Hf1 & u1 & Hu1) (Ho2 & Hf2 & u2 & Hu2). split_and!.
  - intros path Hp. rewrite Ho2, Ho1 by exact Hp. reflexivity.
  - destruct Hf2 as [-> | Hf2]; [exact Hf1 | right; exact Hf2].
  - exists (u1 ++ u2). rewrite Hu1, Hu2, app_assoc. reflexivity.
Qed.

Lemma find_step_frame (n : nat) (key : string)
    (st st' : gmap string (list aperture) * list string) :
  find_step build_ap_list fits fn_list ap fn_ap n key st = Returns st' ->
  find_frame st st'.
Proof.
  destruct st as [store stdin]. unfold find_step.
  assert (Hprompt : forall letter stdin',
            match store !! fn_ap with
            | Some _ => ask stdin
            | None => Returns ("b", stdin)
            end = Returns (letter, stdin') ->
            exists used, stdin = used ++ stdin').
  { intros letter stdin' H. destruct (store !! fn_ap).
    - apply ask_returns in H as (_ & junk & -> & _).
      exists (junk ++ [letter]). rewrite <- app_assoc. reflexivity.
    - injection H as _ <-. exists []. reflexivity. }
  destruct (match store !! fn_ap with
            | Some _ => ask stdin
            | None => Returns ("b", stdin)
            end) as [[letter stdin']|e]; simpl; [|discriminate].
  specialize (Hprompt letter stdin' eq_refl).
  destruct (String.eqb letter "c").
  - intros [= <-]. split_and!; [reflexivity | left; reflexivity | exact Hprompt].
  - destruct (flux_map fits fn_list ap (Some key)) as [data|e]; simpl; [|discriminate].
    destruct (build_ap_list n data _) as [[|a aps]|]; intros [= <-];
      try (split_and!; [reflexivity | left; reflexivity | exact Hprompt]).
    split_and!.
    + intros path Hp. apply lookup_insert_ne. congruence.
    + right. exists a, aps. apply lookup_insert_eq.
    + exact Hprompt.
Qed.

Lemma find_loop_frame (keys : list string) (n : nat)
    (st st' : gmap string (list aperture) * list string) :
  find_loop build_ap_list fits fn_list ap fn_ap n keys st = Returns st' ->
  find_frame st st'.
Proof.
  revert n st. induction keys as [|key keys IH]; intros n st; simpl.
  - intros [= <-]. apply find_frame_refl.
  - destruct (find_step _ _ _ _ _ _ _ _) as [st1|e] eqn:Hstep; simpl; [|discriminate].
    intros Hloop. apply (find_frame_trans st st1 st').
    + apply (find_step_frame n key), Hstep.
    + apply (IH (S n)), Hloop.
Qed.

(** The answer [c] to every prompt, whatever else is typed before it. *)
Lemma find_loop_skip (answers : list (list string)) (keys : list string) (n : nat)
    (store : gmap string (list aperture)) (rest : list string) :
  is_Some (store !! fn_ap) ->
  length answers = length keys ->
  Forall (Forall (fun l => l ∉ letters)) answers ->
  find_loop build_ap_list fits fn_list ap fn_ap n keys
    (store, flat_map (fun junk => junk ++ ["c"]) answers ++ rest)
  = Returns (store, rest).
Proof.
  intros [aps0 Hfile]. revert n keys.
  induction answers as [|junk answers IH]; intros n [|key keys] Hlen Hjunk;
    try discriminate; [reflexivity|].
  apply Forall_cons in Hjunk as [Hj Hjunk].
  change (flat_map (fun junk => junk ++ ["c"]) (junk :: answers) ++ rest)
    with (((junk ++ ["c"]) ++ flat_map (fun junk => junk ++ ["c"]) answers) ++ rest).
  rewrite <- !app_assoc.
  change (["c"] ++ ?l) with ("c" :: l).
  cbn [find_loop]. unfold find_step at 1. rewrite Hfile.
  rewrite ask_skips; [|exact Hj | unfold letters; set_solver].
  cbn [io_bind]. change (String.eqb "c" "c") with true. cbv iota.
  cbn [io_bind]. apply IH; [|exact Hjunk]. simpl in Hlen. lia.
Qed.

End FindStructuresFacts.

(** X14: when [run_find_structures] returns, it has recorded the name of the
    aperture list in [fn_list], has touched no file but that list, and has
    either left the list as it was or saved a list that is not empty, having
    read its answers from the head of the input.  So, unless an empty list
    was there before, the list [run_make_ap_cube] then loads under that name
    can be unpacked: the load returns the saved list, or finds no file. *)
Theorem find_structures_saves_no_empty_list
    (build_ap_list : nat -> image -> option (list aperture) -> option (list aperture))
    (fits : gmap string (list cube)) (fn_list : gmap string string)
    (ap : ap_params) (suffix : string) (store : gmap string (list aperture))
    (stdin : list string)
    (fl' : gmap string string) (store' : gmap string (list aperture))
    (stdin' : list string) :
  run_find_structures build_ap_list fits fn_list ap suffix store stdin
  = Returns (fl', store', stdin') ->
  let fn_ap := path_join (prod_loc ap) (ap_list_name ap suffix) in
  fl' = <["ap_list" := ap_list_name ap suffix]> fn_list /\
  (forall path, path <> fn_ap -> store' !! path = store !! path) /\
  (store' !! fn_ap = store !! fn_ap \/
   exists a aps, store' !! fn_ap = Some (a :: aps)) /\
  (exists used, stdin = used ++ stdin') /\
  (store !! fn_ap <> Some [] ->
   load_apertures fl' ap store'
   = match store' !! fn_ap with
     | Some aps => Returns aps
     | None => Throws (IOError fn_ap)
     end).
Proof.
  intros Hrun fn_ap. unfold run_find_structures in Hrun. cbv zeta in Hrun.
  fold fn_ap in Hrun.
  destruct (find_loop _ _ _ _ _ _ _ _) as [[store1 stdin1]|e] eqn:Hloop;
    simpl in Hrun; [|discriminate].
  injection Hrun as <- <- <-.
  apply find_loop_frame in Hloop as (Hother & Hfile & Hused). simpl in *.
  split_and!; [reflexivity | exact Hother | exact Hfile | exact Hused |].
  intros Hne. unfold load_apertures. rewrite lookup_insert_eq. fold fn_ap.
  destruct Hfile as [Hsame | (a & aps & Hnew)].
  - rewrite Hsame. destruct (store !! fn_ap) as [[|a aps]|]; try reflexivity.
    contradiction.
  - rewrite Hnew. reflexivity.
Qed.

Definition ex_ap_params : ap_params :=
  {| prod_loc := "prod"; ap_target := "NGC"; ap_map_lines := ["a"];
     ap_elines := [("a", 6562.5%float)]; ap_ref_dv_line := 6562.5 |}.

Lemma find_structures_saves_no_empty_list_witness :
  run_find_structures (fun _ _ _ => Some [(1, 1, 2)])
    (<["prod/lines.fits" := [ex_data]]> ∅)
    (<["elines_params_cube" := "lines.fits"]> ∅) ex_ap_params "run" ∅ ["b"]
  = Returns (<["ap_list" := "run_NGC_ap_list.pkl"]>
               (<["elines_params_cube" := "lines.fits"]> ∅),
             <["prod/run_NGC_ap_list.pkl" := [(1, 1, 2)]]> ∅, ["b"]) /\
  load_apertures
    (<["ap_list" := "run_NGC_ap_list.pkl"]>
       (<["elines_params_cube" := "lines.fits"]> ∅))
    ex_ap_params (<["prod/run_NGC_ap_list.pkl" := [(1, 1, 2)]]> ∅)
  = Returns [(1, 1, 2)].
Proof.
  assert (Hrun : run_find_structures (fun _ _ _ => Some [(1, 1, 2)])
                   (<["prod/lines.fits" := [ex_data]]> ∅)
                   (<["elines_params_cube" := "lines.fits"]> ∅) ex_ap_params
                   "run" ∅ ["b"]
                 = Returns (<["ap_list" := "run_NGC_ap_list.pkl"]>
                              (<["elines_params_cube" := "lines.fits"]> ∅),
                            <["prod/run_NGC_ap_list.pkl" := [(1, 1, 2)]]> ∅, ["b"]))
    by reflexivity.
  split; [exact Hrun|].
  destruct (find_structures_saves_no_empty_list _ _ _ _ _ _ _ _ _ _ Hrun)
    as (_ & _ & _ & _ & Hload).
  rewrite Hload; [reflexivity | discriminate].
Defined.

(** X15: where the aperture list exists, the answer [c] to the prompt of every
    line of [ap_map_lines] (whatever unrecognised answers come before it)
    makes the function return with the list untouched, and without opening
    the file of the line parameters, whose name need not even be known; and
    an input that ends before a recognised letter ends the function in
    EOFError. *)
Theorem answering_c_keeps_the_list
    (build_ap_list : nat -> image -> option (list aperture) -> option (list aperture))
    (fits : gmap string (list cube)) (fn_list : gmap string string)
    (ap : ap_params) (suffix : string) (store : gmap string (list aperture))
    (answers : list (list string)) (rest : list string) :
  is_Some (store !! path_join (prod_loc ap) (ap_list_name ap suffix)) ->
  length answers = length (ap_map_lines ap) ->
  Forall (Forall (fun l => l ∉ letters)) answers ->
  run_find_structures build_ap_list fits fn_list ap suffix store
    (flat_map (fun junk => junk ++ ["c"]) answers ++ rest)
  = Returns (<["ap_list" := ap_list_name ap suffix]> fn_list, store, rest) /\
  (ap_map_lines ap <> [] ->
   forall stdin, Forall (fun l => l ∉ letters) stdin ->
     run_find_structures build_ap_list fits fn_list ap suffix store stdin
     = Throws EOFError).
Proof.
  intros Hfile Hlen Hjunk. split.
  - unfold run_find_structures. cbv zeta.
    rewrite find_loop_skip by assumption. reflexivity.
  - intros Hkeys stdin Hstdin. unfold run_find_structures. cbv zeta.
    destruct (ap_map_lines ap) as [|key keys]; [contradiction|].
    cbn [find_loop]. unfold find_step at 1. destruct Hfile as [aps0 ->].
    rewrite ask_eof by exact Hstdin. reflexivity.
Qed.

Lemma answering_c_keeps_the_list_witness :
  run_find_structures (fun _ _ _ => Some [(1, 1, 2)]) (∅ : gmap string (list cube)) ∅
    {| prod_loc := "prod"; ap_target := "NGC"; ap_map_lines := ["a"; "b"];
       ap_elines := [("a", 6562.5%float); ("b", 4861%float)];
       ap_ref_dv_line := 6562.5 |}
    "run" (<["prod/run_NGC_ap_list.pkl" := [(0, 0, 1)]]> ∅)
    (flat_map (fun junk => junk ++ ["c"]) [["x"; "yes"]; []] ++ ["a"])
  = Returns (<["ap_list" := "run_NGC_ap_list.pkl"]> ∅,
             <["prod/run_NGC_ap_list.pkl" := [(0, 0, 1)]]> ∅, ["a"]).
Proof.
  apply (answering_c_keeps_the_list (fun _ _ _ => Some [(1, 1, 2)])
           (∅ : gmap string (list cube)) ∅
           {| prod_loc := "prod"; ap_target := "NGC"; ap_map_lines := ["a"; "b"];
              ap_elines := [("a", 6562.5%float); ("b", 4861%float)];
              ap_ref_dv_line := 6562.5 |}
           "run" (<["prod/run_NGC_ap_list.pkl" := [(0, 0, 1)]]> ∅)
           [["x"; "yes"]; []] ["a"]).
  - eexists. reflexivity.
  - reflexivity.
  - repeat constructor; apply (bool_decide_unpack _); exact I.
Defined.

(** ** The flux map that ranks the apertures *)

Section ReferenceLine.

Lemma ltb_irrefl_string (s : string) : String.ltb s s = false.
Proof.
  unfold String.ltb. pose proof (String.compare_antisym s s) as H.
  destruct (String.compare s s); try reflexivity. discriminate.
Qed.

Lemma sorted_index_lt (keys : list string) (key : string) :
  key ∈ keys ->
  exists plane, sorted_index keys key = Some plane /\ (plane < length keys)%nat.
Proof.
  intros Hin. unfold sorted_index. rewrite bool_decide_eq_true_2 by exact Hin.
  eexists. split; [reflexivity|].
  apply (length_filter_lt _ keys key Hin).
  rewrite ltb_irrefl_string. discriminate.
Qed.

Lemma lookup_params_hdus (n plane : nat) (epc : cube) :
  (plane < n)%nat ->
  params_hdus n epc !! plane = Some (fun l y x => epc (6 * plane + l)%nat y x).
Proof.
  intros Hlt. unfold params_hdus.
  change (map ?f ?l) with (f <$> l).
  rewrite list_lookup_fmap, lookup_seq_lt by exact Hlt. reflexivity.
Qed.

Variable ap : ap_params.

Lemma ref_key_fold (lines : list (string * float)) (found : option string)
    (key : string) :
  fold_left (fun found line =>
               if (snd line =? ap_ref_dv_line ap)%float then Some (fst line)
               else found) lines found = Some key ->
  found = Some key \/
  exists lam, (key, lam) ∈ lines /\ (lam =? ap_ref_dv_line ap)%float = true.
Proof.
  revert found. induction lines as [|[k lam] lines IH]; intros found; simpl.
  - intros ->. left. reflexivity.
  - intros H. apply IH in H as [H | (lam' & Hin & Heq)].
    + destruct (lam =? ap_ref_dv_line ap)%float eqn:Heq.
      * injection H as <-. right. exists lam. split; [left | exact Heq].
      * left. exact H.
    + right. exists lam'. split; [right; exact Hin | exact Heq].
Qed.

Lemma ref_key_Some (key : string) :
  ref_key ap = Some key ->
  key ∈ map fst (ap_elines ap) /\
  exists lam, (key, lam) ∈ ap_elines ap /\ (lam =? ap_ref_dv_line ap)%float = true.
Proof.
  intros H. apply ref_key_fold in H as [H | (lam & Hin & Heq)]; [discriminate|].
  split; [|exists lam; split; assumption].
  apply list_elem_of_In, in_map_iff. exists (key, lam).
  split; [reflexivity | apply list_elem_of_In, Hin].
Qed.

Lemma ref_key_None :
  ref_key ap = None <->
  Forall (fun line => (snd line =? ap_ref_dv_line ap)%float = false) (ap_elines ap).
Proof.
  unfold ref_key.
  assert (Hgen : forall (lines : list (string * float)) (found : option string),
            fold_left (fun found line =>
                         if (snd line =? ap_ref_dv_line ap)%float
                         then Some (fst line) else found) lines found = None <->
            found = None /\
            Forall (fun line => (snd line =? ap_ref_dv_line ap)%float = false) lines).
  { induction lines as [|[k lam] lines IH]; intros found; simpl.
    - split; [intros ->; split; [reflexivity | constructor] | intros [-> _]; reflexivity].
    - rewrite IH. destruct (lam =? ap_ref_dv_line ap)%float eqn:Heq.
      + split; [intros [H _]; discriminate|].
        intros [_ H]. apply Forall_cons in H as [H _]. simpl in H. congruence.
      + split.
        * intros [-> H]. split; [reflexivity|]. constructor; assumption.
        * intros [-> H]. apply Forall_cons in H as [_ H]. split; [reflexivity | exact H]. }
  rewrite Hgen. tauto.
Qed.

End ReferenceLine.

(** X16: with the aperture list and the file of the line parameters in place,
    the latter as [run_make_elines_cube] writes it (one cube of six planes per
    line, in the order of the sorted keys), [run_make_ap_cube] raises
    ValueError on an empty aperture list, and NameError when no line of
    [params['elines']] has the wavelength [ref_dv_line]; otherwise the flux
    map that ranks the apertures is the plane [6 * plane] of the parameter
    cube, the flux plane of the line whose key is the last with that
    wavelength, [plane] being the rank of the key among the sorted keys, and
    no lookup on the way can fail. *)
Theorem apertures_ranked_on_the_reference_line
    (fits : gmap string (list cube)) (fn_list : gmap string string)
    (ap : ap_params) (store : gmap string (list aperture)) (ny nx : nat)
    (data error epc : cube) (fn_a fn : string) (aps : list aperture) :
  fn_list !! "ap_list" = Some fn_a ->
  store !! path_join (prod_loc ap) fn_a = Some aps ->
  fn_list !! "elines_params_cube" = Some fn ->
  fits !! path_join (prod_loc ap) fn
  = Some (params_hdus (length (ap_elines ap)) epc) ->
  (aps = [] ->
   run_make_ap_cube_from_files fits fn_list ap store ny nx data error
   = Throws (PyExn ValueError)) /\
  (aps <> [] ->
   Forall (fun line => (snd line =? ap_ref_dv_line ap)%float = false)
     (ap_elines ap) ->
   run_make_ap_cube_from_files fits fn_list ap store ny nx data error
   = Throws (PyExn (NameError "ref_key"))) /\
  (aps <> [] ->
   forall key, ref_key ap = Some key ->
     exists plane,
       sorted_index (map fst (ap_elines ap)) key = Some plane /\
       (plane < length (ap_elines ap))%nat /\
       run_make_ap_cube_from_files fits fn_list ap store ny nx data error
       = match run_make_ap_cube ny nx (fun y x => epc (6 * plane + 0)%nat y x)
                 data error aps with
         | Ok st => Returns st
         | Raise e => Throws (PyExn e)
         | SysExit msg => Throws (SystemExit msg)
         end) /\
  (ref_key ap = None \/
   exists key lam, ref_key ap = Some key /\ (key, lam) ∈ ap_elines ap /\
                   (lam =? ap_ref_dv_line ap)%float = true).
Proof.
  intros Hlist Hstore Hcube Hfits.
  assert (Hload : aps <> [] -> load_apertures fn_list ap store = Returns aps).
  { intros Hne. unfold load_apertures. rewrite Hlist, Hstore.
    destruct aps; [contradiction | reflexivity]. }
  split_and!.
  - intros ->. unfold run_make_ap_cube_from_files, load_apertures.
    rewrite Hlist, Hstore. reflexivity.
  - intros Hne Hnone. unfold run_make_ap_cube_from_files.
    rewrite (Hload Hne). cbn [io_bind]. unfold flux_map. rewrite Hcube, Hfits.
    rewrite (proj2 (ref_key_None ap) Hnone). reflexivity.
  - intros Hne key Hkey.
    destruct (ref_key_Some ap key Hkey) as [Hin _].
    destruct (sorted_index_lt _ key Hin) as (plane & Hplane & Hlt).
    rewrite length_map in Hlt.
    exists plane. split_and!; [exact Hplane | exact Hlt |].
    unfold run_make_ap_cube_from_files. rewrite (Hload Hne). cbn [io_bind].
    unfold flux_map. rewrite Hcube, Hfits, Hkey, Hplane.
    pose proof (lookup_params_hdus (length (ap_elines ap)) plane epc Hlt) as Hhdu.
    unfold cube, image in *. rewrite Hhdu. reflexivity.
  - destruct (ref_key ap) as [key|] eqn:Hkey; [right | left; reflexivity].
    destruct (ref_key_Some ap key Hkey) as (_ & lam & Hin & Heq).
    exists key, lam. split_and!; [reflexivity | exact Hin | exact Heq].
Qed.

Lemma apertures_ranked_on_the_reference_line_witness :
  exists st,
    run_make_ap_cube_from_files
      (<["prod/lines.fits" := params_hdus 1 ex_data]> ∅)
      (<["ap_list" := "aps.pkl"]> (<["elines_params_cube" := "lines.fits"]> ∅))
      ex_ap_params (<["prod/aps.pkl" := [(0, 0, 1)]]> ∅) 2 2 ex_data ex_error
    = Returns st /\
    ap_map st 0%nat 0%nat = Some 0%nat.
Proof.
  destruct (apertures_ranked_on_the_reference_line
              (<["prod/lines.fits" := params_hdus 1 ex_data]> ∅)
              (<["ap_list" := "aps.pkl"]>
                 (<["elines_params_cube" := "lines.fits"]> ∅))
              ex_ap_params (<["prod/aps.pkl" := [(0, 0, 1)]]> ∅) 2 2 ex_data
              ex_error ex_data "aps.pkl" "lines.fits" [(0, 0, 1)])
    as (_ & _ & Hrank & _); try reflexivity.
  destruct (Hrank ltac:(discriminate) "a" eq_refl) as (plane & Hplane & _ & Hrun).
  injection Hplane as <-.
  eexists. split; [exact Hrun | reflexivity].
Defined.

(** ** An aperture over spaxels without data *)

Lemma nansum_all_nan (l : list float) :
  forallb np.isnan l = true -> np.nansum l = 0%float.
Proof.
  unfold np.nansum. induction l as [|v l IH]; [reflexivity|].
  simpl. intros H. apply andb_prop in H as [Hv Hl].
  unfold np.nan_to_zero at 2. rewrite Hv.
  change (0 + 0)%float with 0%float. apply IH, Hl.
Qed.

(** X17: where every spaxel of an aperture is nan at a wavelength, the
    integrated spectrum of the aperture is zero there, not nan: in the output
    cube nan marks the spaxels outside the apertures, not the apertures
    without data. *)
Theorem aperture_without_data_sums_to_zero
    (ny nx : nat) (flux : image) (data error : cube) (aps : list aperture)
    (st : ap_state) (i l : nat) :
  run_make_ap_cube ny nx flux data error aps = Ok st ->
  (forall qy qx, ap_map st qy qx = Some i -> (qy < ny)%nat -> (qx < nx)%nat ->
     np.isnan (data l qy qx) = true) ->
  forall py px, ap_map st py px = Some i -> (py < ny)%nat -> (px < nx)%nat ->
    ap_spec_cube st l py px = 0%float /\
    np.isnan (ap_spec_cube st l py px) = false.
Proof.
  intros Hrun Hnan py px Hmap Hy Hx. unfold run_make_ap_cube in Hrun.
  destruct (peak_fluxes ny nx flux aps) as [fs| |]; try discriminate.
  simpl in Hrun. injection Hrun as <-.
  pose proof (integrated_loop ny nx data error aps (sort_index fs) 0 ap_init
                (integrated_init ny nx data error)) as [_ Hsum].
  destruct (Hsum py px i l Hy Hx Hmap) as [Hspec _].
  assert (Hzero : ap_spec_cube
                    (ap_loop ny nx data error aps 0 (sort_index fs) ap_init)
                    l py px = 0%float).
  { rewrite Hspec. unfold integrate. apply nansum_all_nan.
    apply forallb_forall. intros v Hv. apply in_map_iff in Hv as ([qy qx] & <- & Hq).
    apply list_elem_of_In, elem_of_members in Hq as (Hq & Hqy & Hqx).
    apply Hnan; assumption. }
  rewrite Hzero. split; reflexivity.
Qed.

Lemma aperture_without_data_sums_to_zero_witness :
  exists st,
    run_make_ap_cube 1 3 spec_flux ex_unobserved ex_error [(1, 0, 1)] = Ok st /\
    ap_map st 0%nat 2%nat = Some 0%nat /\
    ap_spec_cube st 1%nat 0%nat 2%nat = 0%float.
Proof.
  exists (ap_loop 1 3 ex_unobserved ex_error [(1, 0, 1)] 0 (sort_index [20%float])
            ap_init).
  assert (Hmap : ap_map (ap_loop 1 3 ex_unobserved ex_error [(1, 0, 1)] 0
                           (sort_index [20%float]) ap_init) 0%nat 2%nat
                 = Some 0%nat) by reflexivity.
  split; [reflexivity|]. split; [exact Hmap|].
  apply (aperture_without_data_sums_to_zero 1 3 spec_flux ex_unobserved ex_error
           [(1, 0, 1)] _ 0 1 eq_refl).
  - intros qy qx _ Hqy _. destruct qy; [reflexivity | simpl in Hqy; lia].
  - exact Hmap.
  - lia.
  - lia.
Defined.

(** ** The cube of the fitted line spectra, and the rows never fitted *)

Section ElinesFullSpectrum.

Variables (els_spec : list float -> list float).
Variables (hdr : header) (data : cube) (fn_list : gmap string string)
          (p : params) (fs : gmap string pickle).

Lemma fullspec_row_other (x r : nat) (s1 s2 : elines_cubes) (l y : nat) :
  x <> r ->
  elines_assemble_row els_spec hdr fn_list p fs x s1 = Ok s2 ->
  elines_fullspec_cube s2 l y r = elines_fullspec_cube s1 l y r.
Proof.
  intros Hne Hrun. unfold elines_assemble_row in Hrun.
  destruct (fn_list !! "elines_pickle") as [prefix|]; [|discriminate].
  destruct (fs !! row_file p prefix (Z.of_nat x)) as [[conts|ms|aps]|];
    try discriminate.
  - repeat match type of Hrun with
           | (if ?b then _ else _) = _ => destruct b; [discriminate|]
           end.
    injection Hrun as <-. cbn [elines_fullspec_cube]. unfold set_column.
    destruct (Nat.eqb_spec r x) as [-> | _]; [contradiction | reflexivity].
  - injection Hrun as <-. reflexivity.
Qed.

Lemma fullspec_row_at (prefix : string) (ms : list mpfit) (r : nat)
    (s1 s2 : elines_cubes) (l y : nat) :
  fn_list !! "elines_pickle" = Some prefix ->
  fs !! row_file p prefix (Z.of_nat r) = Some (PklFits ms) ->
  elines_assemble_row els_spec hdr fn_list p fs r s1 = Ok s2 ->
  elines_fullspec_cube s2 l y r
  = nth l (nth y (map els_spec (row_ps ms)) []) np.nan.
Proof.
  intros Hfn Hfile Hrun. unfold elines_assemble_row in Hrun.
  rewrite Hfn, Hfile in Hrun.
  repeat match type of Hrun with
         | (if ?b then _ else _) = _ => destruct b; [discriminate|]
         end.
  injection Hrun as <-. cbn [elines_fullspec_cube]. unfold set_column.
  rewrite Nat.eqb_refl. reflexivity.
Qed.

Lemma row_without_file (prefix : string) (r : nat) (s1 s2 : elines_cubes) :
  fn_list !! "elines_pickle" = Some prefix ->
  fs !! row_file p prefix (Z.of_nat r) = None ->
  elines_assemble_row els_spec hdr fn_list p fs r s1 = Ok s2 ->
  s2 = s1.
Proof.
  intros Hfn Hfile Hrun. unfold elines_assemble_row in Hrun.
  rewrite Hfn, Hfile in Hrun. injection Hrun as <-. reflexivity.
Qed.

(** The column of a row without pickle file is what it was before the loop. *)
Lemma elines_assemble_missing_row (prefix : string) (cubes : elines_cubes)
    (r y : nat) :
  elines_assemble els_spec hdr data fn_list p fs = Ok cubes ->
  fn_list !! "elines_pickle" = Some prefix ->
  fs !! row_file p prefix (Z.of_nat r) = None ->
  elines_fit_status cubes y r = np.nan /\
  forall k, elines_fullspec_cube cubes k y r = np.nan /\
            elines_params_cube cubes k y r = np.nan /\
            elines_params_err cubes k y r = np.nan.
Proof.
  intros Hrun Hfn Hfile. unfold elines_assemble in Hrun.
  apply (for_each_preserve _
           (fun s => elines_fit_status s y r = np.nan /\
                     forall k, elines_fullspec_cube s k y r = np.nan /\
                               elines_params_cube s k y r = np.nan /\
                               elines_params_err s k y r = np.nan)
           _ _ _ Hrun).
  - unfold empty_cubes, nan_cube, nan_image.
    cbn [elines_fit_status elines_fullspec_cube elines_params_cube
         elines_params_err].
    rewrite mul_nan_r. split; [reflexivity|]. intros k.
    rewrite !mul_nan_r. split_and!; reflexivity.
  - intros x s1 s2 _ Hb [Hs Hk].
    destruct (decide (x = r)) as [-> | Hne].
    + rewrite (row_without_file prefix r s1 s2 Hfn Hfile Hb). split; assumption.
    + pose proof (elines_assemble_row_other els_spec hdr fn_list p fs x r s1 s2
                    Hne Hb) as Hsame.
      split.
      * destruct (Hsame 0%nat y) as (_ & _ & ->). exact Hs.
      * intros k. destruct (Hsame k y) as (-> & -> & _).
        rewrite (fullspec_row_other x r s1 s2 k y Hne Hb). apply Hk.
Qed.

Lemma elines_assemble_fullspec (prefix : string) (ms : list mpfit)
    (cubes : elines_cubes) (r l y : nat) :
  elines_assemble els_spec hdr data fn_list p fs = Ok cubes ->
  (r < NAXIS1 hdr)%nat ->
  fn_list !! "elines_pickle" = Some prefix ->
  fs !! row_file p prefix (Z.of_nat r) = Some (PklFits ms) ->
  elines_fullspec_cube cubes l y r
  = nth l (nth y (map els_spec (row_ps ms)) []) np.nan.
Proof.
  intros Hrun Hr Hfn Hfile. unfold elines_assemble in Hrun.
  apply (for_each_establish _
           (fun s => elines_fullspec_cube s l y r
                     = nth l (nth y (map els_spec (row_ps ms)) []) np.nan)
           r _ _ _ Hrun).
  - apply elem_of_seq. lia.
  - intros s1 s2. apply (fullspec_row_at prefix ms); assumption.
  - intros x s1 s2 Hne Hb Hs.
    rewrite (fullspec_row_other x r s1 s2 l y Hne Hb). exact Hs.
Qed.

End ElinesFullSpectrum.

(** X18: in the cube of the fitted line spectra, the spaxel [(y, r)] of a row
    that has its pickle holds the model spectrum [els_spec] of the parameters
    of its fit, or of a vector of nan as long as the parameters of the first
    fit of the row when its own fit did not converge; and a row without
    pickle file is nan throughout the four outputs (spectra, parameters and
    fluxes, variances, status), whatever the raw data there. *)
Theorem full_spectrum_cube_and_missing_rows
    (els_spec : list float -> list float)
    (obs_sigma : image -> image -> image * image * float -> image * image)
    (c : float) (hdr : header) (data : cube) (fn_list : gmap string string)
    (p : params) (fs : gmap string pickle)
    (out : elines_cubes) (prefix : string) (r : nat) :
  run_make_elines_cube els_spec obs_sigma c hdr data fn_list p fs = Ok out ->
  (r < NAXIS1 hdr)%nat ->
  fn_list !! "elines_pickle" = Some prefix ->
  (forall ms y item,
     fs !! row_file p prefix (Z.of_nat r) = Some (PklFits ms) ->
     ms !! y = Some item ->
     exists m0,
       head ms = Some m0 /\
       forall l,
         elines_fullspec_cube out l y r
         = nth l (els_spec (if converged (mp_status item) then mp_params item
                            else np.nan_like (mp_params m0))) np.nan) /\
  (fs !! row_file p prefix (Z.of_nat r) = None ->
   forall y,
     elines_fit_status out y r = np.nan /\
     forall k, elines_fullspec_cube out k y r = np.nan /\
               elines_params_cube out k y r = np.nan /\
               elines_params_err out k y r = np.nan).
Proof.
  intros Hrun Hr Hfn.
  destruct (run_make_elines_cube_inv _ _ _ _ _ _ _ _ _ Hrun)
    as (cubes & Hasm & Hst & Hflux & Hrest).
  assert (Hfull : elines_fullspec_cube out = elines_fullspec_cube cubes).
  { unfold run_make_elines_cube in Hrun. rewrite Hasm in Hrun. simpl in Hrun.
    destruct (derive_fluxes _ _ _ _) as [P E]. injection Hrun as <-. reflexivity. }
  cbn [fst snd] in Hflux, Hrest. split.
  - intros ms y item Hfile Hy.
    destruct (lookup_row_ps ms y item Hy) as (m0 & Hhead & Hps).
    exists m0. split; [exact Hhead|]. intros l.
    rewrite Hfull,
      (elines_assemble_fullspec els_spec hdr data fn_list p fs prefix ms cubes r l y
         Hasm Hr Hfn Hfile).
    rewrite (nth_lookup _ y), list_lookup_fmap, Hps. reflexivity.
  - intros Hfile y.
    destruct (elines_assemble_missing_row els_spec hdr data fn_list p fs prefix
                cubes r y Hasm Hfn Hfile) as [Hs Hnan].
    split; [rewrite Hst; exact Hs|]. intros k.
    split; [rewrite Hfull; apply Hnan|].
    destruct (multiple_of_six_dec (nlines p) k) as [(j & Hj & ->) | Hno].
    + destruct (Hflux j y r Hj) as [-> ->].
      unfold line_flux, line_flux_err.
      destruct (Hnan (6 * j + 1)%nat) as (_ & -> & ->).
      split.
      * rewrite mul_nan_r, mul_nan_l. reflexivity.
      * unfold np.square. rewrite !mul_nan_l, mul_nan_r, add_nan_l, mul_nan_r.
        reflexivity.
    + destruct (Hrest k y r Hno) as [-> ->]. split; apply Hnan.
Qed.

Lemma full_spectrum_cube_and_missing_rows_witness :
  exists out,
    run_make_elines_cube ex_els_spec ex_obs_sigma ex_c ex_hdr ex_data
      ex_fn_list ex_params ex_files = Ok out /\
    forall y k, elines_fit_status out y 1%nat = np.nan /\
                elines_fullspec_cube out k y 1%nat = np.nan /\
                elines_params_cube out k y 1%nat = np.nan.
Proof.
  destruct ex_run_make_elines_cube_ok as [out Hrun].
  exists out. split; [exact Hrun|]. intros y k.
  destruct (full_spectrum_cube_and_missing_rows ex_els_spec ex_obs_sigma ex_c
              ex_hdr ex_data ex_fn_list ex_params ex_files out "run_NGC_row_" 1
              Hrun) as [_ Hmiss].
  - simpl. lia.
  - reflexivity.
  - destruct (Hmiss ex_row_file_1 y) as [Hs Hk].
    destruct (Hk k) as (Hf & Hp & _).
    split_and!; [exact Hs | exact Hf | exact Hp].
Defined.

(** ** The PPXF continuum, from the fit to the cube *)

Section PpxfPath.

Variables (interrupted : Z -> bool) (lowess_fit : list float -> list float).
Variables (hdr : header) (data : cube) (snr_cont : image).
Variables (p : params) (suffix : string).

Lemma cont_fit_row_ppxf_stops (row : Z) (w : world) :
  (cont_fit_row interrupted lowess_fit hdr data snr_cont p suffix ppxf row w).1
  <> Ok tt /\
  files (cont_fit_row interrupted lowess_fit hdr data snr_cont p suffix ppxf row w).2
  = files w.
Proof.
  unfold cont_fit_row.
  destruct (cont_row_inputs _ _ _ _ _ _) as [specs| |];
    [|split; [discriminate | reflexivity] ..].
  unfold cont_fit_func, dispatch. destruct (mp_on _); split; try discriminate;
    reflexivity.
Qed.

Lemma for_rows_ppxf (rows : list Z) (w : world) :
  files (for_rows (cont_fit_row interrupted lowess_fit hdr data snr_cont p suffix
                     ppxf) rows w).2 = files w /\
  ((for_rows (cont_fit_row interrupted lowess_fit hdr data snr_cont p suffix ppxf)
      rows w).1 = Ok tt -> rows = []).
Proof.
  destruct rows as [|row rows]; [split; reflexivity|].
  cbn [for_rows].
  destruct (cont_fit_row_ppxf_stops row w) as [Hstop Hfiles].
  destruct (cont_fit_row _ _ _ _ _ _ _ _ _ _) as [[[]| |] w'];
    simpl in *; [contradiction | |]; split; try exact Hfiles; discriminate.
Qed.

Lemma cube_without_files (fn_list : gmap string string) (m : method)
    (fs : gmap string pickle) (prefix : string) :
  fn_list !! (method_name m +:+ "_pickle") = Some prefix ->
  (forall r, fs !! row_file p prefix r = None) ->
  run_make_continuum_cube hdr fn_list p m fs = Ok nan_cube.
Proof.
  intros Hfn Hnone. unfold run_make_continuum_cube.
  generalize nan_cube. induction (seq 0 (NAXIS1 hdr)) as [|r rows IH]; intros cb;
    [reflexivity|].
  cbn [for_each]. unfold cont_assemble_row at 1. rewrite Hfn, Hnone.
  apply IH.
Qed.

End PpxfPath.

(** X19: the PPXF continuum is never fitted.  Whatever the range of rows, a
    run of the continuum stage with [method = 'ppxf'] leaves the files as they
    were, and it returns only when the range holds no row; the cube
    [run_make_continuum_cube] then builds for that method, if no PPXF pickle
    was there from elsewhere, is nan in every sample. *)
Theorem ppxf_continuum_cube_is_all_nan
    (interrupted : Z -> bool) (lowess_fit : list float -> list float)
    (hdr : header) (data : cube) (snr_cont : image)
    (fn_list : gmap string string) (p : params) (suffix : string)
    (start_row end_row : option Z) (w : world) :
  files (run_fit_continuum interrupted lowess_fit hdr data snr_cont fn_list p
           suffix start_row end_row ppxf w).2 = files w /\
  (forall fl',
     (run_fit_continuum interrupted lowess_fit hdr data snr_cont fn_list p suffix
        start_row end_row ppxf w).1 = Ok fl' ->
     fl' = <["ppxf_pickle" := cont_prefix p suffix ppxf]> fn_list /\
     linspace_rows (default 0 start_row)
       (default (Z.of_nat (NAXIS1 hdr) - 1) end_row) = Ok []) /\
  ((forall r, files w !! row_file p (cont_prefix p suffix ppxf) r = None) ->
   forall fl, fl !! "ppxf_pickle" = Some (cont_prefix p suffix ppxf) ->
     exists cb,
       run_make_continuum_cube hdr fl p ppxf
         (files (run_fit_continuum interrupted lowess_fit hdr data snr_cont
                   fn_list p suffix start_row end_row ppxf w).2) = Ok cb /\
       forall l y r, cb l y r = np.nan).
Proof.
  assert (Hfiles : files (run_fit_continuum interrupted lowess_fit hdr data snr_cont
                            fn_list p suffix start_row end_row ppxf w).2
                   = files w).
  { unfold run_fit_continuum. cbv zeta.
    destruct (linspace_rows _ _) as [rows| |]; try reflexivity.
    destruct (for_rows_ppxf interrupted lowess_fit hdr data snr_cont p suffix rows w)
      as [Hf _].
    destruct (for_rows _ _ _) as [[[]| |] w']; exact Hf. }
  split_and!.
  - exact Hfiles.
  - intros fl' Hok. unfold run_fit_continuum in Hok. cbv zeta in Hok.
    destruct (linspace_rows _ _) as [rows| |]; try discriminate.
    destruct (for_rows_ppxf interrupted lowess_fit hdr data snr_cont p suffix rows w)
      as [_ Hrows].
    destruct (for_rows _ _ _) as [[[]| |] w']; try discriminate.
    simpl in Hok. injection Hok as <-.
    rewrite (Hrows eq_refl). split; reflexivity.
  - intros Hnone fl Hfl. exists nan_cube. rewrite Hfiles. split.
    + apply (cube_without_files hdr p fl ppxf (files w) (cont_prefix p suffix ppxf));
        assumption.
    + intros l y r. reflexivity.
Qed.
